(** * lsp-codemirror: the CodeMirror adapter ([src/codemirror-adapter.ts])

    A shallow embedding of [CodeMirrorAdapter] and the properties its
    specification states about it.

    - JavaScript strings are Rocq strings read as sequences of code units in
      the Latin-1 range; [undefined] is [None].
    - Numbers that index text or name lines are [Z].
    - The adapter mutates itself, the editor, the DOM and the connection:
      those four stores make up [World], threaded by a state monad whose
      second outcome is a thrown exception.  A throw keeps the mutations
      made before it, as in JavaScript. *)

From Stdlib Require Import ZArith Ascii String List Bool Lia.
From stdpp Require Import base option list gmap strings.

Open Scope string_scope.
Open Scope Z_scope.
Open Scope list_scope.

(** ** JavaScript strings and arrays *)

Module JS.

(** [\w] is [[A-Za-z0-9_]]; [\W] is its complement. *)
Definition is_word (c : ascii) : bool :=
  let n := N_of_ascii c in
  ((48 <=? n) && (n <=? 57) || (65 <=? n) && (n <=? 90)
   || (n =? 95) || (97 <=? n) && (n <=? 122))%N.

Definition is_nonword (c : ascii) : bool := negb (is_word c).

(** [/\W/.test(s)] and [/\W+/.test(s)]: some code unit of [s] is not a
    word character. *)
Fixpoint test_nonword (s : string) : bool :=
  match s with
  | EmptyString => false
  | String c s' => is_nonword c || test_nonword s'
  end.

(** The regular expression applied to a value that may be [undefined]:
    [RegExp.prototype.test] first converts its argument to a string, and
    the string "undefined" has word characters only. *)
Definition test_nonword_value (v : option string) : bool :=
  match v with
  | Some s => test_nonword s
  | None => test_nonword "undefined"
  end.

(** [/^\W$/.test(s)]: exactly one code unit, not a word character. *)
Definition test_single_nonword (s : string) : bool :=
  match s with
  | String c EmptyString => is_nonword c
  | _ => false
  end.

(** [a[i]] for an array [a]: [undefined] outside the array. *)
Definition nth_value {A} (a : list A) (i : Z) : option A :=
  if i <? 0 then None else a !! Z.to_nat i.

(** [s[i]] for a string [s]: a string of one code unit, or [undefined]. *)
Definition char_at (s : string) (i : Z) : option string :=
  if i <? 0 then None
  else match String.get (Z.to_nat i) s with
       | Some c => Some (String c EmptyString)
       | None => None
       end.

Definition strlen (s : string) : Z := Z.of_nat (String.length s).

(** [s.substr(start, length)]: [length] code units from [start]; a
    negative [start] counts from the end of [s]. *)
Definition substr (s : string) (start len : Z) : string :=
  let st := if start <? 0 then Z.max (strlen s + start) 0 else start in
  if len <=? 0 then EmptyString
  else String.substring (Z.to_nat st) (Z.to_nat len) s.

(** [a.indexOf(v)] on an array of strings, by strict equality: [-1] when
    [v] is absent, and always [-1] for [undefined]. *)
Fixpoint indexOf_from (a : list string) (v : string) (i : Z) : Z :=
  match a with
  | [] => -1
  | x :: a' => if String.eqb x v then i else indexOf_from a' v (i + 1)
  end.

Definition indexOf (a : list string) (v : option string) : Z :=
  match v with
  | Some s => indexOf_from a s 0
  | None => -1
  end.

(** [a.findIndex(p)]. *)
Fixpoint findIndex_from {A} (p : A -> bool) (a : list A) (i : Z) : Z :=
  match a with
  | [] => -1
  | x :: a' => if p x then i else findIndex_from p a' (i + 1)
  end.

Definition findIndex {A} (p : A -> bool) (a : list A) : Z :=
  findIndex_from p a 0.

(** [s.split('\n')]. *)
Definition newline : ascii := ascii_of_nat 10.

Fixpoint split_lines_from (cur : string) (s : string) : list string :=
  match s with
  | EmptyString => [cur]
  | String c s' =>
      if Ascii.eqb c newline then cur :: split_lines_from EmptyString s'
      else split_lines_from (cur +:+ String c EmptyString) s'
  end.

Definition split_lines (s : string) : list string :=
  split_lines_from EmptyString s.

(** [s.split(/\W+/)]: the pieces between the maximal runs of non-word
    code units; a run at either end of [s] leaves an empty piece there. *)
Fixpoint split_nonword_from (in_run : bool) (cur : string) (s : string)
  : list string :=
  match s with
  | EmptyString => [cur]
  | String c s' =>
      if is_nonword c then
        if in_run then split_nonword_from true cur s'
        else cur :: split_nonword_from true EmptyString s'
      else split_nonword_from false (cur +:+ String c EmptyString) s'
  end.

Definition split_nonword (s : string) : list string :=
  split_nonword_from false EmptyString s.

(** [toLowerCase] on the Latin-1 range: A-Z, and the accented capitals
    U+00C0..U+00DE without the multiplication sign U+00D7.
    [toLocaleLowerCase] is taken in the default locale, where it agrees. *)
Definition lower_char (c : ascii) : ascii :=
  let n := N_of_ascii c in
  if ((65 <=? n) && (n <=? 90)
      || (192 <=? n) && (n <=? 222) && negb (n =? 215))%N
  then ascii_of_N (n + 32) else c.

Fixpoint toLowerCase (s : string) : string :=
  match s with
  | EmptyString => EmptyString
  | String c s' => String (lower_char c) (toLowerCase s')
  end.

Definition toLocaleLowerCase := toLowerCase.

(** [s.startsWith(w)]. *)
Definition startsWith (s w : string) : bool := String.prefix w s.

(** [Array.prototype.sort] is stable: two elements change places only
    when the comparator puts the later one strictly first. *)
Fixpoint insert_by {A} (cmp : A -> A -> Z) (x : A) (l : list A) : list A :=
  match l with
  | [] => [x]
  | y :: l' => if cmp x y <=? 0 then x :: l else y :: insert_by cmp x l'
  end.

Fixpoint sort {A} (cmp : A -> A -> Z) (l : list A) : list A :=
  match l with
  | [] => []
  | x :: l' => insert_by cmp x (sort cmp l')
  end.

End JS.

(** ** Protocol and editor data *)

(** [IPosition], [CodeMirror.Position]. *)
Record Position := mkPosition { line : Z; ch : Z }.

(** [lsProtocol.Position] and [lsProtocol.Range]. *)
Record LspPosition := mkLspPosition { lsp_line : Z; character : Z }.
Record Range := mkRange { range_start : LspPosition; range_end : LspPosition }.

(** [ICompletionTokenInfo]. *)
Record ICompletionTokenInfo :=
  mkToken { tok_text : string; tok_start : Position; tok_end : Position }.

(** [lsProtocol.CompletionItem]: the fields the adapter reads. *)
Record CompletionItem := mkItem {
  label : string;
  filterText : option string;
  insertText : option string;
  kind : option Z
}.

(** A thrown JavaScript exception. *)
Inductive Exn := TypeError (what : string).

(** ** Token extractor *)

Fixpoint scan_word_start (ln : string) (n : nat) (wordStartChar : Z) : Z :=
  match n with
  | O => wordStartChar
  | S i =>
      if JS.test_nonword_value (JS.char_at ln (Z.of_nat i)) then wordStartChar
      else scan_word_start ln i (Z.of_nat i)
  end.

Definition _getTokenEndingAtPosition
    (code : string) (location : Position) (splitCharacters : list string)
  : Exn + ICompletionTokenInfo :=
  let lines := JS.split_lines code in
  match JS.nth_value lines (line location) with
  | None => inl (TypeError "Cannot read properties of undefined (line)")
  | Some ln =>
      let typedCharacter := JS.char_at ln (ch location - 1) in
      match (if -1 <? JS.indexOf splitCharacters typedCharacter
             then typedCharacter else None) with
      | Some c =>
          inr {| tok_text := c;
                 tok_start := {| line := line location; ch := ch location - 1 |};
                 tok_end := location |}
      | None =>
          let wordStartChar := scan_word_start ln (Z.to_nat (ch location)) 0 in
          inr {| tok_text := JS.substr ln wordStartChar (ch location);
                 tok_start := {| line := line location; ch := wordStartChar |};
                 tok_end := location |}
      end
  end.

(** ** Completion ranker *)

(** Truthiness of an optional string: [undefined] and [""] are falsy. *)
Definition truthy_string (o : option string) : bool :=
  match o with
  | Some EmptyString | None => false
  | Some _ => true
  end.

(** [triggerWord.split(/\W+/)[0]]; the split of a string is never empty. *)
Definition firstWord_of (triggerWord : string) : string :=
  hd EmptyString (JS.split_nonword triggerWord).

Definition completion_filter (word : string) (canMatchWholeWord : bool)
    (item : CompletionItem) : bool :=
  let lbl := JS.toLocaleLowerCase (label item) in
  if truthy_string (filterText item)
     && JS.startsWith (JS.toLowerCase (default EmptyString (filterText item))) word
  then true
  else if negb canMatchWholeWord && String.eqb lbl word then false
  else JS.startsWith lbl word.

Definition completion_compare (word : string) (a b : CompletionItem) : Z :=
  let labelA := JS.toLocaleLowerCase (label a) in
  let labelB := JS.toLocaleLowerCase (label b) in
  let inA := if JS.startsWith labelA word then -1 else 1 in
  let inB := if JS.startsWith labelB word then 1 else -1 in
  inA + inB.

(** [items] is [None] when the caller passes [undefined] or [null]. *)
Definition _getFilteredCompletions
    (triggerWord : string) (items : option (list CompletionItem))
    (canMatchWholeWord : bool) : list CompletionItem :=
  let firstWord := firstWord_of triggerWord in
  match JS.test_nonword firstWord, items with
  | true, _ | _, None => []
  | false, Some items =>
      let word := JS.toLowerCase firstWord in
      JS.sort (completion_compare word)
              (List.filter (completion_filter word canMatchWholeWord) items)
  end.

Definition item_of_label (l : string) : CompletionItem :=
  {| label := l; filterText := None; insertText := None; kind := None |}.


(** ** Options

    Every option is optional; a toggle is read by truthiness. *)

Record ITextEditorOptions := mkOptions {
  enableHoverInfo : option bool;
  enableDiagnostics : option bool;
  enableSignatures : option bool;
  enableGutterMarks : option bool;
  enableContextMenu : option bool;
  suggest : option bool;
  debounceSuggestionsWhileTyping : option Z;
  quickSuggestionsDelay : option Z;
  diagnosticMarkClassName : option string;
  contextMenuProvider : bool
}.

Definition truthy (o : option bool) : bool := default false o.

(** [debounce(f, wait)] of lodash keeps [toNumber(wait) || 0]. *)
Definition debounce_wait (o : option Z) : Z := default 0 o.

(** ** Protocol payloads *)

Record Diagnostic := mkDiagnostic { diag_range : Range; message : string }.

(** [diagnostics] is [None] when the publication has no such field. *)
Record PublishDiagnosticsParams :=
  mkPublish { publish_uri : string; diagnostics : option (list Diagnostic) }.

Record SignatureInformation := mkSignature { sig_label : string }.

(** [signatures] is [None] when the result has no such field. *)
Record SignatureHelp :=
  mkSignatureHelp { signatures : option (list SignatureInformation) }.

Record Location := mkLocation { uri : string; range : Range }.
Record LocationLink :=
  mkLocationLink { targetUri : string; targetRange : Range }.

Inductive LocationItem :=
  | ALocation (l : Location)
  | ALocationLink (l : LocationLink).

(** [Location | Location[] | LocationLink[] | null]. *)
Inductive GoToPayload :=
  | GoToNull
  | GoToLocation (l : Location)
  | GoToArray (items : list LocationItem).

(** [ITokenInfo]: one entry of the diagnostics tracker. *)
Record ITokenInfo :=
  mkTokenInfo { ti_text : list string; ti_start : Position; ti_end : Position }.

Definition position_eqb (p q : Position) : bool :=
  (line p =? line q) && (ch p =? ch q).

(** ** The stores the adapter works on *)

(** The functions the adapter installs as listeners: the debounced change
    handler with the interval it was built with, and the bound methods. *)
Inductive Listener :=
  | changeListener (wait : Z)
  | hoverHandler
  | completionHandler
  | signatureHandler
  | diagnosticHandler
  | refreshListener
  | mouseLeaveListener
  | scrollListener
  | mouseOverListener
  | rightClickHandler
  | clickOutsideListener
  | clickInsideListener.

#[global] Instance Listener_eq_dec : EqDecision Listener.
Proof. solve_decision. Defined.

Definition listener_eqb (f g : Listener) : bool := bool_decide (f = g).

(** A JavaScript object from names to listeners, in insertion order. *)
Fixpoint obj_get (k : string) (o : list (string * Listener)) : option Listener :=
  match o with
  | [] => None
  | (k', f) :: o' => if String.eqb k' k then Some f else obj_get k o'
  end.

Fixpoint obj_set (k : string) (f : Listener) (o : list (string * Listener))
  : list (string * Listener) :=
  match o with
  | [] => [(k, f)]
  | (k', g) :: o' =>
      if String.eqb k' k then (k, f) :: o' else (k', g) :: obj_set k f o'
  end.

Definition obj_keys (o : list (string * Listener)) : list string := map fst o.

(** The handlers of an event source: [on]/[addEventListener] append,
    [off]/[removeEventListener] take out the entry with this very type and
    function, and do nothing when the function is [undefined]. *)
Definition handler_on (type : string) (f : Listener)
    (hs : list (string * Listener)) : list (string * Listener) :=
  hs ++ [(type, f)].

Definition same_handler (type : string) (f : Listener)
    (h : string * Listener) : bool :=
  String.eqb (fst h) type && listener_eqb (snd h) f.

Fixpoint remove_first (type : string) (f : Listener)
    (hs : list (string * Listener)) : list (string * Listener) :=
  match hs with
  | [] => []
  | h :: hs' =>
      if same_handler type f h then hs' else h :: remove_first type f hs'
  end.

Definition handler_off (type : string) (f : option Listener)
    (hs : list (string * Listener)) : list (string * Listener) :=
  match f with
  | Some f => remove_first type f hs
  | None => hs
  end.

Definition addEventListener (type : string) (f : Listener)
    (hs : list (string * Listener)) : list (string * Listener) :=
  if existsb (same_handler type f) hs then hs else hs ++ [(type, f)].

Definition removeEventListener := handler_off.

(** A marked range of the document. *)
Record TextMarker := mkTextMarker {
  marker_id : nat;
  marker_from : Position;
  marker_to : Position;
  className : option string
}.

(** What the adapter asks of the editor's geometry and tokenizer. *)
Record EditorView := mkEditorView {
  coordsChar : Z -> Z -> Position;
  getTokenAt : Position -> string;
  charCoords : Position -> Z * Z;
  getScrollInfo : Z * Z;
  defaultTextHeight : Z
}.

(** One entry of the hint list handed to the show-hint addon. *)
Record Hint := mkHint { hint_text : string; displayText : string }.
Record HintRequest :=
  mkHintRequest { hint_from : Position; hint_to : Position; hint_list : list Hint }.

Record Editor := mkEditor {
  doc_lines : list string;
  cursor_end : Position;
  view : EditorView;
  marks : list TextMarker;
  next_marker : nat;
  gutter : gmap Z string;
  editor_handlers : list (string * Listener);
  scrolledIntoView : list (option Position);
  signalled : list (option (list Diagnostic));
  hint : option HintRequest
}.

(** Elements the adapter builds for a tooltip. *)
#[local] Unset Elimination Schemes.
Inductive Element :=
  | mkElement (tag : string) (classes : list string) (innerText : string)
              (children : list Element).
#[local] Set Elimination Schemes.

(** A node below the editor's wrapper element. *)
Record Node := mkNode {
  node_id : nat;
  node_classes : list string;
  node_left : Z;
  node_top : Z;
  node_children : list Element
}.

Record Dom := mkDom {
  wrapper_nodes : list Node;
  next_node : nat;
  wrapper_handlers : list (string * Listener);
  document_handlers : list (string * Listener)
}.

(** Requests the adapter sends through the connection. *)
Inductive Call :=
  | sendChange
  | getHoverTooltip (p : Position)
  | getCompletion (p : Position) (tok : option ICompletionTokenInfo)
                  (triggerCharacter : option string) (triggerKind : Z)
  | getSignatureHelp (p : Position).

Record Connection := mkConnection {
  documentUri : string;
  completionCharacters : list string;
  signatureCharacters : list string;
  definitionSupported : bool;
  typeDefinitionSupported : bool;
  referencesSupported : bool;
  connection_handlers : list (string * Listener);
  calls : list Call
}.

(** The fields of the adapter instance.  [debouncedGetHover] is the
    interval its debounced function was built with. *)
Record Adapter := mkAdapter {
  options : ITextEditorOptions;
  snippets : option (list CompletionItem);
  hoverMarker : option nat;
  signatureWidget : option nat;
  token : option ICompletionTokenInfo;
  markedDiagnostics : list nat;
  diagnosticResults : list ITokenInfo;
  highlightMarkers : list nat;
  hoverCharacter : option Position;
  debouncedGetHover : Z;
  connectionListeners : list (string * Listener);
  editorListeners : list (string * Listener);
  documentListeners : list (string * Listener);
  tooltip : option nat;
  isShowingContextMenu : bool
}.

(** Trailing calls the two debounced functions still owe. *)
Record Timers := mkTimers {
  pending_hover : option Position;
  pending_change : bool
}.

Record World := mkWorld {
  this : Adapter;
  editor : Editor;
  dom : Dom;
  connection : Connection;
  timers : Timers
}.

(** A call returns, or throws with the state it reached. *)
Inductive Res :=
  | Done (w : World)
  | Raise (e : Exn) (w : World).

Definition world_of (r : Res) : World :=
  match r with Done w | Raise _ w => w end.

Definition and_then (r : Res) (k : World -> Res) : Res :=
  match r with
  | Done w => k w
  | Raise e w => Raise e w
  end.

(** *** Field updates *)

Definition set_options (v : _) (a : Adapter) : Adapter :=
  let 'mkAdapter _ x1 x2 x3 x4 x5 x6 x7 x8 x9 x10 x11 x12 x13 x14 := a in
  mkAdapter v x1 x2 x3 x4 x5 x6 x7 x8 x9 x10 x11 x12 x13 x14.
Definition set_snippets (v : _) (a : Adapter) : Adapter :=
  let 'mkAdapter x0 _ x2 x3 x4 x5 x6 x7 x8 x9 x10 x11 x12 x13 x14 := a in
  mkAdapter x0 v x2 x3 x4 x5 x6 x7 x8 x9 x10 x11 x12 x13 x14.
Definition set_hoverMarker (v : _) (a : Adapter) : Adapter :=
  let 'mkAdapter x0 x1 _ x3 x4 x5 x6 x7 x8 x9 x10 x11 x12 x13 x14 := a in
  mkAdapter x0 x1 v x3 x4 x5 x6 x7 x8 x9 x10 x11 x12 x13 x14.
Definition set_signatureWidget (v : _) (a : Adapter) : Adapter :=
  let 'mkAdapter x0 x1 x2 _ x4 x5 x6 x7 x8 x9 x10 x11 x12 x13 x14 := a in
  mkAdapter x0 x1 x2 v x4 x5 x6 x7 x8 x9 x10 x11 x12 x13 x14.
Definition set_token (v : _) (a : Adapter) : Adapter :=
  let 'mkAdapter x0 x1 x2 x3 _ x5 x6 x7 x8 x9 x10 x11 x12 x13 x14 := a in
  mkAdapter x0 x1 x2 x3 v x5 x6 x7 x8 x9 x10 x11 x12 x13 x14.
Definition set_markedDiagnostics (v : _) (a : Adapter) : Adapter :=
  let 'mkAdapter x0 x1 x2 x3 x4 _ x6 x7 x8 x9 x10 x11 x12 x13 x14 := a in
  mkAdapter x0 x1 x2 x3 x4 v x6 x7 x8 x9 x10 x11 x12 x13 x14.
Definition set_diagnosticResults (v : _) (a : Adapter) : Adapter :=
  let 'mkAdapter x0 x1 x2 x3 x4 x5 _ x7 x8 x9 x10 x11 x12 x13 x14 := a in
  mkAdapter x0 x1 x2 x3 x4 x5 v x7 x8 x9 x10 x11 x12 x13 x14.
Definition set_highlightMarkers (v : _) (a : Adapter) : Adapter :=
  let 'mkAdapter x0 x1 x2 x3 x4 x5 x6 _ x8 x9 x10 x11 x12 x13 x14 := a in
  mkAdapter x0 x1 x2 x3 x4 x5 x6 v x8 x9 x10 x11 x12 x13 x14.
Definition set_hoverCharacter (v : _) (a : Adapter) : Adapter :=
  let 'mkAdapter x0 x1 x2 x3 x4 x5 x6 x7 _ x9 x10 x11 x12 x13 x14 := a in
  mkAdapter x0 x1 x2 x3 x4 x5 x6 x7 v x9 x10 x11 x12 x13 x14.
Definition set_connectionListeners (v : _) (a : Adapter) : Adapter :=
  let 'mkAdapter x0 x1 x2 x3 x4 x5 x6 x7 x8 x9 _ x11 x12 x13 x14 := a in
  mkAdapter x0 x1 x2 x3 x4 x5 x6 x7 x8 x9 v x11 x12 x13 x14.
Definition set_editorListeners (v : _) (a : Adapter) : Adapter :=
  let 'mkAdapter x0 x1 x2 x3 x4 x5 x6 x7 x8 x9 x10 _ x12 x13 x14 := a in
  mkAdapter x0 x1 x2 x3 x4 x5 x6 x7 x8 x9 x10 v x12 x13 x14.
Definition set_documentListeners (v : _) (a : Adapter) : Adapter :=
  let 'mkAdapter x0 x1 x2 x3 x4 x5 x6 x7 x8 x9 x10 x11 _ x13 x14 := a in
  mkAdapter x0 x1 x2 x3 x4 x5 x6 x7 x8 x9 x10 x11 v x13 x14.
Definition set_tooltip (v : _) (a : Adapter) : Adapter :=
  let 'mkAdapter x0 x1 x2 x3 x4 x5 x6 x7 x8 x9 x10 x11 x12 _ x14 := a in
  mkAdapter x0 x1 x2 x3 x4 x5 x6 x7 x8 x9 x10 x11 x12 v x14.
Definition set_isShowingContextMenu (v : _) (a : Adapter) : Adapter :=
  let 'mkAdapter x0 x1 x2 x3 x4 x5 x6 x7 x8 x9 x10 x11 x12 x13 _ := a in
  mkAdapter x0 x1 x2 x3 x4 x5 x6 x7 x8 x9 x10 x11 x12 x13 v.

Definition set_marks (v : _) (e : Editor) : Editor :=
  let 'mkEditor x0 x1 x2 _ x4 x5 x6 x7 x8 x9 := e in
  mkEditor x0 x1 x2 v x4 x5 x6 x7 x8 x9.
Definition set_next_marker (v : _) (e : Editor) : Editor :=
  let 'mkEditor x0 x1 x2 x3 _ x5 x6 x7 x8 x9 := e in
  mkEditor x0 x1 x2 x3 v x5 x6 x7 x8 x9.
Definition set_gutter (v : _) (e : Editor) : Editor :=
  let 'mkEditor x0 x1 x2 x3 x4 _ x6 x7 x8 x9 := e in
  mkEditor x0 x1 x2 x3 x4 v x6 x7 x8 x9.
Definition set_editor_handlers (v : _) (e : Editor) : Editor :=
  let 'mkEditor x0 x1 x2 x3 x4 x5 _ x7 x8 x9 := e in
  mkEditor x0 x1 x2 x3 x4 x5 v x7 x8 x9.
Definition set_scrolledIntoView (v : _) (e : Editor) : Editor :=
  let 'mkEditor x0 x1 x2 x3 x4 x5 x6 _ x8 x9 := e in
  mkEditor x0 x1 x2 x3 x4 x5 x6 v x8 x9.
Definition set_signalled (v : _) (e : Editor) : Editor :=
  let 'mkEditor x0 x1 x2 x3 x4 x5 x6 x7 _ x9 := e in
  mkEditor x0 x1 x2 x3 x4 x5 x6 x7 v x9.
Definition set_hint (v : _) (e : Editor) : Editor :=
  let 'mkEditor x0 x1 x2 x3 x4 x5 x6 x7 x8 _ := e in
  mkEditor x0 x1 x2 x3 x4 x5 x6 x7 x8 v.

Definition set_wrapper_nodes (v : _) (d : Dom) : Dom :=
  let 'mkDom _ x1 x2 x3 := d in mkDom v x1 x2 x3.
Definition set_next_node (v : _) (d : Dom) : Dom :=
  let 'mkDom x0 _ x2 x3 := d in mkDom x0 v x2 x3.
Definition set_wrapper_handlers (v : _) (d : Dom) : Dom :=
  let 'mkDom x0 x1 _ x3 := d in mkDom x0 x1 v x3.
Definition set_document_handlers (v : _) (d : Dom) : Dom :=
  let 'mkDom x0 x1 x2 _ := d in mkDom x0 x1 x2 v.

Definition set_connection_handlers (v : _) (c : Connection) : Connection :=
  let 'mkConnection x0 x1 x2 x3 x4 x5 _ x7 := c in
  mkConnection x0 x1 x2 x3 x4 x5 v x7.
Definition set_calls (v : _) (c : Connection) : Connection :=
  let 'mkConnection x0 x1 x2 x3 x4 x5 x6 _ := c in
  mkConnection x0 x1 x2 x3 x4 x5 x6 v.

Definition set_pending_hover (v : _) (t : Timers) : Timers :=
  let 'mkTimers _ x1 := t in mkTimers v x1.
Definition set_pending_change (v : _) (t : Timers) : Timers :=
  let 'mkTimers x0 _ := t in mkTimers x0 v.

Definition set_this (v : _) (w : World) : World :=
  let 'mkWorld _ x1 x2 x3 x4 := w in mkWorld v x1 x2 x3 x4.
Definition set_editor (v : _) (w : World) : World :=
  let 'mkWorld x0 _ x2 x3 x4 := w in mkWorld x0 v x2 x3 x4.
Definition set_dom (v : _) (w : World) : World :=
  let 'mkWorld x0 x1 _ x3 x4 := w in mkWorld x0 x1 v x3 x4.
Definition set_connection (v : _) (w : World) : World :=
  let 'mkWorld x0 x1 x2 _ x4 := w in mkWorld x0 x1 x2 v x4.
Definition set_timers (v : _) (w : World) : World :=
  let 'mkWorld x0 x1 x2 x3 _ := w in mkWorld x0 x1 x2 x3 v.


Definition on_this (f : Adapter -> Adapter) (w : World) : World :=
  set_this (f (this w)) w.
Definition on_editor (f : Editor -> Editor) (w : World) : World :=
  set_editor (f (editor w)) w.
Definition on_dom (f : Dom -> Dom) (w : World) : World :=
  set_dom (f (dom w)) w.
Definition on_connection (f : Connection -> Connection) (w : World) : World :=
  set_connection (f (connection w)) w.
Definition on_timers (f : Timers -> Timers) (w : World) : World :=
  set_timers (f (timers w)) w.

(** ** Editor and DOM primitives *)

(** The editor library is no part of the sources; what follows models the
    calls of CodeMirror 5 the adapter makes on a document of the lines
    [ls], numbered from 0.  A document has at least one line. *)

(** [cmp(a, b) < 0]. *)
Definition pos_ltb (a b : Position) : bool :=
  (line a <? line b) || ((line a =? line b) && (ch a <? ch b)).

(** The length of the line [n] of the document. *)
Definition line_length (ls : list string) (n : Z) : Z :=
  JS.strlen (default EmptyString (JS.nth_value ls n)).

(** [clipLine(doc, n)]. *)
Definition clipLine (ls : list string) (n : Z) : Z :=
  Z.max 0 (Z.min n (Z.of_nat (length ls) - 1)).

(** [clipPos(doc, pos)]. *)
Definition clipPos (ls : list string) (pos : Position) : Position :=
  let last := Z.of_nat (length ls) - 1 in
  if line pos <? 0 then mkPosition 0 0
  else if last <? line pos then mkPosition last (line_length ls last)
  else
    let linelen := line_length ls (line pos) in
    if linelen <? ch pos then mkPosition (line pos) linelen
    else if ch pos <? 0 then mkPosition (line pos) 0
    else pos.

(** What [markText] attaches to the document for the marker [id]: a mark
    over the range clipped to the document, and nothing when the clipped
    range is empty or reversed. *)
Definition text_mark (ls : list string) (id : nat) (from to : Position)
    (cls : option string) : list TextMarker :=
  let from := clipPos ls from in
  let to := clipPos ls to in
  if pos_ltb from to then [mkTextMarker id from to cls] else [].

Arguments clipLine : simpl never.
Arguments clipPos : simpl never.
Arguments text_mark : simpl never.

(** [editor.getDoc().markText(from, to, {className})]: the marker returned
    is [id], attached or not; [marks] are the attached ones, what
    [getAllMarks] lists. *)
Definition markText (from to : Position) (cls : option string) (w : World)
  : nat * World :=
  let e := editor w in
  let id := next_marker e in
  (id, set_editor
         (set_next_marker (S id)
            (set_marks (marks e ++ text_mark (doc_lines e) id from to cls) e)) w).

(** [marker.clear()]. *)
Definition clear_marker (id : nat) (w : World) : World :=
  on_editor
    (fun e => set_marks
                (List.filter (fun m => negb (Nat.eqb (marker_id m) id)) (marks e)) e)
    w.

(** [markers.forEach(marker => marker.clear())]. *)
Definition clear_markers (ids : list nat) (w : World) : World :=
  fold_left (fun w id => clear_marker id w) ids w.

(** [element.remove()] for a node below the wrapper. *)
Definition remove_node (id : nat) (w : World) : World :=
  on_dom
    (fun d => set_wrapper_nodes
                (List.filter (fun n => negb (Nat.eqb (node_id n) id))
                             (wrapper_nodes d)) d)
    w.

Definition has_class (c : string) (classes : list string) : bool :=
  existsb (String.eqb c) classes.

Definition call (c : Call) (w : World) : World :=
  on_connection (fun k => set_calls (calls k ++ [c]) k) w.

Definition position_of (p : LspPosition) : Position :=
  {| line := lsp_line p; ch := character p |}.

(** ** Overlay presenter *)

Definition _removeTooltip (w : World) : World :=
  match tooltip (this w) with
  | Some t => remove_node t (on_this (set_isShowingContextMenu false) w)
  | None => w
  end.

(** The deferred re-measurement of [_showTooltip] moves the same element
    once it has a height; it is left out. *)
Definition _showTooltip (el : Element) (x y : Z) (w : World) : World :=
  let w := if isShowingContextMenu (this w) then _removeTooltip w else w in
  let top := y - defaultTextHeight (view (editor w)) in
  let id := next_node (dom w) in
  let node := {| node_id := id; node_classes := ["CodeMirror-lsp-tooltip"];
                 node_left := x; node_top := top; node_children := [el] |} in
  let w := on_this (set_tooltip (Some id)) w in
  let w := on_dom (fun d => set_next_node (S id)
                             (set_wrapper_nodes (wrapper_nodes d ++ [node]) d)) w in
  on_this (set_isShowingContextMenu true) w.

(** No method assigns [signatureWidget]; clearing a line widget has no
    counterpart in the stores. *)
Definition _removeSignatureWidget (w : World) : World :=
  let w := match signatureWidget (this w) with
           | Some _ => on_this (set_signatureWidget None) w
           | None => w
           end in
  match tooltip (this w) with
  | Some _ => _removeTooltip w
  | None => w
  end.

Definition _removeHover (w : World) : World :=
  match hoverMarker (this w) with
  | Some m => on_this (set_hoverMarker None) (clear_marker m w)
  | None => w
  end.

(** ** Highlights *)

Definition _unhighlightRanges (w : World) : World :=
  on_this (set_highlightMarkers [])
          (clear_markers (highlightMarkers (this w)) w).

Definition highlight_one (w : World) (item : Range) : World :=
  let start := position_of (range_start item) in
  let end_ := position_of (range_end item) in
  let (m, w) := markText start end_ (Some "CodeMirror-lsp-highlight") w in
  on_this (fun a => set_highlightMarkers (highlightMarkers a ++ [m]) a) w.

Definition _highlightRanges (items : list Range) (w : World) : World :=
  let w := _unhighlightRanges w in
  match items with
  | [] => w
  | _ => fold_left highlight_one items w
  end.

(** ** Diagnostics tracker *)

Definition _clearDiagnostics (w : World) : World :=
  let w := on_editor (set_gutter ∅) w in
  let w := clear_markers (markedDiagnostics (this w)) w in
  let w := on_this (set_markedDiagnostics []) w in
  on_this (set_diagnosticResults []) w.

Definition push_message (msg : string) (r : ITokenInfo) : ITokenInfo :=
  {| ti_text := ti_text r ++ [msg]; ti_start := ti_start r; ti_end := ti_end r |}.

(** One round of the loop of [handleDiagnostic]; [setGutterMarker] clips
    its line to the document. *)
Definition diagnostic_step (w : World) (diagnostic : Diagnostic) : World :=
  let start := position_of (range_start (diag_range diagnostic)) in
  let end_ := position_of (range_end (diag_range diagnostic)) in
  let (m, w) := markText start end_ (diagnosticMarkClassName (options (this w))) w in
  let w := on_this (fun a => set_markedDiagnostics (markedDiagnostics a ++ [m]) a) w in
  let duplicateIndex :=
    JS.findIndex
      (fun result => position_eqb (ti_start result) start
                     && position_eqb (ti_end result) end_)
      (diagnosticResults (this w)) in
  let w :=
    if -1 <? duplicateIndex then
      on_this (fun a => set_diagnosticResults
                          (alter (push_message (message diagnostic))
                                 (Z.to_nat duplicateIndex) (diagnosticResults a)) a) w
    else
      on_this (fun a => set_diagnosticResults
                          (diagnosticResults a
                           ++ [{| ti_text := [message diagnostic];
                                  ti_start := start; ti_end := end_ |}]) a) w in
  if truthy (enableGutterMarks (options (this w))) then
    on_editor (fun e => set_gutter
                          (<[clipLine (doc_lines e) (line start) := message diagnostic]>
                             (gutter e)) e) w
  else w.

Definition handleDiagnostic (response : PublishDiagnosticsParams) (w : World)
  : Res :=
  if negb (truthy (enableDiagnostics (options (this w)))) then Done w
  else
    let w := _clearDiagnostics w in
    let w := on_editor (fun e => set_signalled
                                   (signalled e ++ [diagnostics response]) e) w in
    match diagnostics response with
    | None => Raise (TypeError "Cannot read properties of undefined (forEach)") w
    | Some ds => Done (fold_left diagnostic_step ds w)
    end.

(** ** Signature help *)

Definition signature_element (sigs : list SignatureInformation) : Element :=
  mkElement "div" ["lsp-inner"] ""
    (map (fun item => mkElement "div" [] (sig_label item) []) sigs).

Definition handleSignature (result : option SignatureHelp) (w : World) : Res :=
  let w := _removeSignatureWidget w in
  let w := _removeTooltip w in
  if negb (truthy (enableSignatures (options (this w)))) then Done w
  else
    match result with
    | None => Done w
    | Some r =>
        match signatures r with
        | None => Raise (TypeError "Cannot read properties of undefined (length)") w
        | Some sigs =>
            match sigs, token (this w) with
            | [], _ | _, None => Done w
            | _ :: _, Some tok =>
                let coords := charCoords (view (editor w)) (tok_start tok) in
                let scrollCords := getScrollInfo (view (editor w)) in
                let left := fst coords - fst scrollCords in
                let top := snd coords - snd scrollCords in
                Done (_showTooltip (signature_element sigs) left top w)
            end
        end
    end.

(** ** Go-to *)

Definition scrollIntoView (p : option Position) (w : World) : World :=
  on_editor (fun e => set_scrolledIntoView (scrolledIntoView e ++ [p]) e) w.

Definition is_Location (l : LocationItem) : bool :=
  match l with ALocation _ => true | ALocationLink _ => false end.

Definition is_LocationLink (l : LocationItem) : bool :=
  match l with ALocation _ => false | ALocationLink _ => true end.

Definition as_Location (l : LocationItem) : option Location :=
  match l with ALocation l => Some l | ALocationLink _ => None end.

Definition as_LocationLink (l : LocationItem) : option LocationLink :=
  match l with ALocation _ => None | ALocationLink l => Some l end.

Definition handleGoTo (location : GoToPayload) (w : World) : Res :=
  let w := _removeTooltip w in
  match location with
  | GoToNull => Done w
  | GoToLocation l =>
      let documentUri := documentUri (connection w) in
      if negb (String.eqb (uri l) documentUri) then Done w
      else
        let w := _highlightRanges [range l] w in
        Done (scrollIntoView (Some (position_of (range_start (range l)))) w)
  | GoToArray items =>
      let documentUri := documentUri (connection w) in
      if forallb is_Location items then
        let locations :=
          List.filter (fun l => String.eqb (uri l) documentUri)
                      (omap as_Location items) in
        let w := _highlightRanges (map range locations) w in
        match locations !! 0%nat with
        | None => Raise (TypeError "Cannot read properties of undefined (range)") w
        | Some l0 =>
            Done (scrollIntoView (Some (position_of (range_start (range l0)))) w)
        end
      else if forallb is_LocationLink items then
        let locations :=
          List.filter (fun l => String.eqb (targetUri l) documentUri)
                      (omap as_LocationLink items) in
        let w := _highlightRanges (map targetRange locations) w in
        match locations !! 0%nat with
        | None =>
            Raise (TypeError "Cannot read properties of undefined (targetRange)") w
        | Some l0 =>
            Done (scrollIntoView
                    (Some (position_of (range_start (targetRange l0)))) w)
        end
      else Done (scrollIntoView None w)
  end.

(** ** Pointer events *)

Record DomElement := mkDomElement {
  classList : list string;
  tagName : string;
  is_body : bool
}.

(** [target_path] is [ev.target] followed by its [parentElement] chain;
    after its last element comes [null]. *)
Record MouseEvent := mkMouseEvent {
  clientX : Z;
  clientY : Z;
  target_path : list DomElement
}.

Definition null_target : Exn :=
  TypeError "Cannot read properties of null (classList)".

Definition _isEventOnTooltip (ev : MouseEvent) (w : World) : Exn + bool :=
  if negb (isShowingContextMenu (this w)) then inr false
  else
    match target_path ev with
    | [] => inl null_target
    | target :: _ =>
        inr (has_class "CodeMirror-lsp-tooltip" (classList target)
             || String.eqb (tagName target) "A")
    end.

Fixpoint inside_visible (path : list DomElement) : Exn + bool :=
  match path with
  | [] => inl null_target
  | target :: parents =>
      if is_body target then inr false
      else if has_class "CodeMirror" (classList target) then inr true
      else inside_visible parents
  end.

Definition _isEventInsideVisible (ev : MouseEvent) : Exn + bool :=
  inside_visible (target_path ev).

Definition _isEventOnCharacter (ev : MouseEvent) (w : World) : bool :=
  let docPosition := coordsChar (view (editor w)) (clientX ev) (clientY ev) in
  negb (String.eqb (getTokenAt (view (editor w)) docPosition) "").

(** Calling [debouncedGetHover] re-arms its timer with the latest position. *)
Definition call_debouncedGetHover (p : Position) (w : World) : World :=
  on_timers (set_pending_hover (Some p)) w.

(** The function under the debounce, run when the timer expires. *)
Definition getHover_body (position : Position) (w : World) : World :=
  if negb (truthy (enableDiagnostics (options (this w))))
     && negb (truthy (enableHoverInfo (options (this w))))
  then w
  else call (getHoverTooltip position) w.

Definition hover_timer_expires (w : World) : World :=
  match pending_hover (timers w) with
  | Some p => getHover_body p (on_timers (set_pending_hover None) w)
  | None => w
  end.

Definition handleMouseLeave (w : World) : World := w.

Definition handleMouseOver (ev : MouseEvent) (w : World) : Res :=
  if negb (_isEventOnCharacter ev w) then Done w
  else
    match _isEventOnTooltip ev w with
    | inl e => Raise e w
    | inr true => Done w
    | inr false =>
        match _isEventInsideVisible ev with
        | inl e => Raise e w
        | inr false => Done (_removeTooltip (_removeHover w))
        | inr true =>
            let docPosition :=
              coordsChar (view (editor w)) (clientX ev) (clientY ev) in
            match hoverCharacter (this w) with
            | Some h =>
                if position_eqb docPosition h then Done w
                else Done (call_debouncedGetHover docPosition
                             (on_this (set_hoverCharacter (Some docPosition)) w))
            | None =>
                Done (call_debouncedGetHover docPosition
                        (on_this (set_hoverCharacter (Some docPosition)) w))
            end
        end
    end.

Definition handleRefresh (w : World) : World :=
  _removeTooltip (_removeHover w).

Definition handleScrollLeave (w : World) : World :=
  _removeTooltip (_removeHover w).

Definition _handleClickInside (w : World) : World := _unhighlightRanges w.

Fixpoint inside_tooltip (path : list DomElement) : bool :=
  match path with
  | [] => false
  | target :: parents =>
      if is_body target then false
      else if has_class "CodeMirror-lsp-tooltip" (classList target) then true
      else inside_tooltip parents
  end.

Definition _handleClickOutside (ev : MouseEvent) (w : World) : World :=
  if isShowingContextMenu (this w) then
    if inside_tooltip (target_path ev) then w else _removeTooltip w
  else w.

(** ** Buffer changes *)

Definition join_lines (ls : list string) : string :=
  match ls with
  | [] => ""
  | l :: ls' =>
      fold_left (fun acc x => acc +:+ String JS.newline EmptyString +:+ x) ls' l
  end.

Definition getValue (w : World) : string := join_lines (doc_lines (editor w)).

Definition set_token_result (r : Exn + ICompletionTokenInfo) (w : World) : Res :=
  match r with
  | inl e => Raise e w
  | inr t => Done (on_this (set_token (Some t)) w)
  end.

Definition handleChange (w : World) : Res :=
  let location := cursor_end (editor w) in
  let w := call sendChange w in
  let completionCharacters := completionCharacters (connection w) in
  let signatureCharacters := signatureCharacters (connection w) in
  let code := getValue w in
  match JS.nth_value (doc_lines (editor w)) (line location) with
  | None => Raise (TypeError "Cannot read properties of undefined (line)") w
  | Some ln =>
      match JS.char_at ln (ch location - 1) with
      | None => Done (_removeSignatureWidget w)
      | Some typedCharacter =>
          if -1 <? JS.indexOf completionCharacters (Some typedCharacter) then
            and_then
              (set_token_result
                 (_getTokenEndingAtPosition code location completionCharacters) w)
              (fun w =>
                 Done (call (getCompletion location (token (this w))
                               (List.find (String.eqb typedCharacter)
                                          completionCharacters) 2) w))
          else if -1 <? JS.indexOf signatureCharacters (Some typedCharacter) then
            and_then
              (set_token_result
                 (_getTokenEndingAtPosition code location signatureCharacters) w)
              (fun w => Done (call (getSignatureHelp location) w))
          else if negb (JS.test_nonword typedCharacter) then
            let w := call (getCompletion location (token (this w)) (Some "") 1) w in
            set_token_result
              (_getTokenEndingAtPosition code location
                 (completionCharacters ++ signatureCharacters)) w
          else Done (_removeSignatureWidget w)
      end
  end.

Definition call_changeListener (w : World) : World :=
  on_timers (set_pending_change true) w.

Definition change_timer_expires (w : World) : Res :=
  if pending_change (timers w)
  then handleChange (on_timers (set_pending_change false) w)
  else Done w.

(** ** Completion *)

Definition _getHintList (hints : list CompletionItem) : list Hint :=
  map (fun item =>
         {| hint_text := if truthy_string (insertText item)
                         then default EmptyString (insertText item)
                         else label item;
            displayText := label item |})
      hints.

Definition handleCompletion (completions : option (list CompletionItem))
    (w : World) : World :=
  match token (this w) with
  | None => w
  | Some tok =>
      if negb (truthy (suggest (options (this w)))) then w
      else
        let bestCompletions :=
          _getFilteredCompletions (tok_text tok) completions false in
        let bestSnippets :=
          _getFilteredCompletions (tok_text tok) (snippets (this w)) true in
        let start := if JS.test_single_nonword (tok_text tok)
                     then tok_end tok else tok_start tok in
        on_editor
          (set_hint
             (Some {| hint_from := start; hint_to := tok_end tok;
                      hint_list := _getHintList bestSnippets
                                   ++ _getHintList bestCompletions |}))
          w
  end.

(** ** Set-up, option updates and teardown *)

Definition editor_on (type : string) (f : Listener) (w : World) : World :=
  on_editor (fun e => set_editor_handlers (handler_on type f (editor_handlers e)) e) w.

Definition editor_off (type : string) (f : option Listener) (w : World) : World :=
  on_editor (fun e => set_editor_handlers (handler_off type f (editor_handlers e)) e) w.

Definition connection_on (type : string) (f : Listener) (w : World) : World :=
  on_connection
    (fun c => set_connection_handlers (handler_on type f (connection_handlers c)) c) w.

Definition connection_off (type : string) (f : option Listener) (w : World) : World :=
  on_connection
    (fun c => set_connection_handlers (handler_off type f (connection_handlers c)) c) w.

Definition wrapper_addEventListener (type : string) (f : Listener) (w : World)
  : World :=
  on_dom (fun d => set_wrapper_handlers
                     (addEventListener type f (wrapper_handlers d)) d) w.

Definition wrapper_removeEventListener (type : string) (f : option Listener)
    (w : World) : World :=
  on_dom (fun d => set_wrapper_handlers
                     (removeEventListener type f (wrapper_handlers d)) d) w.

Definition document_addEventListener (type : string) (f : Listener) (w : World)
  : World :=
  on_dom (fun d => set_document_handlers
                     (addEventListener type f (document_handlers d)) d) w.

Definition document_removeEventListener (type : string) (f : option Listener)
    (w : World) : World :=
  on_dom (fun d => set_document_handlers
                     (removeEventListener type f (document_handlers d)) d) w.

Definition remember_editorListener (k : string) (f : Listener) (w : World) : World :=
  on_this (fun a => set_editorListeners (obj_set k f (editorListeners a)) a) w.

Definition remember_documentListener (k : string) (f : Listener) (w : World)
  : World :=
  on_this (fun a => set_documentListeners (obj_set k f (documentListeners a)) a) w.

Definition _addListeners (w : World) : World :=
  let changeListener :=
    changeListener
      (debounce_wait (debounceSuggestionsWhileTyping (options (this w)))) in
  let w := editor_on "change" changeListener w in
  let w := remember_editorListener "change" changeListener w in
  let w := on_this
             (set_connectionListeners
                [("hover", hoverHandler); ("completion", completionHandler);
                 ("signature", signatureHandler);
                 ("diagnostic", diagnosticHandler)]) w in
  let w := fold_left
             (fun w key =>
                match obj_get key (connectionListeners (this w)) with
                | Some f => connection_on key f w
                | None => w
                end)
             (obj_keys (connectionListeners (this w))) w in
  let w := editor_on "refresh" refreshListener w in
  let w := remember_editorListener "refresh" refreshListener w in
  let w := wrapper_addEventListener "mouseleave" mouseLeaveListener w in
  let w := remember_editorListener "mouseleave" mouseLeaveListener w in
  let w := editor_on "scroll" scrollListener w in
  let w := remember_editorListener "scroll" scrollListener w in
  let w := wrapper_addEventListener "mousemove" mouseOverListener w in
  let w := remember_editorListener "mouseover" mouseOverListener w in
  let w :=
    if truthy (enableContextMenu (options (this w))) then
      let w := wrapper_addEventListener "contextmenu" rightClickHandler w in
      remember_editorListener "contextmenu" rightClickHandler w
    else w in
  let w := document_addEventListener "click" clickOutsideListener w in
  let w := remember_documentListener "clickOutside" clickOutsideListener w in
  let w := editor_on "focus" clickInsideListener w in
  remember_documentListener "clickInside" clickInsideListener w.

Definition remove (w : World) : World :=
  let w := _removeSignatureWidget w in
  let w := _removeHover w in
  let w := _removeTooltip w in
  let w := _clearDiagnostics w in
  let w := on_dom
             (fun d => set_wrapper_nodes
                         (List.filter
                            (fun n => negb (has_class "CodeMirror-hints"
                                                      (node_classes n)))
                            (wrapper_nodes d)) d) w in
  let w := editor_off "change" (obj_get "change" (editorListeners (this w))) w in
  let w := editor_off "cursorActivity"
             (obj_get "cursorActivity" (editorListeners (this w))) w in
  let w := wrapper_removeEventListener "mousemove"
             (obj_get "mouseover" (editorListeners (this w))) w in
  let w :=
    if truthy (enableContextMenu (options (this w))) then
      wrapper_removeEventListener "contextmenu"
        (obj_get "contextmenu" (editorListeners (this w))) w
    else w in
  let w := fold_left
             (fun w key =>
                connection_off key (obj_get key (connectionListeners (this w))) w)
             (obj_keys (connectionListeners (this w))) w in
  fold_left
    (fun w key =>
       document_removeEventListener key
         (obj_get key (documentListeners (this w))) w)
    (obj_keys (documentListeners (this w))) w.

Section WithDefaults.

(** [getFilledDefaults] comes from [./types], which is not among the
    sources: a parameter of the two methods that call it. *)
Variable getFilledDefaults : ITextEditorOptions -> ITextEditorOptions.

(** The constructor of the base class [IEditorAdapter] is in [./types] too;
    the fields below are the initializers of this class. *)
Definition constructor (connection : Connection) (opts : ITextEditorOptions)
    (editor : Editor) (snippets : option (list CompletionItem)) (dom : Dom)
  : World :=
  let options := getFilledDefaults opts in
  _addListeners
    {| this := {| options := options;
                  snippets := snippets;
                  hoverMarker := None;
                  signatureWidget := None;
                  token := None;
                  markedDiagnostics := [];
                  diagnosticResults := [];
                  highlightMarkers := [];
                  hoverCharacter := None;
                  debouncedGetHover :=
                    debounce_wait (quickSuggestionsDelay options);
                  connectionListeners := [];
                  editorListeners := [];
                  documentListeners := [];
                  tooltip := None;
                  isShowingContextMenu := false |};
       editor := editor;
       dom := dom;
       connection := connection;
       timers := {| pending_hover := None; pending_change := false |} |}.

Definition updateOptions (opts : ITextEditorOptions) (w : World) : World :=
  let w := on_this (set_options (getFilledDefaults opts)) w in
  if negb (truthy (enableDiagnostics (options (this w))))
  then _clearDiagnostics w
  else w.

End WithDefaults.

Definition updateSnippets (newSnippets : option (list CompletionItem))
    (w : World) : World :=
  on_this (set_snippets newSnippets) w.

(** ** Event delivery

    The editor calls the handlers registered for a type in turn.
    [_addListeners] puts four listeners on the editor
    ([constructor_editor_handlers]); the others go to the wrapper element,
    the document and the connection. *)

Definition editor_listener (f : Listener) (w : World) : Res :=
  match f with
  | changeListener _ => Done (call_changeListener w)
  | refreshListener => Done (handleRefresh w)
  | scrollListener => Done (handleScrollLeave w)
  | clickInsideListener => Done (_handleClickInside w)
  | _ => Done w
  end.

Fixpoint run_handlers (run : Listener -> World -> Res)
    (hs : list (string * Listener)) (type : string) (w : World) : Res :=
  match hs with
  | [] => Done w
  | (t, f) :: hs' =>
      if String.eqb t type
      then and_then (run f w) (run_handlers run hs' type)
      else run_handlers run hs' type w
  end.

Definition editor_signal (type : string) (w : World) : Res :=
  run_handlers editor_listener (editor_handlers (editor w)) type w.

(** Modelled from the spec: the defaults of [getFilledDefaults] are in
    [./types], which is missing; the spec calls the merge "fill defaults
    then replace": an option the caller sets wins over the default. *)
Definition fill_defaults (defaults opts : ITextEditorOptions)
  : ITextEditorOptions :=
  let pick {A} (f : ITextEditorOptions -> option A) :=
    match f opts with Some v => Some v | None => f defaults end in
  {| enableHoverInfo := pick enableHoverInfo;
     enableDiagnostics := pick enableDiagnostics;
     enableSignatures := pick enableSignatures;
     enableGutterMarks := pick enableGutterMarks;
     enableContextMenu := pick enableContextMenu;
     suggest := pick suggest;
     debounceSuggestionsWhileTyping := pick debounceSuggestionsWhileTyping;
     quickSuggestionsDelay := pick quickSuggestionsDelay;
     diagnosticMarkClassName := pick diagnosticMarkClassName;
     contextMenuProvider := contextMenuProvider opts || contextMenuProvider defaults |}.

(** ** Auxiliary notions for the statements *)

(** The label of [item] starts with the typed word, up to case. *)
Definition label_matches (word : string) (item : CompletionItem) : bool :=
  JS.startsWith (JS.toLocaleLowerCase (label item)) word.

(** The marker [m] is none of [ids]. *)
Definition marker_kept (ids : list nat) (m : TextMarker) : bool :=
  negb (existsb (Nat.eqb (marker_id m)) ids).

(** The (start, end) pairs of the tracker's entries. *)
Definition tracker_keys (w : World) : list (Position * Position) :=
  map (fun r => (ti_start r, ti_end r)) (diagnosticResults (this w)).


Ltac destruct_world w :=
  let a := fresh "a" in let e := fresh "e" in let d := fresh "d" in
  let c := fresh "c" in let t := fresh "t" in
  destruct w as [a e d c t]; destruct a, e, d, c, t.

(** ** A small session, for the concrete cases *)

Definition example_view : EditorView :=
  {| coordsChar := fun x y => mkPosition (y / 16) (x / 8);
     getTokenAt := fun p =>
       if (line p =? 0) && (0 <=? ch p) && (ch p <? 5) then "hello" else "";
     charCoords := fun p => (8 * ch p, 16 * line p);
     getScrollInfo := (0, 0);
     defaultTextHeight := 16 |}.

(** An editor on the given lines with the cursor at [cursor], and nothing
    marked or registered yet. *)
Definition editor_showing (ls : list string) (cursor : Position) : Editor :=
  {| doc_lines := ls;
     cursor_end := cursor;
     view := example_view;
     marks := [];
     next_marker := 0;
     gutter := ∅;
     editor_handlers := [];
     scrolledIntoView := [];
     signalled := [];
     hint := None |}.

Definition example_editor : Editor :=
  editor_showing ["hello world"] (mkPosition 0 11).

Definition example_dom : Dom :=
  {| wrapper_nodes := []; next_node := 0;
     wrapper_handlers := []; document_handlers := [] |}.

Definition example_connection : Connection :=
  {| documentUri := "file:///a.ts";
     completionCharacters := ["."];
     signatureCharacters := ["("];
     definitionSupported := true;
     typeDefinitionSupported := false;
     referencesSupported := true;
     connection_handlers := [];
     calls := [] |}.

Definition example_defaults : ITextEditorOptions :=
  {| enableHoverInfo := Some true;
     enableDiagnostics := Some true;
     enableSignatures := Some true;
     enableGutterMarks := Some true;
     enableContextMenu := Some true;
     suggest := Some true;
     debounceSuggestionsWhileTyping := Some 200;
     quickSuggestionsDelay := Some 200;
     diagnosticMarkClassName := Some "CodeMirror-lsp-diagnostic";
     contextMenuProvider := false |}.

Definition no_options : ITextEditorOptions :=
  {| enableHoverInfo := None; enableDiagnostics := None;
     enableSignatures := None; enableGutterMarks := None;
     enableContextMenu := None; suggest := None;
     debounceSuggestionsWhileTyping := None; quickSuggestionsDelay := None;
     diagnosticMarkClassName := None; contextMenuProvider := false |}.

Definition example_world : World :=
  constructor (fill_defaults example_defaults) example_connection no_options
              example_editor None example_dom.

(** The adapter on a one-line document, the cursor at column [c]. *)
Definition session_typing (ln : string) (c : Z) : World :=
  constructor (fill_defaults example_defaults) example_connection no_options
              (editor_showing [ln] (mkPosition 0 c)) None example_dom.

Definition range_0_0_7 : Range :=
  mkRange (mkLspPosition 0 0) (mkLspPosition 0 7).

(** Two diagnostics over the same range with different messages. *)
Definition two_diagnostics : PublishDiagnosticsParams :=
  mkPublish "file:///a.ts"
    (Some [mkDiagnostic range_0_0_7 "first"; mkDiagnostic range_0_0_7 "second"]).

Definition diagnostics_off : ITextEditorOptions :=
  {| enableHoverInfo := None; enableDiagnostics := Some false;
     enableSignatures := None; enableGutterMarks := None;
     enableContextMenu := None; suggest := None;
     debounceSuggestionsWhileTyping := Some 5; quickSuggestionsDelay := Some 7;
     diagnosticMarkClassName := None; contextMenuProvider := false |}.


Definition other_document : Location :=
  mkLocation "file:///b.ts" range_0_0_7.

Definition same_document : Location :=
  mkLocation "file:///a.ts" range_0_0_7.

(** The stores when [handleDiagnostic] starts its loop. *)
Definition before_diagnostics (response : PublishDiagnosticsParams) (w : World)
  : World :=
  on_editor (fun e => set_signalled (signalled e ++ [diagnostics response]) e)
            (_clearDiagnostics w).

(** The example session with a hover marker on "hello" and a tooltip open,
    as a hover response with a range leaves them. *)
Definition hovering_world : World :=
  let (m, w) := markText (mkPosition 0 0) (mkPosition 0 5)
                         (Some "CodeMirror-lsp-hover") example_world in
  _showTooltip (mkElement "div" ["lsp-inner"] "hello: string" []) 0 0
               (on_this (set_hoverMarker (Some m)) w).

Definition outside_path : list DomElement :=
  [mkDomElement ["sidebar"] "DIV" false; mkDomElement [] "BODY" true].


(** A pointer move outside the editor element whose coordinates resolve to
    a position inside the token "hello". *)
Definition move_outside_on_token : MouseEvent :=
  mkMouseEvent 8 0 outside_path.


(** The marks [_highlightRanges] attaches to the document [ls] for
    [items], its markers numbered from [n]. *)
Definition highlight_marks (ls : list string) (n : nat) (items : list Range)
  : list TextMarker :=
  concat
    (zip_with
       (fun id item =>
          text_mark ls id (position_of (range_start item))
                    (position_of (range_end item))
                    (Some "CodeMirror-lsp-highlight"))
       (seq n (length items)) items).

(** * The rest of the adapter *)

(** The explicit filter text of [item] starts with [word], up to case. *)
Definition filter_text_matches (word : string) (item : CompletionItem) : bool :=
  truthy_string (filterText item)
  && JS.startsWith (JS.toLowerCase (default EmptyString (filterText item))) word.

(** The label of [item] is [word] up to case, and no filter text speaks
    for the item. *)
Definition only_whole_word (word : string) (item : CompletionItem) : bool :=
  String.eqb (JS.toLocaleLowerCase (label item)) word
  && negb (filter_text_matches word item).

(** The range of a diagnostic in editor coordinates, and the range of a
    tracker entry. *)
Definition diagnostic_key (d : Diagnostic) : Position * Position :=
  (position_of (range_start (diag_range d)),
   position_of (range_end (diag_range d))).

Definition entry_key (r : ITokenInfo) : Position * Position :=
  (ti_start r, ti_end r).

Definition key_eqb (k1 k2 : Position * Position) : bool :=
  position_eqb (fst k1) (fst k2) && position_eqb (snd k1) (snd k2).

(** The messages of the diagnostics of [ds] over the range [k], in order. *)
Definition messages_for (k : Position * Position) (ds : list Diagnostic)
  : list string :=
  map message (List.filter (fun d => key_eqb (diagnostic_key d) k) ds).

(** The messages of the diagnostics of [ds] whose start line, clipped to
    the document [ls], is [l]. *)
Definition messages_on_line (ls : list string) (l : Z) (ds : list Diagnostic)
  : list string :=
  map message
      (List.filter
         (fun d => clipLine ls (lsp_line (range_start (diag_range d))) =? l) ds).

(** The marks [handleDiagnostic] attaches to the document [ls] for [ds],
    its markers numbered from [n]. *)
Definition diagnostic_marks (ls : list string) (n : nat) (cls : option string)
    (ds : list Diagnostic) : list TextMarker :=
  concat
    (zip_with
       (fun id d => text_mark ls id (fst (diagnostic_key d)) (snd (diagnostic_key d)) cls)
       (seq n (length ds)) ds).

(** What the tracker holds after the diagnostics [p]: entries with
    pairwise different ranges, each with the messages of the diagnostics of
    [p] over its range, and an entry for every diagnostic of [p]. *)
Definition tracks (l : list ITokenInfo) (p : list Diagnostic) : Prop :=
  NoDup (map entry_key l)
  /\ (forall j r, l !! j = Some r ->
                  ti_text r = messages_for (entry_key r) p /\ ti_text r <> [])
  /\ (forall d, In d p -> exists r, In r l /\ entry_key r = diagnostic_key d).

(** ** Hover *)

(** [MarkedString]: a string, or a code block with its language. *)
Inductive MarkedString :=
  | MarkedText (s : string)
  | MarkedCode (language value : string).

(** An element of a [contents] array: the code looks for [MarkupContent],
    [null], an object with a [value], or a string. *)
Inductive HoverItem :=
  | ItemMarkup (kind value : string)
  | ItemMarked (m : MarkedString)
  | ItemNull.

(** [Hover.contents]: an object with [kind] and [value], a [MarkedString]
    or an array. *)
Inductive HoverContents :=
  | ContentsMarkup (kind value : string)
  | ContentsMarked (m : MarkedString)
  | ContentsArray (items : list HoverItem).

(** [lsProtocol.Hover]; a field is [None] when the response lacks it. *)
Record Hover := mkHover {
  contents : option HoverContents;
  hover_range : option Range
}.

(** [MarkupKind.is]. *)
Definition is_MarkupKind (kind : string) : bool :=
  String.eqb kind "plaintext" || String.eqb kind "markdown".

(** [!response.contents || (Array.isArray(response.contents) &&
    response.contents.length === 0)]: the empty string is falsy too. *)
Definition no_contents (c : option HoverContents) : bool :=
  match c with
  | None => true
  | Some (ContentsMarked (MarkedText EmptyString)) => true
  | Some (ContentsArray []) => true
  | Some _ => false
  end.

(** The nodes an [innerHTML] assignment of [markup] gives, unparsed. *)
Definition html (markup : string) : Element := mkElement "#html" [] markup [].

(** [TooltipData]; [htmlElement] is set together with [hasData]. *)
Record TooltipData := mkTooltipData {
  hasData : bool;
  data_x : Z;
  data_y : Z;
  htmlElement : option Element
}.

Definition join_strings (parts : list string) : string :=
  fold_right String.append EmptyString parts.

Definition quote : string := String (ascii_of_nat 34) EmptyString.

(** The list of a diagnostic entry's messages, as [handleHover] builds it. *)
Definition diagnostic_list (diagnostic : ITokenInfo) : Element :=
  mkElement "ul" ["lsp-inner"] ""
    [html (join_strings
             (map (fun text =>
                     "<li class=" +:+ quote +:+ "lsp-inner-li" +:+ quote +:+ ">"
                     +:+ text +:+ "</li>")
                  (ti_text diagnostic)))].

Definition hover_on_diagnostic (position : Position) (diagnostic : ITokenInfo)
  : bool :=
  ((line position =? line (ti_start diagnostic))
   || (line position =? line (ti_end diagnostic)))
  && ((ch (ti_start diagnostic) <=? ch position)
      && (ch position <=? ch (ti_end diagnostic))).

(** One round of the loop over [diagnosticResults]. *)
Definition hover_diagnostic (w : World) (position : Position)
    (tooltipData : TooltipData) (diagnostic : ITokenInfo) : TooltipData :=
  if hover_on_diagnostic position diagnostic then
    let coords := charCoords (view (editor w)) (ti_start diagnostic) in
    let scrollCords := getScrollInfo (view (editor w)) in
    {| hasData := true;
       data_x := fst coords - fst scrollCords;
       data_y := snd coords - snd scrollCords;
       htmlElement := Some (diagnostic_list diagnostic) |}
  else tooltipData.

Definition _showTooltipWithData (tooltipData : TooltipData) (w : World) : World :=
  match hasData tooltipData, htmlElement tooltipData with
  | true, Some el => _showTooltip el (data_x tooltipData) (data_y tooltipData) w
  | _, _ => w
  end.

(** [tooltipText] and [isMarkdown] as the chain of tests on the contents
    leaves them; [None] for the text is [undefined], and the outer [None]
    is the early return on a [null] first item. *)
Definition hover_text (c : HoverContents) : option (option string * bool) :=
  match c with
  | ContentsMarkup kind value =>
      if is_MarkupKind kind
      then Some (Some value, String.eqb kind "markdown")
      else Some (None, false)
  | ContentsArray items =>
      match items with
      | [] => Some (None, false)
      | ItemMarkup _ value :: _ => Some (Some value, false)
      | ItemNull :: _ => None
      | ItemMarked (MarkedCode _ value) :: _ => Some (Some value, false)
      | ItemMarked (MarkedText s) :: _ => Some (Some s, false)
      end
  | ContentsMarked (MarkedText s) => Some (Some s, false)
  | ContentsMarked (MarkedCode _ _) => Some (None, false)
  end.

Section WithMarked.

(** [marked.parse] of the markdown library. *)
Variable marked_parse : string -> string.

(** The element with the hover text; an [innerText] assignment of
    [undefined] writes the string "undefined".  The click listener that
    signals [lsp/open] for links of the markdown is left out. *)
Definition hover_element (tooltipText : option string) (isMarkdown : bool)
  : Element :=
  if isMarkdown then
    mkElement "div" ["lsp-inner"; "lsp-markdown"] ""
      [html (marked_parse (default "undefined" tooltipText))]
  else mkElement "div" ["lsp-inner"] (default "undefined" tooltipText) [].

Definition handleHover (response : option Hover) (position : Position)
    (w : World) : Res :=
  let w := _removeHover w in
  let w := _removeTooltip w in
  let tooltipData :=
    fold_left (hover_diagnostic w position) (diagnosticResults (this w))
      {| hasData := false; data_x := 0; data_y := 0; htmlElement := None |} in
  match response with
  | None => Done (_showTooltipWithData tooltipData w)
  | Some response =>
      if negb (truthy (enableHoverInfo (options (this w))))
         || no_contents (contents response)
      then Done (_showTooltipWithData tooltipData w)
      else
        let marked :=
          match hover_range response with
          | Some r =>
              let start := position_of (range_start r) in
              let end_ := position_of (range_end r) in
              let (m, w) := markText start end_ (Some "CodeMirror-lsp-hover") w in
              (Some start, Some end_, on_this (set_hoverMarker (Some m)) w)
          | None => (hoverCharacter (this w), hoverCharacter (this w), w)
          end in
        let '(start, end_, w) := marked in
        match start, end_ with
        | Some start, Some end_ =>
            if (ch position <? ch start) || (ch end_ <? ch position)
               || negb (line position =? line start)
               || negb (line position =? line end_)
            then Done (_showTooltipWithData tooltipData w)
            else
              match hover_text (default (ContentsArray []) (contents response)) with
              | None => Done (_showTooltipWithData tooltipData w)
              | Some (tooltipText, isMarkdown) =>
                  let signatureElement := hover_element tooltipText isMarkdown in
                  let coords := charCoords (view (editor w)) start in
                  let scrollCords := getScrollInfo (view (editor w)) in
                  let left := fst coords - fst scrollCords in
                  let top := snd coords - snd scrollCords in
                  let children :=
                    match hasData tooltipData, htmlElement tooltipData with
                    | true, Some el =>
                        if (data_x tooltipData =? left) && (data_y tooltipData =? top)
                        then [el; signatureElement]
                        else [signatureElement]
                    | _, _ => [signatureElement]
                    end in
                  Done (_showTooltip (mkElement "div" [] "" children) left top w)
              end
        | _, _ => Raise (TypeError "Cannot read properties of undefined (ch)") w
        end
  end.

End WithMarked.

Record DocumentHighlight := mkDocumentHighlight {
  dh_range : Range;
  dh_kind : option Z
}.

(** [handleHighlight]; [items] is [None] for [null] or [undefined]. *)
Definition handleHighlight (items : option (list DocumentHighlight)) (w : World)
  : World :=
  _highlightRanges (map dh_range (default [] items)) w.

(** Every mark of the editor was made by [markText] before now. *)
Definition marks_numbered (w : World) : Prop :=
  Forall (fun m => (marker_id m < next_marker (editor w))%nat) (marks (editor w)).

(** ** The context menu *)

(** The requests behind the entries of the context menu. *)
Inductive GoToRequest :=
  | getDefinition (p : Position)
  | getTypeDefinition (p : Position)
  | getReferences (p : Position).

(** The entries, label and action, for the capabilities of the server; the
    provider branch and the built-in branch test the same capabilities in
    the same order. *)
Definition menu_features (c : Connection) (docPosition : Position)
  : list (string * GoToRequest) :=
  (if definitionSupported c
   then [("Go to Definition", getDefinition docPosition)] else [])
  ++ (if typeDefinitionSupported c
      then [("Go to Type Definition", getTypeDefinition docPosition)] else [])
  ++ (if referencesSupported c
      then [("Find all References", getReferences docPosition)] else []).

Definition menu_element (features : list (string * GoToRequest)) : Element :=
  mkElement "div" ["CodeMirror-lsp-context"] ""
    (map (fun f => mkElement "div" [] (fst f) []) features).

(** What a right click leaves besides the stores: whether the event's
    default was prevented, the entries handed to the provider of the
    options, and the actions behind the entries of the built-in menu. *)
Record RightClick := mkRightClick {
  after_click : Res;
  defaultPrevented : bool;
  provided : option (list (string * GoToRequest));
  menu_actions : list GoToRequest
}.

Definition click_ignored (r : Res) : RightClick :=
  {| after_click := r; defaultPrevented := false; provided := None;
     menu_actions := [] |}.

(** [ev.x] and [ev.y] are [clientX] and [clientY]. *)
Definition _handleRightClick (ev : MouseEvent) (w : World) : RightClick :=
  match _isEventInsideVisible ev with
  | inl e => click_ignored (Raise e w)
  | inr false => click_ignored (Done w)
  | inr true =>
      if negb (_isEventOnCharacter ev w) then click_ignored (Done w)
      else if negb (definitionSupported (connection w))
              && negb (typeDefinitionSupported (connection w))
              && negb (referencesSupported (connection w))
      then click_ignored (Done w)
      else
        let docPosition :=
          coordsChar (view (editor w)) (clientX ev) (clientY ev) in
        let features := menu_features (connection w) docPosition in
        if contextMenuProvider (options (this w)) then
          {| after_click := Done w; defaultPrevented := true;
             provided := Some features; menu_actions := [] |}
        else
          {| after_click :=
               Done (_showTooltip (menu_element features)
                                  (clientX ev - 4) (clientY ev + 8) w);
             defaultPrevented := true;
             provided := None;
             menu_actions := map snd features |}
  end.

(** ** Applying a hint *)

Module JSText.

(** [s.includes(pat)]. *)
Fixpoint includes (s pat : string) : bool :=
  String.prefix pat s
  || match s with
     | EmptyString => false
     | String _ s' => includes s' pat
     end.

(** [s.lastIndexOf(pat)], scanning with the column [i] and the last match
    [found] so far. *)
Fixpoint lastIndexOf_from (s pat : string) (i found : Z) : Z :=
  let found := if String.prefix pat s then i else found in
  match s with
  | EmptyString => found
  | String _ s' => lastIndexOf_from s' pat (i + 1) found
  end.

Definition lastIndexOf (s pat : string) : Z := lastIndexOf_from s pat 0 (-1).

(** [s.replace(/\$0/g, '')]: one pass from the left. *)
Fixpoint remove_placeholders (s : string) : string :=
  match s with
  | EmptyString => EmptyString
  | String a s' =>
      match s' with
      | String b s'' =>
          if Ascii.eqb a "$" && Ascii.eqb b "0" then remove_placeholders s''
          else String a (remove_placeholders s')
      | EmptyString => String a EmptyString
      end
  end.

End JSText.

(** The completion handed to a hint's [hint] function: a string, or an
    object with its text and perhaps a range of its own. *)
Inductive Completion :=
  | CompletionString (s : string)
  | CompletionObject (text : string) (from to : option Position).

Definition _getText (completion : Completion) : string :=
  match completion with
  | CompletionString s => s
  | CompletionObject text _ _ => text
  end.

Definition completion_from (completion : Completion) : option Position :=
  match completion with
  | CompletionString _ => None
  | CompletionObject _ from _ => from
  end.

Definition completion_to (completion : Completion) : option Position :=
  match completion with
  | CompletionString _ => None
  | CompletionObject _ _ to => to
  end.

(** What the [hint] function asks of the editor. *)
Inductive EditorCall :=
  | replaceRange (text : string) (from to : Position) (origin : string)
  | setCursor (line ch : Z).

(** One round of the loop over the lines of the text: the cursor found so
    far, and the line's index. *)
Definition placeholder_step (line0 : Z) (cursor : Z * Z) (index : nat)
    (str : string) : Z * Z :=
  let pos := JSText.lastIndexOf str "$0" in
  if -1 <? pos then (line0 + Z.of_nat index, pos) else cursor.

Fixpoint placeholder_loop (line0 : Z) (cursor : Z * Z) (index : nat)
    (textArr : list string) : Z * Z :=
  match textArr with
  | [] => cursor
  | str :: rest =>
      placeholder_loop line0 (placeholder_step line0 cursor index str)
                       (S index) rest
  end.

(** The [hint] function of an entry of [_getHintList], for the hint data
    range [data_from]..[data_to]. *)
Definition apply_hint (data_from data_to : Position) (completion : Completion)
  : list EditorCall :=
  let text := _getText completion in
  let from := default data_from (completion_from completion) in
  let to := default data_to (completion_to completion) in
  replaceRange (JSText.remove_placeholders text) from to "complete"
  :: (if JSText.includes text "$0" then
        let cursor := placeholder_loop (line from) (line from, ch from) 0
                                       (JS.split_lines text) in
        [setCursor (fst cursor) (snd cursor)]
      else []).

(** The tracker entries the position lies on, for [handleHover]. *)
Definition diagnostics_under (position : Position) (w : World) : list ITokenInfo :=
  List.filter (hover_on_diagnostic position) (diagnosticResults (this w)).

(** The stores with the tooltip of the diagnostic entry [d]. *)
Definition show_diagnostic (d : ITokenInfo) (w : World) : World :=
  let coords := charCoords (view (editor w)) (ti_start d) in
  let scrollCords := getScrollInfo (view (editor w)) in
  _showTooltip (diagnostic_list d)
               (fst coords - fst scrollCords) (snd coords - snd scrollCords) w.

(** The stores with the tooltip of the last entry under the position, if
    there is one. *)
Definition show_diagnostics_under (position : Position) (w : World) : World :=
  match last (diagnostics_under position w) with
  | Some d => show_diagnostic d w
  | None => w
  end.

(** The stores after [handleHover] marked the range of the response. *)
Definition mark_hover (r : Range) (w : World) : World :=
  let (m, w) := markText (position_of (range_start r)) (position_of (range_end r))
                         (Some "CodeMirror-lsp-hover") w in
  on_this (set_hoverMarker (Some m)) w.

(** No code unit of [s] is [c]. *)
Fixpoint lacks (c : ascii) (s : string) : bool :=
  match s with
  | EmptyString => true
  | String a s' => negb (Ascii.eqb a c) && lacks c s'
  end.

(** ** Runs of the adapter *)

(** The calls an adapter receives: its public methods, its listeners and
    the expiry of its two debounce timers. *)
Inductive Op :=
  | call_handleDiagnostic (response : PublishDiagnosticsParams)
  | call_handleSignature (result : option SignatureHelp)
  | call_handleGoTo (location : GoToPayload)
  | call_handleHover (response : option Hover) (position : Position)
  | call_handleHighlight (items : option (list DocumentHighlight))
  | call_handleCompletion (completions : option (list CompletionItem))
  | call_handleChange
  | call_handleMouseOver (ev : MouseEvent)
  | call_handleMouseLeave
  | call_handleRefresh
  | call_handleScrollLeave
  | call_handleClickInside
  | call_handleClickOutside (ev : MouseEvent)
  | call_handleRightClick (ev : MouseEvent)
  | call_updateOptions (opts : ITextEditorOptions)
  | call_updateSnippets (newSnippets : option (list CompletionItem))
  | hover_timer
  | change_timer
  | call_remove.

Section Runs.

Variable getFilledDefaults : ITextEditorOptions -> ITextEditorOptions.
Variable marked_parse : string -> string.

(** The stores after a call, whether it returned or threw. *)
Definition run_op (w : World) (op : Op) : World :=
  match op with
  | call_handleDiagnostic response => world_of (handleDiagnostic response w)
  | call_handleSignature result => world_of (handleSignature result w)
  | call_handleGoTo location => world_of (handleGoTo location w)
  | call_handleHover response position =>
      world_of (handleHover marked_parse response position w)
  | call_handleHighlight items => handleHighlight items w
  | call_handleCompletion completions => handleCompletion completions w
  | call_handleChange => world_of (handleChange w)
  | call_handleMouseOver ev => world_of (handleMouseOver ev w)
  | call_handleMouseLeave => handleMouseLeave w
  | call_handleRefresh => handleRefresh w
  | call_handleScrollLeave => handleScrollLeave w
  | call_handleClickInside => _handleClickInside w
  | call_handleClickOutside ev => _handleClickOutside ev w
  | call_handleRightClick ev => world_of (after_click (_handleRightClick ev w))
  | call_updateOptions opts => updateOptions getFilledDefaults opts w
  | call_updateSnippets newSnippets => updateSnippets newSnippets w
  | hover_timer => hover_timer_expires w
  | change_timer => world_of (change_timer_expires w)
  | call_remove => remove w
  end.

Definition run (w : World) (ops : list Op) : World := fold_left run_op ops w.

End Runs.

(** The tooltip nodes below the wrapper element. *)
Definition tooltip_nodes (w : World) : list Node :=
  List.filter (fun n => has_class "CodeMirror-lsp-tooltip" (node_classes n))
              (wrapper_nodes (dom w)).

(** At most one tooltip is mounted: when the adapter takes a tooltip to be
    showing, its tooltip element is the one tooltip node below the wrapper;
    otherwise there is none. *)
Definition overlay_ok (w : World) : Prop :=
  if isShowingContextMenu (this w)
  then exists t, tooltip (this w) = Some t /\ map node_id (tooltip_nodes w) = [t]
  else tooltip_nodes w = [].

(** What [overlay_ok] reads. *)
Definition overlay_of (w : World) : option nat * bool * list Node :=
  (tooltip (this w), isShowingContextMenu (this w), wrapper_nodes (dom w)).

(** What the debounced functions read when their timers expire. *)
Definition requests_of (w : World) : Timers * list Call * ITextEditorOptions :=
  (timers w, calls (connection w), options (this w)).

Definition inside_path : list DomElement :=
  [mkDomElement ["CodeMirror-line"] "PRE" false;
   mkDomElement ["CodeMirror"] "DIV" false;
   mkDomElement [] "BODY" true].

(** A pointer move inside the editor element over the token "hello". *)
Definition move_inside_on_token : MouseEvent := mkMouseEvent 8 0 inside_path.

(** * Properties *)

(** ** The completion ranker *)

Lemma split_nonword_from_nonempty in_run cur s :
  JS.split_nonword_from in_run cur s <> [].
Proof.
  revert in_run cur. induction s as [|c s IH]; intros in_run cur; cbn.
  - discriminate.
  - destruct (JS.is_nonword c); [destruct in_run|]; try apply IH. discriminate.
Qed.

Lemma test_nonword_app s c :
  JS.test_nonword (s +:+ String c EmptyString)
  = JS.test_nonword s || JS.is_nonword c.
Proof.
  induction s as [|d s IH]; unfold String.append; fold String.append; cbn.
  - now destruct (JS.is_nonword c).
  - rewrite IH. now destruct (JS.is_nonword d), (JS.test_nonword s).
Qed.

(** The first piece of a split on non-word runs has word characters only. *)
Lemma first_piece_word in_run cur s :
  JS.test_nonword cur = false ->
  JS.test_nonword (hd EmptyString (JS.split_nonword_from in_run cur s)) = false.
Proof.
  revert in_run cur. induction s as [|c s IH]; intros in_run cur Hcur; cbn.
  - exact Hcur.
  - destruct (JS.is_nonword c) eqn:Hc.
    + destruct in_run; [now apply IH | exact Hcur].
    + apply IH. now rewrite test_nonword_app, Hcur, Hc.
Qed.

Lemma firstWord_word triggerWord :
  JS.test_nonword (firstWord_of triggerWord) = false.
Proof. now apply first_piece_word. Qed.

Lemma firstWord_leading_nonword c rest :
  JS.is_nonword c = true -> firstWord_of (String c rest) = EmptyString.
Proof. intros Hc. unfold firstWord_of, JS.split_nonword. cbn. now rewrite Hc. Qed.

Lemma completion_compare_cases word a b :
  completion_compare word a b
  = if label_matches word a
    then (if label_matches word b then 0 else -2)
    else (if label_matches word b then 2 else 0).
Proof.
  unfold completion_compare, label_matches.
  destruct (JS.startsWith _ word), (JS.startsWith _ word); reflexivity.
Qed.

Lemma insert_matching word x l :
  label_matches word x = true ->
  JS.insert_by (completion_compare word) x l = x :: l.
Proof.
  intros Hx. destruct l as [|y l]; [reflexivity|]. cbn.
  rewrite completion_compare_cases, Hx. now destruct (label_matches word y).
Qed.

Lemma insert_non_matching word x l1 l2 :
  label_matches word x = false ->
  Forall (fun i => label_matches word i = true) l1 ->
  Forall (fun i => label_matches word i = false) l2 ->
  JS.insert_by (completion_compare word) x (l1 ++ l2) = l1 ++ x :: l2.
Proof.
  intros Hx H1 H2. induction H1 as [|y l1 Hy H1 IH]; cbn.
  - destruct H2 as [|z l2 Hz H2]; [reflexivity|]. cbn.
    now rewrite completion_compare_cases, Hx, Hz.
  - now rewrite completion_compare_cases, Hx, Hy, IH.
Qed.

(** The comparator only separates matching labels from the others, so the
    stable sort is a stable partition. *)
Lemma sort_is_partition word l :
  JS.sort (completion_compare word) l
  = List.filter (label_matches word) l
    ++ List.filter (fun i => negb (label_matches word i)) l.
Proof.
  induction l as [|x l IH]; [reflexivity|]. cbn. rewrite IH.
  destruct (label_matches word x) eqn:Hx; cbn.
  - now apply insert_matching.
  - apply insert_non_matching; [exact Hx | |].
    + apply List.Forall_forall. intros i Hi. now apply List.filter_In in Hi.
    + apply List.Forall_forall. intros i Hi. apply List.filter_In in Hi.
      now apply negb_true_iff.
Qed.

Lemma filter_all {A} (p : A -> bool) (l : list A) :
  (forall x, In x l -> p x = true) -> List.filter p l = l.
Proof.
  induction l as [|x l IH]; intros H; [reflexivity|]. cbn.
  rewrite (H x (or_introl eq_refl)), IH; [reflexivity|].
  intros y Hy. apply H. now right.
Qed.

Lemma filter_none {A} (p : A -> bool) (l : list A) :
  (forall x, In x l -> p x = false) -> List.filter p l = [].
Proof.
  induction l as [|x l IH]; intros H; [reflexivity|]. cbn.
  rewrite (H x (or_introl eq_refl)). apply IH.
  intros y Hy. apply H. now right.
Qed.

Lemma filtered_unfold triggerWord items canMatchWholeWord :
  _getFilteredCompletions triggerWord (Some items) canMatchWholeWord
  = JS.sort (completion_compare (JS.toLowerCase (firstWord_of triggerWord)))
      (List.filter
         (completion_filter (JS.toLowerCase (firstWord_of triggerWord))
                            canMatchWholeWord) items).
Proof. unfold _getFilteredCompletions. now rewrite firstWord_word. Qed.

Lemma startsWith_empty s : JS.startsWith s EmptyString = true.
Proof. now destruct s. Qed.

(** C7, the claim as stated fails: a server candidate labelled exactly
    "le" whose filter text starts with the typed word is kept. *)
Lemma filtered_completions_keep_le_with_filter_text :
  In {| label := "le"; filterText := Some "le"; insertText := None; kind := None |}
     (_getFilteredCompletions "le"
        (Some [item_of_label "length";
               {| label := "le"; filterText := Some "le";
                  insertText := None; kind := None |};
               item_of_label "left"]) false).
Proof. vm_compute. right. now left. Qed.

Lemma In_filtered triggerWord items canMatchWholeWord item :
  In item (_getFilteredCompletions triggerWord (Some items) canMatchWholeWord)
  <-> In item items
      /\ completion_filter (JS.toLowerCase (firstWord_of triggerWord))
                           canMatchWholeWord item = true.
Proof.
  rewrite filtered_unfold, sort_is_partition, List.in_app_iff, !List.filter_In.
  destruct (label_matches _ item); cbn; tauto.
Qed.

(** C7 as amended: for the prefix "le" and the labels length, left, map
    with whole-word matching off, the ranker returns the items length and
    left; for every prefix and candidate list the result is a run of items
    whose label starts with the typed word followed by a run of items whose
    label does not; and a server candidate whose label equals the typed
    word up to case is in the result exactly when it has a filter text
    that starts with the typed word up to case: without one it is
    excluded. *)
Theorem filtered_completions_prefix_le :
  _getFilteredCompletions "le"
    (Some (map item_of_label ["length"; "left"; "map"])) false
  = map item_of_label ["length"; "left"]
  /\ (forall triggerWord items canMatchWholeWord,
        let word := JS.toLowerCase (firstWord_of triggerWord) in
        exists matching others,
          _getFilteredCompletions triggerWord (Some items) canMatchWholeWord
          = matching ++ others
          /\ Forall (fun i => label_matches word i = true) matching
          /\ Forall (fun i => label_matches word i = false) others)
  /\ (forall triggerWord items item,
        let word := JS.toLowerCase (firstWord_of triggerWord) in
        JS.toLocaleLowerCase (label item) = word ->
        (In item (_getFilteredCompletions triggerWord (Some items) false)
         <-> In item items
             /\ truthy_string (filterText item) = true
             /\ JS.startsWith
                  (JS.toLowerCase (default EmptyString (filterText item))) word
                = true)
        /\ (truthy_string (filterText item) = false ->
            ~ In item (_getFilteredCompletions triggerWord (Some items) false))).
Proof.
  split; [vm_compute; reflexivity|]. split.
  - intros triggerWord items canMatchWholeWord word.
    rewrite filtered_unfold, sort_is_partition. fold word.
    eexists _, _. split; [reflexivity|]. split.
    + apply List.Forall_forall. intros i Hi. now apply List.filter_In in Hi.
    + apply List.Forall_forall. intros i Hi. apply List.filter_In in Hi.
      now apply negb_true_iff.
  - intros triggerWord items item word Hlbl.
    assert (completion_filter word false item
            = truthy_string (filterText item)
              && JS.startsWith
                   (JS.toLowerCase (default EmptyString (filterText item))) word)
      as Hkeep.
    { unfold completion_filter. rewrite Hlbl, String.eqb_refl. cbn [negb andb].
      now destruct (_ && _). }
    split.
    + rewrite In_filtered. fold word. rewrite Hkeep, andb_true_iff. tauto.
    + intros Hft Hin. apply In_filtered in Hin. fold word in Hin.
      rewrite Hkeep, Hft in Hin. now destruct Hin.
Qed.

Lemma filtered_completions_prefix_le_witness :
  ~ In (item_of_label "LE")
       (_getFilteredCompletions "le"
          (Some (map item_of_label ["length"; "LE"; "left"])) false).
Proof.
  apply (proj2 (proj2 (proj2 filtered_completions_prefix_le)
                  "le" (map item_of_label ["length"; "LE"; "left"])
                  (item_of_label "LE") eq_refl));
    reflexivity.
Defined.

(** C8, the claim as stated fails: for the prefix "." the ranker returns
    both candidates. *)
Lemma filtered_completions_dot_not_empty :
  _getFilteredCompletions "." (Some (map item_of_label ["length"; "map"])) false
  <> [].
Proof. vm_compute. discriminate. Qed.

(** C8 as amended: the first word of a prefix never has a non-word
    character, so it never looks like punctuation; for a prefix that begins
    with a non-word character the first word is empty and the ranker keeps,
    in their order, every candidate with a filter text, and the others too
    unless whole-word matching is off and their label is empty; with no
    candidate list it returns the empty list. *)
Theorem filtered_completions_punctuation :
  (forall triggerWord, JS.test_nonword (firstWord_of triggerWord) = false)
  /\ (forall c rest items canMatchWholeWord,
        JS.is_nonword c = true ->
        _getFilteredCompletions (String c rest) (Some items) canMatchWholeWord
        = List.filter
            (fun item => truthy_string (filterText item)
                         || canMatchWholeWord
                         || negb (String.eqb (label item) EmptyString))
            items)
  /\ (forall triggerWord canMatchWholeWord,
        _getFilteredCompletions triggerWord None canMatchWholeWord = []).
Proof.
  split; [exact firstWord_word|]. split.
  2: { intros triggerWord canMatchWholeWord. unfold _getFilteredCompletions.
       now destruct (JS.test_nonword _). }
  intros c rest items canMatchWholeWord Hc.
  rewrite filtered_unfold, sort_is_partition, firstWord_leading_nonword by exact Hc.
  cbn [JS.toLowerCase].
  rewrite (filter_all (label_matches EmptyString)),
          (filter_none (fun i => negb (label_matches EmptyString i))).
  - rewrite List.app_nil_r. apply List.filter_ext. intros item.
    unfold completion_filter. rewrite !startsWith_empty.
    destruct (truthy_string (filterText item)); [reflexivity|]. cbn.
    destruct canMatchWholeWord; cbn; [reflexivity|].
    destruct (label item); reflexivity.
  - intros i _. unfold label_matches. now rewrite startsWith_empty.
  - intros i _. unfold label_matches. apply startsWith_empty.
Qed.

Lemma filtered_completions_punctuation_witness :
  _getFilteredCompletions "(" (Some (map item_of_label ["log"; ""])) false
  = [item_of_label "log"].
Proof.
  rewrite (proj1 (proj2 filtered_completions_punctuation)); reflexivity.
Defined.

(** ** The token extractor *)

Lemma indexOf_from_found a v i :
  In v a -> 0 <= i -> (-1 <? JS.indexOf_from a v i) = true.
Proof.
  revert i. induction a as [|x a IH]; intros i Hin Hi; [easy|]. cbn.
  destruct (String.eqb_spec x v) as [->|Hne].
  - apply Z.ltb_lt. lia.
  - destruct Hin as [->|Hin]; [easy|]. apply IH; [exact Hin | lia].
Qed.

(** When the character before the cursor is a split character, the token is
    that character, from [ch - 1] to [ch]. *)
Lemma token_split_character code location splitCharacters ln c :
  JS.nth_value (JS.split_lines code) (line location) = Some ln ->
  JS.char_at ln (ch location - 1) = Some c ->
  In c splitCharacters ->
  _getTokenEndingAtPosition code location splitCharacters
  = inr (mkToken c (mkPosition (line location) (ch location - 1)) location).
Proof.
  intros Hln Hc Hin. unfold _getTokenEndingAtPosition. rewrite Hln, Hc. cbn.
  now rewrite indexOf_from_found.
Qed.

(** C4: on the line "ab cd ef" with the cursor after "cd" the extractor
    returns the text "cd ef", from column 3 to column 5: the text runs past
    the cursor, because [substr] is given the cursor column as a length.
    The two examples of the specification do hold. *)
Theorem token_text_runs_past_cursor :
  _getTokenEndingAtPosition "ab cd ef" (mkPosition 0 5) ["."]
  = inr (mkToken "cd ef" (mkPosition 0 3) (mkPosition 0 5))
  /\ _getTokenEndingAtPosition "a.b" (mkPosition 0 3) ["."]
     = inr (mkToken "b" (mkPosition 0 2) (mkPosition 0 3))
  /\ _getTokenEndingAtPosition "a.b" (mkPosition 0 2) ["."]
     = inr (mkToken "." (mkPosition 0 1) (mkPosition 0 2)).
Proof. repeat split; reflexivity. Qed.

(** The failing input reaches the extractor through [handleChange]: the
    cursor is after the "d" just typed in "ab cd ef". *)
Example typing_inside_a_line :
  exists w,
    handleChange (session_typing "ab cd ef" 5) = Done w
    /\ token (this w)
       = Some (mkToken "cd ef" (mkPosition 0 3) (mkPosition 0 5))
    /\ calls (connection w)
       = [sendChange; getCompletion (mkPosition 0 5) None (Some "") 1].
Proof. eexists. vm_compute. repeat split. Qed.

(** The test 'displays completion results' of the repository: after "a."
    is typed the token is the trigger character, and a completion response
    with the labels length and map shows both. *)
Example completion_after_trigger_character :
  exists w,
    handleChange (session_typing "a." 2) = Done w
    /\ token (this w) = Some (mkToken "." (mkPosition 0 1) (mkPosition 0 2))
    /\ calls (connection w)
       = [sendChange;
          getCompletion (mkPosition 0 2)
            (Some (mkToken "." (mkPosition 0 1) (mkPosition 0 2))) (Some ".") 2]
    /\ hint (editor (handleCompletion
                       (Some (map item_of_label ["length"; "map"])) w))
       = Some (mkHintRequest (mkPosition 0 2) (mkPosition 0 2)
                 [mkHint "length" "length"; mkHint "map" "map"]).
Proof. eexists. vm_compute. repeat split. Qed.

(** ** Frame facts about the stores *)

Lemma filter_filter {A} (p q : A -> bool) (l : list A) :
  List.filter q (List.filter p l) = List.filter (fun x => p x && q x) l.
Proof.
  induction l as [|x l IH]; [reflexivity|]. cbn.
  destruct (p x); cbn; [destruct (q x)|]; now rewrite IH.
Qed.

Lemma clear_markers_eq ids w :
  clear_markers ids w
  = on_editor (fun e => set_marks (List.filter (marker_kept ids) (marks e)) e) w.
Proof.
  revert w. induction ids as [|id ids IH]; intros w.
  - destruct_world w. cbn. rewrite filter_all; [reflexivity|]. reflexivity.
  - cbn [clear_markers fold_left]. fold (clear_markers ids (clear_marker id w)).
    rewrite IH. destruct_world w. cbn. rewrite filter_filter.
    do 2 f_equal. apply List.filter_ext. intros m. unfold marker_kept. cbn.
    now rewrite negb_orb.
Qed.

Lemma _clearDiagnostics_eq w :
  _clearDiagnostics w
  = on_this (fun a => set_diagnosticResults [] (set_markedDiagnostics [] a))
      (on_editor
         (fun e => set_marks
                     (List.filter (marker_kept (markedDiagnostics (this w)))
                                  (marks e))
                     (set_gutter ∅ e)) w).
Proof.
  unfold _clearDiagnostics. rewrite clear_markers_eq. now destruct_world w.
Qed.

Lemma marker_kept_not_in ids m marks0 :
  In m ids -> ~ In m (map marker_id (List.filter (marker_kept ids) marks0)).
Proof.
  intros Hm Hin. apply List.in_map_iff in Hin. destruct Hin as (k & <- & Hk).
  apply List.filter_In in Hk. destruct Hk as [_ Hk]. unfold marker_kept in Hk.
  apply negb_true_iff in Hk.
  assert (existsb (Nat.eqb (marker_id k)) ids = true) as Hex.
  { apply List.existsb_exists. exists (marker_id k). split; [exact Hm|].
    apply Nat.eqb_refl. }
  congruence.
Qed.

(** ** Diagnostics switched off *)

(** C10: with [enableDiagnostics] off, a diagnostics publication leaves
    every store as it was; an [updateOptions] call whose filled options have
    diagnostics off empties the marked-diagnostics list, the tracker and the
    gutter and clears every diagnostic mark from the editor. *)
Theorem handleDiagnostic_disabled_is_identity :
  (forall w response,
      truthy (enableDiagnostics (options (this w))) = false ->
      handleDiagnostic response w = Done w)
  /\ (forall getFilledDefaults opts w,
        truthy (enableDiagnostics (getFilledDefaults opts)) = false ->
        let w' := updateOptions getFilledDefaults opts w in
        markedDiagnostics (this w') = []
        /\ diagnosticResults (this w') = []
        /\ gutter (editor w') = ∅
        /\ forall m, In m (markedDiagnostics (this w)) ->
                     ~ In m (map marker_id (marks (editor w')))).
Proof.
  split.
  - intros w response H. unfold handleDiagnostic. now rewrite H.
  - intros gfd opts w H w'. subst w'. unfold updateOptions.
    assert (options (this (on_this (set_options (gfd opts)) w)) = gfd opts) as Ho
      by now destruct_world w.
    rewrite Ho, H. cbn [negb]. rewrite _clearDiagnostics_eq.
    destruct_world w. cbn. repeat split.
    intros m Hm. now apply marker_kept_not_in.
Qed.

Lemma handleDiagnostic_disabled_is_identity_witness :
  let shown := world_of (handleDiagnostic two_diagnostics example_world) in
  let off := updateOptions (fill_defaults example_defaults) diagnostics_off shown in
  handleDiagnostic two_diagnostics off = Done off
  /\ markedDiagnostics (this shown) = [0%nat; 1%nat]
  /\ markedDiagnostics (this off) = [].
Proof.
  split; [|split].
  - apply (proj1 handleDiagnostic_disabled_is_identity). vm_compute. reflexivity.
  - vm_compute. reflexivity.
  - apply (proj2 handleDiagnostic_disabled_is_identity
             (fill_defaults example_defaults) diagnostics_off).
    vm_compute. reflexivity.
Defined.

(** ** Debounce intervals *)

Lemma updateOptions_frame getFilledDefaults opts w :
  let w' := updateOptions getFilledDefaults opts w in
  debouncedGetHover (this w') = debouncedGetHover (this w)
  /\ editorListeners (this w') = editorListeners (this w)
  /\ editor_handlers (editor w') = editor_handlers (editor w)
  /\ timers w' = timers w.
Proof.
  cbn zeta. unfold updateOptions.
  destruct (negb _).
  - rewrite _clearDiagnostics_eq. now destruct_world w.
  - now destruct_world w.
Qed.

(** C9: the constructor builds the debounced hover function with the
    [quickSuggestionsDelay] of the filled initial options and registers a
    change listener debounced by their [debounceSuggestionsWhileTyping];
    after any sequence of [updateOptions] calls both intervals, the listener
    on the editor and the pending timers are what they were. *)
Theorem debounce_intervals_captured_once :
  forall getFilledDefaults conn opts ed snips d updates,
    let hover_wait := debounce_wait (quickSuggestionsDelay (getFilledDefaults opts)) in
    let change_wait :=
      debounce_wait (debounceSuggestionsWhileTyping (getFilledDefaults opts)) in
    let w0 := constructor getFilledDefaults conn opts ed snips d in
    let w := fold_left (fun w o => updateOptions getFilledDefaults o w) updates w0 in
    debouncedGetHover (this w) = hover_wait
    /\ obj_get "change" (editorListeners (this w)) = Some (changeListener change_wait)
    /\ In ("change", changeListener change_wait) (editor_handlers (editor w))
    /\ editor_handlers (editor w) = editor_handlers (editor w0)
    /\ timers w = timers w0.
Proof.
  intros gfd conn opts ed snips d updates hover_wait change_wait w0 w.
  assert (debouncedGetHover (this w) = debouncedGetHover (this w0)
          /\ editorListeners (this w) = editorListeners (this w0)
          /\ editor_handlers (editor w) = editor_handlers (editor w0)
          /\ timers w = timers w0) as (H1 & H2 & H3 & H4).
  { subst w. generalize w0. clear.
    induction updates as [|o updates IH]; intros w0; [easy|]. cbn [fold_left].
    destruct (IH (updateOptions gfd o w0)) as (-> & -> & -> & ->).
    apply updateOptions_frame. }
  rewrite H1, H2, H3, H4. subst w0 hover_wait change_wait.
  destruct ed, d, conn. unfold constructor, _addListeners.
  destruct (truthy (enableContextMenu (gfd opts))) eqn:Hcm; cbn; rewrite ?Hcm; cbn;
    repeat split; rewrite ?List.in_app_iff; cbn; tauto.
Qed.

(** ** Responses the handlers do not expect *)

Lemma _removeTooltip_frame w :
  options (this (_removeTooltip w)) = options (this w)
  /\ token (this (_removeTooltip w)) = token (this w)
  /\ highlightMarkers (this (_removeTooltip w)) = highlightMarkers (this w)
  /\ editor (_removeTooltip w) = editor w
  /\ connection (_removeTooltip w) = connection w.
Proof.
  unfold _removeTooltip. destruct (tooltip (this w)) eqn:Ht; [|easy].
  now destruct_world w.
Qed.

Lemma _removeSignatureWidget_frame w :
  options (this (_removeSignatureWidget w)) = options (this w)
  /\ token (this (_removeSignatureWidget w)) = token (this w)
  /\ editor (_removeSignatureWidget w) = editor w
  /\ connection (_removeSignatureWidget w) = connection w.
Proof.
  unfold _removeSignatureWidget.
  destruct (signatureWidget (this w)) eqn:Hs.
  - destruct (tooltip (this (on_this _ w))) eqn:Ht.
    + destruct (_removeTooltip_frame (on_this (set_signatureWidget None) w))
        as (-> & -> & _ & -> & ->).
      now destruct_world w.
    + now destruct_world w.
  - destruct (tooltip (this w)) eqn:Ht; [|easy].
    destruct (_removeTooltip_frame w) as (-> & -> & _ & -> & ->). easy.
Qed.

(** C5: with signatures enabled, a signature-help result that has no
    [signatures] field makes [handleSignature] throw a [TypeError], after
    it has removed the tooltip; the same happens in [handleGoTo] for a list
    of locations that all belong to other documents, and in
    [handleDiagnostic] for a publication with no [diagnostics] field. *)
Theorem handleSignature_throws_without_signatures :
  forall w,
    truthy (enableSignatures (options (this w))) = true ->
    handleSignature (Some (mkSignatureHelp None)) w
    = Raise (TypeError "Cannot read properties of undefined (length)")
            (_removeTooltip (_removeSignatureWidget w)).
Proof.
  intros w H. unfold handleSignature.
  destruct (_removeTooltip_frame (_removeSignatureWidget w)) as (-> & _).
  destruct (_removeSignatureWidget_frame w) as (-> & _).
  now rewrite H.
Qed.

Lemma handleSignature_throws_without_signatures_witness :
  handleSignature (Some (mkSignatureHelp None)) example_world
  = Raise (TypeError "Cannot read properties of undefined (length)")
          (_removeTooltip (_removeSignatureWidget example_world)).
Proof.
  apply handleSignature_throws_without_signatures. vm_compute. reflexivity.
Defined.

Example handleDiagnostic_throws_without_diagnostics :
  exists w, handleDiagnostic (mkPublish "file:///a.ts" None) example_world
            = Raise (TypeError "Cannot read properties of undefined (forEach)") w.
Proof. eexists. vm_compute. reflexivity. Qed.

(** ** Go-to *)

Lemma _unhighlightRanges_eq w :
  _unhighlightRanges w
  = on_this (set_highlightMarkers [])
      (on_editor
         (fun e => set_marks
                     (List.filter (marker_kept (highlightMarkers (this w)))
                                  (marks e)) e) w).
Proof. unfold _unhighlightRanges. now rewrite clear_markers_eq. Qed.

Lemma highlight_fold_fields items w :
  let w' := fold_left highlight_one items w in
  highlightMarkers (this w')
  = highlightMarkers (this w) ++ seq (next_marker (editor w)) (length items)
  /\ marks (editor w')
     = marks (editor w)
       ++ highlight_marks (doc_lines (editor w)) (next_marker (editor w)) items
  /\ scrolledIntoView (editor w') = scrolledIntoView (editor w).
Proof.
  revert w. induction items as [|item items IH]; intros w; cbn zeta.
  - cbn. now rewrite !List.app_nil_r.
  - cbn [fold_left]. destruct (IH (highlight_one w item)) as (-> & -> & ->).
    destruct_world w. unfold highlight_marks. cbn.
    now rewrite <- !List.app_assoc.
Qed.

(** The part of the go-to claim that holds: when some location of the list
    has the URI of the open document, the earlier highlights are cleared,
    the surviving locations and only they are marked, in their order, and
    the view scrolls to the start of the first of them. *)
Lemma handleGoTo_highlights_survivors w items l0 ls :
  forallb is_Location items = true ->
  List.filter (fun l => String.eqb (uri l) (documentUri (connection w)))
              (omap as_Location items) = l0 :: ls ->
  exists w',
    handleGoTo (GoToArray items) w = Done w'
    /\ highlightMarkers (this w')
       = seq (next_marker (editor w)) (length (l0 :: ls))
    /\ marks (editor w')
       = List.filter (marker_kept (highlightMarkers (this w))) (marks (editor w))
         ++ highlight_marks (doc_lines (editor w)) (next_marker (editor w))
                            (map range (l0 :: ls))
    /\ scrolledIntoView (editor w')
       = scrolledIntoView (editor w) ++ [Some (position_of (range_start (range l0)))].
Proof.
  intros Hall Hsome. unfold handleGoTo. rewrite Hall.
  destruct (_removeTooltip_frame w) as (_ & _ & Hh & He & Hc).
  rewrite Hc, Hsome. cbn [lookup list_lookup]. eexists. split; [reflexivity|].
  unfold _highlightRanges. rewrite _unhighlightRanges_eq, Hh.
  set (w1 := on_this _ _).
  assert (highlightMarkers (this w1) = []
          /\ marks (editor w1)
             = List.filter (marker_kept (highlightMarkers (this w))) (marks (editor w))
          /\ next_marker (editor w1) = next_marker (editor w)
          /\ scrolledIntoView (editor w1) = scrolledIntoView (editor w)
          /\ doc_lines (editor w1) = doc_lines (editor w))
    as (H1 & H2 & H3 & H4 & H5).
  { subst w1. rewrite <- He. now destruct_world (_removeTooltip w). }
  cbn [map].
  destruct (highlight_fold_fields (range l0 :: map range ls) w1) as (Ha & Hb & Hd).
  cbn zeta in Ha, Hb, Hd. rewrite H1, H3 in Ha. rewrite H2, H3, H5 in Hb.
  rewrite H4 in Hd. cbn [length app] in Ha. rewrite length_map in Ha.
  set (w2 := fold_left highlight_one _ w1) in *.
  split; [|split].
  - destruct_world w2. cbn in *. exact Ha.
  - destruct_world w2. cbn in *. exact Hb.
  - destruct_world w2. cbn in *. now rewrite Hd.
Qed.

(** C2: when every element of a go-to list is a location and none has the
    URI of the open document, [handleGoTo] throws a [TypeError] on reading
    the first surviving location.  Up to the throw it has removed the
    tooltip and cleared the previous highlights; it has not scrolled and
    has added no highlight. *)
Theorem handleGoTo_throws_when_no_location_survives :
  forall w items,
    forallb is_Location items = true ->
    List.filter (fun l => String.eqb (uri l) (documentUri (connection w)))
                (omap as_Location items) = [] ->
    exists w',
      handleGoTo (GoToArray items) w
      = Raise (TypeError "Cannot read properties of undefined (range)") w'
      /\ w' = _unhighlightRanges (_removeTooltip w)
      /\ highlightMarkers (this w') = []
      /\ scrolledIntoView (editor w') = scrolledIntoView (editor w).
Proof.
  intros w items Hall Hnone. unfold handleGoTo. rewrite Hall.
  destruct (_removeTooltip_frame w) as (_ & _ & _ & He & Hc).
  rewrite Hc, Hnone. cbn [map _highlightRanges lookup list_lookup].
  eexists. split; [reflexivity|]. split; [reflexivity|].
  rewrite _unhighlightRanges_eq.
  assert (scrolledIntoView (editor (_removeTooltip w))
          = scrolledIntoView (editor w)) as <- by now rewrite He.
  now destruct_world (_removeTooltip w).
Qed.

Lemma handleGoTo_throws_when_no_location_survives_witness :
  exists w',
    handleGoTo (GoToArray [ALocation other_document]) example_world
    = Raise (TypeError "Cannot read properties of undefined (range)") w'
    /\ w' = _unhighlightRanges (_removeTooltip example_world)
    /\ highlightMarkers (this w') = []
    /\ scrolledIntoView (editor w') = scrolledIntoView (editor example_world).
Proof.
  apply handleGoTo_throws_when_no_location_survives; reflexivity.
Defined.

(** ** The diagnostics tracker *)

Lemma position_eqb_eq p q : position_eqb p q = true <-> p = q.
Proof.
  destruct p as [l1 c1], q as [l2 c2]. unfold position_eqb. cbn.
  rewrite andb_true_iff, !Z.eqb_eq. split; [intros [-> ->] | intros [= -> ->]]; easy.
Qed.

Lemma position_eqb_refl p : position_eqb p p = true.
Proof. now apply position_eqb_eq. Qed.

Lemma findIndex_from_cases {A} (p : A -> bool) (l : list A) (i : Z) :
  0 <= i ->
  (JS.findIndex_from p l i = -1 /\ forall x, In x l -> p x = false)
  \/ (exists k x, JS.findIndex_from p l i = i + Z.of_nat k
                  /\ l !! k = Some x /\ p x = true).
Proof.
  revert i. induction l as [|y l IH]; intros i Hi; cbn.
  - left. easy.
  - destruct (p y) eqn:Hy.
    + right. exists 0%nat, y. split; [lia | easy].
    + destruct (IH (i + 1)) as [[-> Hall]|(k & x & -> & Hk & Hx)]; [lia| |].
      * left. split; [reflexivity|]. intros x [<-|Hx]; auto.
      * right. exists (S k), x. split; [lia | easy].
Qed.

Lemma keys_alter_push msg k (l : list ITokenInfo) :
  map (fun r => (ti_start r, ti_end r)) (alter (push_message msg) k l)
  = map (fun r => (ti_start r, ti_end r)) l.
Proof.
  revert k. induction l as [|r l IH]; intros k; [reflexivity|].
  destruct k as [|k]; cbn; [reflexivity|]. f_equal. apply IH.
Qed.

Lemma diagnostic_step_results w d :
  let start := position_of (range_start (diag_range d)) in
  let end_ := position_of (range_end (diag_range d)) in
  let k := JS.findIndex
             (fun result => position_eqb (ti_start result) start
                            && position_eqb (ti_end result) end_)
             (diagnosticResults (this w)) in
  diagnosticResults (this (diagnostic_step w d))
  = if -1 <? k
    then alter (push_message (message d)) (Z.to_nat k) (diagnosticResults (this w))
    else diagnosticResults (this w)
         ++ [mkTokenInfo [message d] start end_].
Proof.
  destruct_world w. unfold diagnostic_step, markText. cbn.
  destruct (-1 <? _); cbn; destruct (truthy _); reflexivity.
Qed.

Lemma diagnostic_step_keeps_keys_distinct w d :
  NoDup (tracker_keys w) -> NoDup (tracker_keys (diagnostic_step w d)).
Proof.
  intros Hnd. unfold tracker_keys in *. rewrite diagnostic_step_results. cbn zeta.
  unfold JS.findIndex.
  destruct (findIndex_from_cases
              (fun result =>
                 position_eqb (ti_start result) (position_of (range_start (diag_range d)))
                 && position_eqb (ti_end result) (position_of (range_end (diag_range d))))
              (diagnosticResults (this w)) 0 ltac:(lia))
    as [[-> Hnone]|(k & x & -> & _ & _)].
  - cbn. rewrite map_app. cbn. apply NoDup_app. split; [exact Hnd|]. split.
    + intros key Hkey Hin. apply list_elem_of_singleton in Hin. subst key.
      apply list_elem_of_In, List.in_map_iff in Hkey.
      destruct Hkey as (r & [= Hs He] & Hr). specialize (Hnone r Hr).
      rewrite Hs, He, !position_eqb_refl in Hnone. discriminate.
    + apply NoDup_singleton.
  - replace (-1 <? 0 + Z.of_nat k) with true by (symmetry; apply Z.ltb_lt; lia).
    now rewrite keys_alter_push.
Qed.

Lemma diagnostics_fold_keeps_keys_distinct ds w :
  NoDup (tracker_keys w) -> NoDup (tracker_keys (fold_left diagnostic_step ds w)).
Proof.
  revert w. induction ds as [|d ds IH]; intros w Hnd; [exact Hnd|].
  cbn. apply IH. now apply diagnostic_step_keeps_keys_distinct.
Qed.

Ltac step_projection w :=
  destruct_world w; unfold diagnostic_step, markText; cbn;
  destruct (-1 <? _); cbn; destruct (truthy _); reflexivity.

Lemma diagnostic_step_options w d :
  options (this (diagnostic_step w d)) = options (this w).
Proof. step_projection w. Qed.

Lemma diagnostic_step_marked w d :
  markedDiagnostics (this (diagnostic_step w d))
  = markedDiagnostics (this w) ++ [next_marker (editor w)].
Proof. step_projection w. Qed.

Lemma diagnostic_step_marks w d :
  marks (editor (diagnostic_step w d))
  = marks (editor w)
    ++ text_mark (doc_lines (editor w)) (next_marker (editor w))
         (position_of (range_start (diag_range d)))
         (position_of (range_end (diag_range d)))
         (diagnosticMarkClassName (options (this w))).
Proof. step_projection w. Qed.

Lemma diagnostic_step_doc_lines w d :
  doc_lines (editor (diagnostic_step w d)) = doc_lines (editor w).
Proof. step_projection w. Qed.

Lemma diagnostic_step_next_marker w d :
  next_marker (editor (diagnostic_step w d)) = S (next_marker (editor w)).
Proof. step_projection w. Qed.

Lemma diagnostic_step_gutter w d :
  gutter (editor (diagnostic_step w d))
  = if truthy (enableGutterMarks (options (this w)))
    then <[clipLine (doc_lines (editor w)) (lsp_line (range_start (diag_range d)))
           := message d]> (gutter (editor w))
    else gutter (editor w).
Proof.
  destruct_world w. unfold diagnostic_step, markText. cbn.
  destruct (-1 <? _); cbn; destruct (truthy _); reflexivity.
Qed.

Lemma before_diagnostics_fields response w :
  let w0 := before_diagnostics response w in
  options (this w0) = options (this w)
  /\ markedDiagnostics (this w0) = []
  /\ diagnosticResults (this w0) = []
  /\ marks (editor w0)
     = List.filter (marker_kept (markedDiagnostics (this w))) (marks (editor w))
  /\ next_marker (editor w0) = next_marker (editor w)
  /\ gutter (editor w0) = ∅
  /\ doc_lines (editor w0) = doc_lines (editor w).
Proof.
  cbn zeta. unfold before_diagnostics. rewrite _clearDiagnostics_eq.
  now destruct_world w.
Qed.

(** C3, the claim as stated fails: two diagnostics over one range leave two
    marked ranges in the editor. *)
Lemma two_diagnostics_leave_two_marks :
  length (marks (editor (world_of (handleDiagnostic two_diagnostics example_world))))
  <> 1%nat.
Proof. vm_compute. discriminate. Qed.

(** C3 as amended: a publication of two diagnostics with the same range
    makes one marker per diagnostic, two in all, after clearing the earlier
    diagnostic marks; both are attached over the range clipped to the
    document, and neither when the clipped range is empty.  The tracker has
    one entry, with the positions as published and both messages in their
    order; with gutter marks enabled the gutter has one marker, on the
    start line clipped to the document, titled with the second message.
    For every publication, the tracker's entries keep pairwise different
    (start, end) pairs. *)
Theorem same_range_diagnostics_share_one_entry :
  (forall w d1 d2 u,
      truthy (enableDiagnostics (options (this w))) = true ->
      diag_range d1 = diag_range d2 ->
      let start := position_of (range_start (diag_range d1)) in
      let end_ := position_of (range_end (diag_range d1)) in
      let n := next_marker (editor w) in
      let cls := diagnosticMarkClassName (options (this w)) in
      let ls := doc_lines (editor w) in
      exists w',
        handleDiagnostic (mkPublish u (Some [d1; d2])) w = Done w'
        /\ markedDiagnostics (this w') = [n; S n]
        /\ marks (editor w')
           = List.filter (marker_kept (markedDiagnostics (this w))) (marks (editor w))
             ++ (if pos_ltb (clipPos ls start) (clipPos ls end_)
                 then [mkTextMarker n (clipPos ls start) (clipPos ls end_) cls;
                       mkTextMarker (S n) (clipPos ls start) (clipPos ls end_) cls]
                 else [])
        /\ diagnosticResults (this w')
           = [mkTokenInfo [message d1; message d2] start end_]
        /\ gutter (editor w')
           = if truthy (enableGutterMarks (options (this w)))
             then {[ clipLine ls (line start) := message d2 ]} else ∅)
  /\ (forall w response,
        NoDup (tracker_keys w) ->
        NoDup (tracker_keys (world_of (handleDiagnostic response w)))).
Proof.
  split.
  - intros w d1 d2 u Hen Hrange start end_ n cls ls. subst start end_ n cls ls.
    unfold handleDiagnostic. rewrite Hen. cbn [negb diagnostics fold_left].
    change (on_editor _ (_clearDiagnostics w))
      with (before_diagnostics (mkPublish u (Some [d1; d2])) w).
    destruct (before_diagnostics_fields (mkPublish u (Some [d1; d2])) w)
      as (Ho & Hmd & Hdr & Hmk & Hnm & Hg & Hdl).
    set (w0 := before_diagnostics _ w) in *.
    eexists. split; [reflexivity|].
    rewrite !diagnostic_step_marked, !diagnostic_step_marks,
            !diagnostic_step_next_marker, !diagnostic_step_gutter,
            !diagnostic_step_options, !diagnostic_step_doc_lines,
            Ho, Hmd, Hmk, Hnm, Hg, Hdl, <- Hrange.
    repeat split.
    + rewrite <- List.app_assoc. f_equal. unfold text_mark.
      now destruct (pos_ltb _ _).
    + rewrite (diagnostic_step_results (diagnostic_step w0 d1) d2).
      rewrite (diagnostic_step_results w0 d1), Hdr, <- Hrange. cbn.
      now rewrite !position_eqb_refl.
    + destruct (truthy (enableGutterMarks (options (this w)))); [|reflexivity].
      now rewrite insert_insert_eq, insert_empty.
  - intros w response Hnd. unfold handleDiagnostic.
    destruct (negb _); [exact Hnd|].
    fold (before_diagnostics response w).
    assert (NoDup (tracker_keys (before_diagnostics response w))) as Hclear.
    { unfold tracker_keys.
      destruct (before_diagnostics_fields response w) as (_ & _ & -> & _).
      apply NoDup_nil_2. }
    destruct (diagnostics response) as [ds|]; cbn [world_of]; [|exact Hclear].
    now apply diagnostics_fold_keeps_keys_distinct.
Qed.

Lemma same_range_diagnostics_share_one_entry_witness :
  exists w',
    handleDiagnostic two_diagnostics example_world = Done w'
    /\ markedDiagnostics (this w') = [0%nat; 1%nat]
    /\ marks (editor w')
       = [mkTextMarker 0 (mkPosition 0 0) (mkPosition 0 7)
                       (Some "CodeMirror-lsp-diagnostic");
          mkTextMarker 1 (mkPosition 0 0) (mkPosition 0 7)
                       (Some "CodeMirror-lsp-diagnostic")]
    /\ diagnosticResults (this w')
       = [mkTokenInfo ["first"; "second"] (mkPosition 0 0) (mkPosition 0 7)]
    /\ gutter (editor w') = {[ 0 := "second" ]}
    /\ NoDup (tracker_keys w').
Proof.
  destruct (proj1 same_range_diagnostics_share_one_entry example_world
              (mkDiagnostic range_0_0_7 "first") (mkDiagnostic range_0_0_7 "second")
              "file:///a.ts" eq_refl eq_refl)
    as (w' & Hrun & Hmarked & Hmarks & Hresults & Hgutter).
  exists w'. split; [exact Hrun|]. split; [exact Hmarked|].
  split; [exact Hmarks|].
  split; [exact Hresults|]. split; [exact Hgutter|].
  change w' with (world_of (Done w')). rewrite <- Hrun.
  apply (proj2 same_range_diagnostics_share_one_entry).
  apply NoDup_nil_2.
Defined.

(** ** Teardown *)

Lemma remove_first_keeps type f h hs :
  In h hs -> same_handler type f h = false -> In h (remove_first type f hs).
Proof.
  intros Hin Hne. induction hs as [|k hs IH]; [easy|]. cbn.
  destruct Hin as [->|Hin].
  - rewrite Hne. now left.
  - destruct (same_handler type f k); [exact Hin|]. right. now apply IH.
Qed.

Lemma addEventListener_In type f hs : In (type, f) (addEventListener type f hs).
Proof.
  unfold addEventListener. destruct (existsb _ hs) eqn:Hex.
  - apply List.existsb_exists in Hex. destruct Hex as ([t g] & Hin & Hsame).
    unfold same_handler, listener_eqb in Hsame. cbn in Hsame.
    apply andb_true_iff in Hsame. destruct Hsame as [Ht Hg].
    apply String.eqb_eq in Ht. apply bool_decide_eq_true in Hg. now subst.
  - apply List.in_or_app. right. now left.
Qed.

Lemma addEventListener_keeps type f h hs :
  In h hs -> In h (addEventListener type f hs).
Proof.
  intros Hin. unfold addEventListener. destruct (existsb _ hs); [exact Hin|].
  apply List.in_or_app. now left.
Qed.

Ltac kept_handler :=
  repeat (apply remove_first_keeps; [|reflexivity]);
  repeat (first [ apply addEventListener_In
                | apply addEventListener_keeps
                | apply List.in_or_app; cbn; tauto
                | apply List.in_or_app; left ]).

(** On an editor without handlers the constructor leaves exactly its four
    listeners, the ones [editor_listener] runs. *)
Lemma constructor_editor_handlers getFilledDefaults conn opts ls cursor snips d :
  editor_handlers
    (editor (constructor getFilledDefaults conn opts (editor_showing ls cursor)
                         snips d))
  = [("change",
      changeListener
        (debounce_wait (debounceSuggestionsWhileTyping (getFilledDefaults opts))));
     ("refresh", refreshListener); ("scroll", scrollListener);
     ("focus", clickInsideListener)].
Proof.
  destruct d, conn. unfold constructor, _addListeners.
  destruct (truthy (enableContextMenu (getFilledDefaults opts))) eqn:Hcm;
    repeat (cbn; rewrite ?Hcm); reflexivity.
Qed.

(** C1: whatever the options, editor, DOM and connection the adapter was
    built on, after [remove] the editor still carries the refresh, scroll
    and focus listeners that set-up registered, the wrapper element its
    mouseleave listener and the document its click listener.  In the
    example session a go-to highlight is on the editor when [remove] runs,
    [remove] leaves it, and the focus event delivered afterwards runs the
    surviving listener, which clears the mark. *)
Theorem remove_leaves_listeners_attached :
  (forall getFilledDefaults conn opts ed snips d,
      let w := remove (constructor getFilledDefaults conn opts ed snips d) in
      In ("refresh", refreshListener) (editor_handlers (editor w))
      /\ In ("scroll", scrollListener) (editor_handlers (editor w))
      /\ In ("focus", clickInsideListener) (editor_handlers (editor w))
      /\ In ("mouseleave", mouseLeaveListener) (wrapper_handlers (dom w))
      /\ In ("click", clickOutsideListener) (document_handlers (dom w)))
  /\ (let highlighted := world_of (handleGoTo (GoToLocation same_document) example_world) in
      let removed := remove highlighted in
      editor_handlers (editor removed)
      = [("refresh", refreshListener); ("scroll", scrollListener);
         ("focus", clickInsideListener)]
      /\ wrapper_handlers (dom removed) = [("mouseleave", mouseLeaveListener)]
      /\ document_handlers (dom removed) = [("click", clickOutsideListener)]
      /\ connection_handlers (connection removed) = []
      /\ map marker_id (marks (editor removed)) = [0%nat]
      /\ exists after_focus,
           editor_signal "focus" removed = Done after_focus
           /\ marks (editor after_focus) = []).
Proof.
  split.
  - intros gfd conn opts ed snips d w. subst w.
    destruct ed, d, conn. unfold constructor, _addListeners, remove.
    destruct (truthy (enableContextMenu (gfd opts))) eqn:Hcm;
      repeat (cbn; rewrite ?Hcm); repeat split; kept_handler.
  - vm_compute. repeat split. eexists. split; reflexivity.
Qed.

(** ** Pointer moves outside the editor *)


Lemma _removeHover_fields w :
  hoverMarker (this (_removeHover w)) = None
  /\ (forall m, hoverMarker (this w) = Some m ->
                ~ In m (map marker_id (marks (editor (_removeHover w)))))
  /\ connection (_removeHover w) = connection w
  /\ timers (_removeHover w) = timers w.
Proof.
  unfold _removeHover. destruct (hoverMarker (this w)) as [m|] eqn:Hm.
  - destruct_world w. cbn in *. repeat split. intros k [= <-] Hin.
    apply List.in_map_iff in Hin. destruct Hin as (x & Hx & Hin).
    apply List.filter_In in Hin. destruct Hin as [_ Hin].
    rewrite Hx, Nat.eqb_refl in Hin. discriminate.
  - repeat split; [exact Hm | discriminate].
Qed.





(** * Further properties of the adapter *)

(** ** The token extractor, in general *)

Lemma nth_value_None {A} (a : list A) (i : Z) :
  JS.nth_value a i = None <-> i < 0 \/ Z.of_nat (length a) <= i.
Proof.
  unfold JS.nth_value. destruct (Z.ltb_spec i 0) as [Hi|Hi].
  - split; [intros _; now left | reflexivity].
  - rewrite lookup_ge_None. split; [intros H; right; lia | intros [H|H]; lia].
Qed.

Lemma char_at_Some ln i c :
  JS.char_at ln i = Some c ->
  0 <= i /\ exists a, String.get (Z.to_nat i) ln = Some a /\ c = String a EmptyString.
Proof.
  unfold JS.char_at. destruct (Z.ltb_spec i 0) as [Hi|Hi]; [discriminate|].
  destruct (String.get _ ln) as [a|]; [|discriminate].
  intros [= <-]. split; [exact Hi|]. eauto.
Qed.

Lemma char_at_nat ln (i : nat) :
  JS.char_at ln (Z.of_nat i)
  = match String.get i ln with
    | Some a => Some (String a EmptyString)
    | None => None
    end.
Proof.
  unfold JS.char_at. destruct (Z.ltb_spec (Z.of_nat i) 0) as [Hi|Hi]; [lia|].
  now rewrite Nat2Z.id.
Qed.

Lemma test_nonword_single a :
  JS.test_nonword (String a EmptyString) = JS.is_nonword a.
Proof. cbn. now destruct (JS.is_nonword a). Qed.

Lemma get_in_range ln (i : nat) :
  (i < String.length ln)%nat -> exists a, String.get i ln = Some a.
Proof.
  revert i. induction ln as [|b ln IH]; intros i Hi; cbn in *; [lia|].
  destruct i as [|i]; [eauto|]. apply IH. lia.
Qed.

(** Where the backward scan of the extractor stops: at the initial value
    when the character before the cursor is not a word character, else at
    the first column of the run of word characters that ends at the
    cursor. *)
Lemma scan_word_start_spec ln n s0 :
  (n <= String.length ln)%nat ->
  (scan_word_start ln n s0 = s0
   /\ (n = 0%nat
       \/ exists a, String.get (n - 1) ln = Some a /\ JS.is_nonword a = true))
  \/ (exists k,
        (k < n)%nat /\ scan_word_start ln n s0 = Z.of_nat k
        /\ (forall i a, (k <= i < n)%nat -> String.get i ln = Some a ->
                        JS.is_nonword a = false)
        /\ (k = 0%nat
            \/ exists a, String.get (k - 1) ln = Some a /\ JS.is_nonword a = true)).
Proof.
  revert s0. induction n as [|i IH]; intros s0 Hn; cbn [scan_word_start].
  - left. split; [reflexivity | now left].
  - destruct (get_in_range ln i ltac:(lia)) as [a Ha].
    rewrite char_at_nat, Ha. cbn [JS.test_nonword_value].
    rewrite test_nonword_single.
    destruct (JS.is_nonword a) eqn:Hw.
    + left. split; [reflexivity|]. right. exists a.
      now replace (S i - 1)%nat with i by lia.
    + right. destruct (IH (Z.of_nat i) ltac:(lia)) as [[-> Hstop]|(k & Hk & -> & Hrun & Hleft)].
      * exists i. split; [lia|]. split; [reflexivity|]. split.
        -- intros j b Hj Hb. assert (j = i) as -> by lia. congruence.
        -- destruct Hstop as [->|Hstop]; [now left | now right].
      * exists k. split; [lia|]. split; [reflexivity|]. split; [|exact Hleft].
        intros j b Hj Hb. destruct (Nat.eq_dec j i) as [->|Hne]; [congruence|].
        apply (Hrun j b); [lia | exact Hb].
Qed.

Lemma length_substring_to_end ln s m :
  (s <= String.length ln)%nat -> (String.length ln - s <= m)%nat ->
  String.length (String.substring s m ln) = (String.length ln - s)%nat.
Proof.
  revert s m. induction ln as [|b ln IH]; intros s m Hs Hm; cbn in *.
  - destruct s, m; reflexivity.
  - destruct s as [|s].
    + destruct m as [|m]; [lia|]. cbn. rewrite (IH 0%nat m); lia.
    + apply IH; lia.
Qed.

Lemma test_nonword_substring ln s m :
  (forall i a, (s <= i)%nat -> String.get i ln = Some a -> JS.is_nonword a = false) ->
  JS.test_nonword (String.substring s m ln) = false.
Proof.
  revert s m. induction ln as [|b ln IH]; intros s m Hrun; cbn.
  - now destruct s, m.
  - destruct s as [|s].
    + destruct m as [|m]; [reflexivity|]. cbn.
      rewrite (Hrun 0%nat b); [|lia|reflexivity]. cbn. apply IH.
      intros i a _ Ha. apply (Hrun (S i) a); [lia | exact Ha].
    + apply IH. intros i a Hi Ha. apply (Hrun (S i) a); [lia | exact Ha].
Qed.

Lemma indexOf_from_absent a v i :
  0 <= i -> (-1 <? JS.indexOf_from a v i) = false -> ~ In v a.
Proof.
  revert i. induction a as [|x a IH]; intros i Hi Hidx; [easy|]. cbn in Hidx.
  destruct (String.eqb_spec x v) as [->|Hne].
  - apply Z.ltb_ge in Hidx. lia.
  - intros [->|Hin]; [easy|]. now apply (IH (i + 1)); [lia| |].
Qed.

Lemma indexOf_from_missing a v i :
  ~ In v a -> JS.indexOf_from a v i = -1.
Proof.
  revert i. induction a as [|x a IH]; intros i Hin; [reflexivity|]. cbn.
  destruct (String.eqb_spec x v) as [->|Hne]; [now destruct Hin; left|].
  apply IH. intros H. apply Hin. now right.
Qed.

Lemma scan_word_start_range ln n s0 :
  scan_word_start ln n s0 = s0
  \/ 0 <= scan_word_start ln n s0 < Z.of_nat n.
Proof.
  revert s0. induction n as [|i IH]; intros s0; cbn [scan_word_start]; [now left|].
  destruct (JS.test_nonword_value _); [now left|]. right.
  destruct (IH (Z.of_nat i)) as [->|H]; lia.
Qed.

(** X1: the extractor throws exactly when the cursor's line is not a line
    of the text; otherwise the token ends at the cursor and starts on the
    cursor's line, at a column from 0 to the column before the cursor. *)
Theorem token_extractor_throws_off_document :
  forall code location splitCharacters,
    ((exists e, _getTokenEndingAtPosition code location splitCharacters = inl e)
     <-> (line location < 0
          \/ Z.of_nat (length (JS.split_lines code)) <= line location))
    /\ (forall t,
          _getTokenEndingAtPosition code location splitCharacters = inr t ->
          tok_end t = location
          /\ line (tok_start t) = line location
          /\ 0 <= ch (tok_start t) <= Z.max 0 (ch location - 1)).
Proof.
  intros code location splitCharacters. unfold _getTokenEndingAtPosition.
  destruct (JS.nth_value _ (line location)) as [ln|] eqn:Hln.
  - split.
    + split.
      * intros [e He]. destruct (if _ : bool then _ else _); discriminate.
      * intros Hout. apply nth_value_None in Hout. congruence.
    + intros t Ht.
      destruct (if _ : bool then _ else _) as [c|] eqn:Hsplit.
      * injection Ht as <-. cbn.
        destruct (-1 <? _); [|discriminate].
        apply char_at_Some in Hsplit. destruct Hsplit as [Hpos _].
        repeat split; lia.
      * injection Ht as <-. cbn. repeat split; try reflexivity.
        -- destruct (scan_word_start_range ln (Z.to_nat (ch location)) 0); lia.
        -- destruct (scan_word_start_range ln (Z.to_nat (ch location)) 0); lia.
  - split.
    + split; [intros _; now apply nth_value_None | eauto].
    + discriminate.
Qed.

Lemma token_extractor_throws_off_document_witness :
  exists e, _getTokenEndingAtPosition "a.b" (mkPosition 1 0) ["."] = inl e.
Proof.
  apply (proj1 (token_extractor_throws_off_document "a.b" (mkPosition 1 0) ["."])).
  right. change (1 <= 1). lia.
Defined.

Lemma get_beyond ln (i : nat) a :
  String.get i ln = Some a -> (i < String.length ln)%nat.
Proof.
  revert i. induction ln as [|b ln IH]; intros i Hi; cbn in *; [discriminate|].
  destruct i as [|i]; [lia|]. apply IH in Hi. lia.
Qed.

(** X2: when the cursor is at the end of its line, just after a word
    character that is no split character, the token is the run of word
    characters that ends at the cursor: its text has word characters only,
    is as long as the distance from its start to the cursor, and is
    preceded by a character that is not a word character or by the start of
    the line. *)
Theorem token_at_line_end_is_last_word :
  forall code location splitCharacters ln c,
    JS.nth_value (JS.split_lines code) (line location) = Some ln ->
    ch location = JS.strlen ln ->
    JS.char_at ln (ch location - 1) = Some c ->
    JS.test_nonword c = false ->
    ~ In c splitCharacters ->
    exists start,
      _getTokenEndingAtPosition code location splitCharacters
      = inr (mkToken (JS.substr ln start (ch location))
                     (mkPosition (line location) start) location)
      /\ 0 <= start < ch location
      /\ JS.strlen (JS.substr ln start (ch location)) = ch location - start
      /\ JS.test_nonword (JS.substr ln start (ch location)) = false
      /\ (start = 0
          \/ exists b, JS.char_at ln (start - 1) = Some b
                       /\ JS.test_nonword b = true).
Proof.
  intros code location splitCharacters ln c Hln Hend Hc Hword Hsplit.
  unfold _getTokenEndingAtPosition. rewrite Hln, Hc. cbn [JS.indexOf].
  rewrite (indexOf_from_missing _ _ 0 Hsplit). cbn [Z.ltb Z.compare].
  destruct (char_at_Some _ _ _ Hc) as (Hpos & a & Ha & ->).
  rewrite test_nonword_single in Hword.
  unfold JS.strlen in *.
  assert (Z.to_nat (ch location) = String.length ln) as Hn by lia.
  rewrite Hn.
  destruct (scan_word_start_spec ln (String.length ln) 0 (Nat.le_refl _))
    as [[_ [H0|(b & Hb & Hnw)]]|(k & Hk & -> & Hrun & Hleft)].
  - lia.
  - replace (String.length ln - 1)%nat with (Z.to_nat (ch location - 1)) in Hb by lia.
    congruence.
  - exists (Z.of_nat k). split; [reflexivity|]. split; [lia|].
    unfold JS.substr.
    destruct (Z.ltb_spec (Z.of_nat k) 0) as [?|_]; [lia|].
    destruct (Z.leb_spec (ch location) 0) as [?|_]; [lia|].
    rewrite Nat2Z.id, Hn. split; [|split].
    + rewrite length_substring_to_end; lia.
    + apply test_nonword_substring. intros i b Hi Hb.
      apply (Hrun i b); [|exact Hb]. apply get_beyond in Hb. lia.
    + destruct Hleft as [->|(b & Hb & Hnw)]; [now left|].
      destruct k as [|k]; [now left|]. right.
      exists (String b EmptyString). split; [|now rewrite test_nonword_single].
      replace (Z.of_nat (S k) - 1) with (Z.of_nat (S k - 1)) by lia.
      now rewrite char_at_nat, Hb.
Qed.

Lemma token_at_line_end_is_last_word_witness :
  exists start,
    _getTokenEndingAtPosition "ab cd" (mkPosition 0 5) ["."]
    = inr (mkToken (JS.substr "ab cd" start 5) (mkPosition 0 start) (mkPosition 0 5))
    /\ 0 <= start < 5
    /\ JS.strlen (JS.substr "ab cd" start 5) = 5 - start
    /\ JS.test_nonword (JS.substr "ab cd" start 5) = false
    /\ (start = 0
        \/ exists b, JS.char_at "ab cd" (start - 1) = Some b
                     /\ JS.test_nonword b = true).
Proof.
  apply (token_at_line_end_is_last_word "ab cd" (mkPosition 0 5) ["."] "ab cd" "d");
    try reflexivity.
  intros [H|[]]. discriminate H.
Defined.

(** ** The completion ranker, in general *)

(** X3: the ranker keeps the order of the candidates: its result is the
    kept candidates whose label starts with the typed word, in their
    original order, followed by the other kept candidates, in their
    original order. *)
Theorem filtered_completions_keep_order :
  forall triggerWord items canMatchWholeWord,
    let word := JS.toLowerCase (firstWord_of triggerWord) in
    _getFilteredCompletions triggerWord (Some items) canMatchWholeWord
    = List.filter (fun i => completion_filter word canMatchWholeWord i
                            && label_matches word i) items
      ++ List.filter (fun i => completion_filter word canMatchWholeWord i
                               && negb (label_matches word i)) items.
Proof.
  intros triggerWord items canMatchWholeWord word.
  rewrite filtered_unfold, sort_is_partition. fold word.
  now rewrite !filter_filter.
Qed.

Lemma is_word_lower_char c : JS.is_word (JS.lower_char c) = JS.is_word c.
Proof. destruct c as [[] [] [] [] [] [] [] []]; reflexivity. Qed.

Lemma toLowerCase_app s c :
  JS.toLowerCase (s +:+ String c EmptyString)
  = JS.toLowerCase s +:+ String (JS.lower_char c) EmptyString.
Proof.
  induction s as [|d s IH]; unfold String.append; fold String.append; cbn.
  - reflexivity.
  - now rewrite IH.
Qed.

Lemma split_nonword_from_lower in_run cur s :
  map JS.toLowerCase (JS.split_nonword_from in_run cur s)
  = JS.split_nonword_from in_run (JS.toLowerCase cur) (JS.toLowerCase s).
Proof.
  revert in_run cur. induction s as [|c s IH]; intros in_run cur; cbn.
  - reflexivity.
  - unfold JS.is_nonword. rewrite is_word_lower_char.
    destruct (negb (JS.is_word c)).
    + destruct in_run; cbn; now rewrite IH.
    + now rewrite IH, toLowerCase_app.
Qed.

Lemma firstWord_of_lower triggerWord :
  JS.toLowerCase (firstWord_of triggerWord)
  = firstWord_of (JS.toLowerCase triggerWord).
Proof.
  unfold firstWord_of, JS.split_nonword.
  pose proof (split_nonword_from_lower false EmptyString triggerWord) as H.
  cbn [JS.toLowerCase] in H. rewrite <- H.
  now destruct (JS.split_nonword_from false EmptyString triggerWord).
Qed.

(** X4: for typed texts of code units in the Latin-1 range, which are the
    strings of this development, the ranker ignores the case of the typed
    text: two prefixes that agree up to case give the same result.  In that
    range lower-casing maps word characters to word characters and the
    others to others, so both texts have their first word cut at the same
    place; a text with a code unit beyond the range, such as the Kelvin
    sign, which lower-cases to the letter k, is not covered. *)
Theorem filtered_completions_ignore_prefix_case :
  forall triggerWord1 triggerWord2 items canMatchWholeWord,
    JS.toLowerCase triggerWord1 = JS.toLowerCase triggerWord2 ->
    _getFilteredCompletions triggerWord1 items canMatchWholeWord
    = _getFilteredCompletions triggerWord2 items canMatchWholeWord.
Proof.
  intros t1 t2 items canMatchWholeWord Hcase.
  destruct items as [items|].
  - now rewrite !filtered_unfold, !firstWord_of_lower, Hcase.
  - unfold _getFilteredCompletions. now destruct (JS.test_nonword _), (JS.test_nonword _).
Qed.

Lemma filtered_completions_ignore_prefix_case_witness :
  _getFilteredCompletions "LE" (Some (map item_of_label ["length"; "Left"])) false
  = _getFilteredCompletions "le" (Some (map item_of_label ["length"; "Left"])) false.
Proof. apply filtered_completions_ignore_prefix_case. reflexivity. Defined.

Lemma startsWith_refl s : JS.startsWith s s = true.
Proof.
  unfold JS.startsWith. induction s as [|a s IH]; cbn; [reflexivity|].
  now destruct (Ascii.ascii_dec a a).
Qed.

Lemma completion_filter_whole_word word item :
  completion_filter word false item
  = completion_filter word true item && negb (only_whole_word word item).
Proof.
  unfold completion_filter, only_whole_word, filter_text_matches.
  destruct (truthy_string (filterText item) && _); cbn;
    rewrite ?andb_false_r, ?andb_true_r; [reflexivity|].
  destruct (String.eqb _ word); cbn; now rewrite ?andb_false_r, ?andb_true_r.
Qed.

(** X5: whole-word matching only decides about the candidates whose label
    is the typed word up to case and that no filter text speaks for: the
    result for server completions is the result for snippets without those
    candidates, and for snippets such a candidate is always in the result. *)
Theorem filtered_completions_whole_word :
  forall triggerWord items,
    let word := JS.toLowerCase (firstWord_of triggerWord) in
    _getFilteredCompletions triggerWord (Some items) false
    = List.filter (fun i => negb (only_whole_word word i))
                  (_getFilteredCompletions triggerWord (Some items) true)
    /\ (forall item,
          In item items ->
          JS.toLocaleLowerCase (label item) = word ->
          In item (_getFilteredCompletions triggerWord (Some items) true)).
Proof.
  intros triggerWord items word. split.
  - rewrite !filtered_unfold, !sort_is_partition. fold word.
    rewrite List.filter_app, !filter_filter. f_equal; apply List.filter_ext; intros i;
      rewrite completion_filter_whole_word;
      destruct (completion_filter word true i), (label_matches word i),
               (only_whole_word word i); reflexivity.
  - intros item Hin Hlabel. rewrite filtered_unfold, sort_is_partition. fold word.
    apply List.in_or_app. left. apply List.filter_In. split.
    + apply List.filter_In. split; [exact Hin|]. unfold completion_filter.
      destruct (truthy_string _ && _); [reflexivity|]. cbn. rewrite Hlabel.
      apply startsWith_refl.
    + unfold label_matches. rewrite Hlabel. apply startsWith_refl.
Qed.

Lemma filtered_completions_whole_word_witness :
  In (item_of_label "For")
     (_getFilteredCompletions "for" (Some (map item_of_label ["for"; "For"; "map"])) true).
Proof.
  apply (proj2 (filtered_completions_whole_word "for"
                  (map item_of_label ["for"; "For"; "map"])) (item_of_label "For")).
  - cbn. tauto.
  - reflexivity.
Defined.

Lemma append_snoc cur a w :
  (cur +:+ String a EmptyString) +:+ w = cur +:+ String a w.
Proof.
  induction cur as [|b cur IH]; unfold String.append; fold String.append; cbn.
  - reflexivity.
  - now rewrite IH.
Qed.

Lemma append_empty_r s : s +:+ EmptyString = s.
Proof.
  induction s as [|b s IH]; unfold String.append; fold String.append; cbn;
    [reflexivity | now rewrite IH].
Qed.

Lemma split_nonword_from_word cur w s :
  JS.test_nonword w = false ->
  JS.split_nonword_from false cur (w +:+ s)
  = JS.split_nonword_from false (cur +:+ w) s.
Proof.
  revert cur. induction w as [|a w IH]; intros cur Hw.
  - now rewrite append_empty_r.
  - cbn in Hw. apply orb_false_iff in Hw. destruct Hw as [Ha Hw].
    unfold String.append at 1. fold String.append. cbn [JS.split_nonword_from].
    rewrite Ha, IH by exact Hw. now rewrite append_snoc.
Qed.

Lemma firstWord_of_leading_word w c rest :
  JS.test_nonword w = false -> JS.is_nonword c = true ->
  firstWord_of (w +:+ String c rest) = w /\ firstWord_of w = w.
Proof.
  intros Hw Hc. unfold firstWord_of, JS.split_nonword. split.
  - rewrite split_nonword_from_word by exact Hw. cbn. now rewrite Hc.
  - rewrite <- (append_empty_r w) at 1. now rewrite split_nonword_from_word.
Qed.

(** X6: only the leading word of the typed text counts: whatever follows
    its first character that is not a word character is ignored. *)
Theorem filtered_completions_use_leading_word :
  forall w c rest items canMatchWholeWord,
    JS.test_nonword w = false ->
    JS.is_nonword c = true ->
    _getFilteredCompletions (w +:+ String c rest) items canMatchWholeWord
    = _getFilteredCompletions w items canMatchWholeWord.
Proof.
  intros w c rest items canMatchWholeWord Hw Hc.
  destruct (firstWord_of_leading_word w c rest Hw Hc) as [H1 H2].
  unfold _getFilteredCompletions. now rewrite H1, H2.
Qed.

Lemma filtered_completions_use_leading_word_witness :
  _getFilteredCompletions "cd ef" (Some (map item_of_label ["cdr"; "efg"])) false
  = _getFilteredCompletions "cd" (Some (map item_of_label ["cdr"; "efg"])) false.
Proof.
  apply (filtered_completions_use_leading_word "cd" " "%char "ef"); reflexivity.
Defined.

(** ** The diagnostics tracker, in general *)

Lemma key_eqb_eq k1 k2 : key_eqb k1 k2 = true <-> k1 = k2.
Proof.
  destruct k1 as [a b], k2 as [c d]. unfold key_eqb. cbn.
  rewrite andb_true_iff, !position_eqb_eq. split; [intros [-> ->] | intros [= -> ->]]; easy.
Qed.

Lemma key_eqb_neq k1 k2 : k1 <> k2 -> key_eqb k1 k2 = false.
Proof.
  intros Hne. destruct (key_eqb k1 k2) eqn:H; [|reflexivity].
  now apply key_eqb_eq in H.
Qed.

Lemma messages_for_snoc k p d :
  messages_for k (p ++ [d])
  = messages_for k p ++ (if key_eqb (diagnostic_key d) k then [message d] else []).
Proof.
  unfold messages_for. rewrite List.filter_app, map_app. cbn.
  now destruct (key_eqb (diagnostic_key d) k).
Qed.

Lemma diagnostic_step_tracks w d p :
  tracks (diagnosticResults (this w)) p ->
  tracks (diagnosticResults (this (diagnostic_step w d))) (p ++ [d]).
Proof.
  intros (Hnd & Htext & Hcover).
  rewrite diagnostic_step_results. cbn zeta. unfold JS.findIndex.
  set (l := diagnosticResults (this w)) in *.
  set (pred := fun result : ITokenInfo => _).
  assert (forall r, pred r = key_eqb (entry_key r) (diagnostic_key d)) as Hpred
    by reflexivity.
  destruct (findIndex_from_cases pred l 0 ltac:(lia))
    as [[-> Hnone]|(k & x & -> & Hk & Hx)].
  - change (-1 <? -1) with false. cbv iota.
    assert (forall r, In r l -> entry_key r <> diagnostic_key d) as Hfresh.
    { intros r Hr Heq. specialize (Hnone r Hr). rewrite Hpred in Hnone.
      apply key_eqb_eq in Heq. congruence. }
    split; [|split].
    + rewrite map_app. cbn. apply NoDup_app. split; [exact Hnd|]. split.
      * intros key Hkey Hin. apply list_elem_of_singleton in Hin. subst key.
        apply list_elem_of_In, List.in_map_iff in Hkey.
        destruct Hkey as (r & Hr & Hin). now apply (Hfresh r).
      * apply NoDup_singleton.
    + intros j r Hj. apply lookup_app_Some in Hj.
      destruct Hj as [Hj|[_ Hj]].
      * destruct (Htext j r Hj) as [Ht Hne]. split; [|exact Hne].
        rewrite messages_for_snoc, Ht, key_eqb_neq, List.app_nil_r; [reflexivity|].
        intros Heq. apply (Hfresh r); [|now symmetry].
        apply list_elem_of_In, list_elem_of_lookup. eauto.
      * apply list_lookup_singleton_Some in Hj. destruct Hj as [_ <-]. cbn.
        split; [|discriminate].
        rewrite messages_for_snoc.
        replace (key_eqb (diagnostic_key d) (entry_key _)) with true
          by (symmetry; now apply key_eqb_eq).
        replace (messages_for _ p) with (@nil string); [reflexivity|].
        symmetry. unfold messages_for.
        rewrite filter_none; [reflexivity|]. intros d' Hd'.
        apply key_eqb_neq. intros Heq.
        destruct (Hcover d' Hd') as (r & Hr & Hkey).
        apply (Hfresh r Hr). now rewrite Hkey.
    + intros d' Hd'. apply List.in_app_or in Hd'. destruct Hd' as [Hd'|[<-|[]]].
      * destruct (Hcover d' Hd') as (r & Hr & Hkey). exists r.
        split; [apply List.in_or_app; now left | exact Hkey].
      * eexists. split; [apply List.in_or_app; right; now left | reflexivity].
  - replace (-1 <? 0 + Z.of_nat k) with true by (symmetry; apply Z.ltb_lt; lia).
    replace (Z.to_nat (0 + Z.of_nat k)) with k by lia.
    rewrite Hpred in Hx. apply key_eqb_eq in Hx.
    split; [|split].
    + unfold entry_key at 1. now rewrite keys_alter_push.
    + intros j r Hj. destruct (Nat.eq_dec j k) as [->|Hjk].
      * rewrite list_lookup_alter_eq, Hk in Hj. injection Hj as <-.
        destruct (Htext k x Hk) as [Ht Hne]. cbn. split.
        -- change (entry_key (push_message (message d) x)) with (entry_key x).
           rewrite messages_for_snoc, Ht.
           replace (key_eqb (diagnostic_key d) (entry_key x)) with true
             by (symmetry; now apply key_eqb_eq).
           reflexivity.
        -- now destruct (ti_text x).
      * rewrite list_lookup_alter_ne in Hj by congruence.
        destruct (Htext j r Hj) as [Ht Hne]. split; [|exact Hne].
        rewrite messages_for_snoc, Ht, key_eqb_neq, List.app_nil_r; [reflexivity|].
        intros Heq. apply Hjk.
        apply (NoDup_lookup (map entry_key l) j k (entry_key r) Hnd);
          rewrite list_lookup_fmap.
        -- now rewrite Hj.
        -- rewrite Hk. cbn. congruence.
    + intros d' Hd'.
      assert (exists r, In r l /\ entry_key r = diagnostic_key d') as (r & Hr & Hkey).
      { apply List.in_app_or in Hd'. destruct Hd' as [Hd'|[<-|[]]]; [now apply Hcover|].
        exists x. split; [|exact Hx].
        apply list_elem_of_In, list_elem_of_lookup. eauto. }
      apply list_elem_of_In, list_elem_of_lookup in Hr. destruct Hr as [j Hj].
      destruct (Nat.eq_dec j k) as [->|Hjk].
      * exists (push_message (message d) x). split.
        -- apply list_elem_of_In, list_elem_of_lookup. exists k.
           now rewrite list_lookup_alter_eq, Hk.
        -- rewrite Hk in Hj. injection Hj as <-. exact Hkey.
      * exists r. split; [|exact Hkey].
        apply list_elem_of_In, list_elem_of_lookup. exists j.
        now rewrite list_lookup_alter_ne by congruence.
Qed.

Lemma diagnostics_fold_tracks ds w p :
  tracks (diagnosticResults (this w)) p ->
  tracks (diagnosticResults (this (fold_left diagnostic_step ds w))) (p ++ ds).
Proof.
  revert w p. induction ds as [|d ds IH]; intros w p H; cbn [fold_left].
  - now rewrite List.app_nil_r.
  - replace (p ++ d :: ds) with ((p ++ [d]) ++ ds) by now rewrite <- List.app_assoc.
    apply IH. now apply diagnostic_step_tracks.
Qed.

(** X7: after a publication the tracker has, for every range that some
    diagnostic of the publication has, exactly one entry, and the entry
    lists the messages of the diagnostics over that range in the order of
    the publication; it has no other entry. *)
Theorem tracker_groups_messages_by_range :
  forall w u ds,
    truthy (enableDiagnostics (options (this w))) = true ->
    exists w',
      handleDiagnostic (mkPublish u (Some ds)) w = Done w'
      /\ NoDup (map entry_key (diagnosticResults (this w')))
      /\ (forall r, In r (diagnosticResults (this w')) ->
                    ti_text r = messages_for (entry_key r) ds /\ ti_text r <> [])
      /\ (forall d, In d ds ->
                    exists r, In r (diagnosticResults (this w'))
                              /\ entry_key r = diagnostic_key d).
Proof.
  intros w u ds Hen. unfold handleDiagnostic. rewrite Hen. cbn [negb diagnostics].
  change (on_editor _ (_clearDiagnostics w))
    with (before_diagnostics (mkPublish u (Some ds)) w).
  eexists. split; [reflexivity|].
  destruct (diagnostics_fold_tracks ds (before_diagnostics (mkPublish u (Some ds)) w) [])
    as (Hnd & Htext & Hcover).
  { destruct (before_diagnostics_fields (mkPublish u (Some ds)) w) as (_ & _ & -> & _).
    split; [apply NoDup_nil_2|]. split; [intros j r Hj; discriminate | intros d []]. }
  cbn [app] in *. split; [exact Hnd|]. split; [|exact Hcover].
  intros r Hr. apply list_elem_of_In, list_elem_of_lookup in Hr.
  destruct Hr as [j Hj]. now apply (Htext j).
Qed.

Lemma tracker_groups_messages_by_range_witness :
  exists w',
    handleDiagnostic two_diagnostics example_world = Done w'
    /\ NoDup (map entry_key (diagnosticResults (this w')))
    /\ (forall r, In r (diagnosticResults (this w')) ->
                  ti_text r
                  = messages_for (entry_key r)
                      [mkDiagnostic range_0_0_7 "first"; mkDiagnostic range_0_0_7 "second"]
                  /\ ti_text r <> [])
    /\ (forall d, In d [mkDiagnostic range_0_0_7 "first"; mkDiagnostic range_0_0_7 "second"] ->
                  exists r, In r (diagnosticResults (this w'))
                            /\ entry_key r = diagnostic_key d).
Proof.
  apply (tracker_groups_messages_by_range example_world "file:///a.ts"). reflexivity.
Defined.

Lemma diagnostic_step_untouched w d :
  highlightMarkers (this (diagnostic_step w d)) = highlightMarkers (this w)
  /\ hoverMarker (this (diagnostic_step w d)) = hoverMarker (this w)
  /\ tooltip (this (diagnostic_step w d)) = tooltip (this w)
  /\ isShowingContextMenu (this (diagnostic_step w d)) = isShowingContextMenu (this w)
  /\ dom (diagnostic_step w d) = dom w
  /\ connection (diagnostic_step w d) = connection w
  /\ timers (diagnostic_step w d) = timers w.
Proof.
  destruct_world w. unfold diagnostic_step, markText. cbn.
  destruct (-1 <? _); cbn; destruct (truthy _); repeat split.
Qed.

Lemma diagnostics_fold_marks ds w :
  let w' := fold_left diagnostic_step ds w in
  markedDiagnostics (this w')
  = markedDiagnostics (this w) ++ seq (next_marker (editor w)) (length ds)
  /\ marks (editor w')
     = marks (editor w)
       ++ diagnostic_marks (doc_lines (editor w)) (next_marker (editor w))
            (diagnosticMarkClassName (options (this w))) ds
  /\ options (this w') = options (this w)
  /\ highlightMarkers (this w') = highlightMarkers (this w)
  /\ hoverMarker (this w') = hoverMarker (this w).
Proof.
  revert w. induction ds as [|d ds IH]; intros w; cbn zeta.
  - cbn. now rewrite !List.app_nil_r.
  - cbn [fold_left]. destruct (IH (diagnostic_step w d)) as (-> & -> & -> & -> & ->).
    destruct (diagnostic_step_untouched w d) as (-> & -> & _).
    rewrite diagnostic_step_marked, diagnostic_step_marks,
            diagnostic_step_next_marker, diagnostic_step_options,
            diagnostic_step_doc_lines.
    unfold diagnostic_marks. cbn. now rewrite <- !List.app_assoc.
Qed.

Lemma text_mark_nonempty ls id from to cls :
  Forall (fun m => pos_ltb (marker_from m) (marker_to m) = true)
         (text_mark ls id from to cls).
Proof.
  unfold text_mark. destruct (pos_ltb _ _) eqn:Hlt; repeat constructor. exact Hlt.
Qed.

Lemma text_mark_length ls id from to cls :
  (length (text_mark ls id from to cls) <= 1)%nat.
Proof. unfold text_mark. destruct (pos_ltb _ _); cbn; lia. Qed.

Lemma text_mark_id ls id from to cls m :
  In m (text_mark ls id from to cls) -> marker_id m = id.
Proof.
  unfold text_mark. destruct (pos_ltb _ _); [|easy]. now intros [<-|[]].
Qed.

Lemma diagnostic_marks_nonempty ls n cls ds :
  Forall (fun m => pos_ltb (marker_from m) (marker_to m) = true)
         (diagnostic_marks ls n cls ds).
Proof.
  unfold diagnostic_marks. revert n.
  induction ds as [|d ds IH]; intros n; [constructor|].
  cbn. apply Forall_app. split; [apply text_mark_nonempty | apply IH].
Qed.

Lemma diagnostic_marks_length ls n cls ds :
  (length (diagnostic_marks ls n cls ds) <= length ds)%nat.
Proof.
  unfold diagnostic_marks. revert n.
  induction ds as [|d ds IH]; intros n; [cbn; lia|].
  cbn [seq length zip_with concat]. rewrite length_app. specialize (IH (S n)).
  pose proof (text_mark_length ls n (fst (diagnostic_key d)) (snd (diagnostic_key d)) cls).
  lia.
Qed.

(** X8: a publication makes one marker for each of its diagnostics, in
    order, after clearing the marks of the publication before.  A marker is
    attached, with the configured class, over its range clipped to the
    document, and not at all when the clipped range is empty: the editor's
    marks afterwards are the marks kept and the attached ones, all of them
    non-empty ranges.  The highlight markers and the hover marker of the
    adapter stay as they are. *)
Theorem publication_marks_every_diagnostic :
  forall w u ds,
    truthy (enableDiagnostics (options (this w))) = true ->
    let new_marks :=
      diagnostic_marks (doc_lines (editor w)) (next_marker (editor w))
        (diagnosticMarkClassName (options (this w))) ds in
    exists w',
      handleDiagnostic (mkPublish u (Some ds)) w = Done w'
      /\ markedDiagnostics (this w') = seq (next_marker (editor w)) (length ds)
      /\ marks (editor w')
         = List.filter (marker_kept (markedDiagnostics (this w))) (marks (editor w))
           ++ new_marks
      /\ Forall (fun m => pos_ltb (marker_from m) (marker_to m) = true) new_marks
      /\ (length new_marks <= length ds)%nat
      /\ highlightMarkers (this w') = highlightMarkers (this w)
      /\ hoverMarker (this w') = hoverMarker (this w).
Proof.
  intros w u ds Hen new_marks. subst new_marks.
  unfold handleDiagnostic. rewrite Hen. cbn [negb diagnostics].
  change (on_editor _ (_clearDiagnostics w))
    with (before_diagnostics (mkPublish u (Some ds)) w).
  eexists. split; [reflexivity|].
  destruct (diagnostics_fold_marks ds (before_diagnostics (mkPublish u (Some ds)) w))
    as (-> & -> & _ & -> & ->).
  destruct (before_diagnostics_fields (mkPublish u (Some ds)) w)
    as (-> & -> & _ & -> & -> & _ & ->).
  split; [reflexivity|]. split; [reflexivity|].
  split; [apply diagnostic_marks_nonempty|].
  split; [apply diagnostic_marks_length|].
  split.
  - unfold before_diagnostics. rewrite _clearDiagnostics_eq. now destruct_world w.
  - unfold before_diagnostics. rewrite _clearDiagnostics_eq. now destruct_world w.
Qed.

Lemma publication_marks_every_diagnostic_witness :
  exists w',
    handleDiagnostic
      (mkPublish "file:///a.ts"
         (Some [mkDiagnostic range_0_0_7 "first";
                mkDiagnostic (mkRange (mkLspPosition 0 3) (mkLspPosition 0 3)) "empty";
                mkDiagnostic (mkRange (mkLspPosition 5 0) (mkLspPosition 5 4)) "past the end";
                mkDiagnostic (mkRange (mkLspPosition 0 6) (mkLspPosition 0 40)) "long"]))
      example_world = Done w'
    /\ markedDiagnostics (this w') = [0; 1; 2; 3]%nat
    /\ marks (editor w')
       = [mkTextMarker 0 (mkPosition 0 0) (mkPosition 0 7)
                       (Some "CodeMirror-lsp-diagnostic");
          mkTextMarker 3 (mkPosition 0 6) (mkPosition 0 11)
                       (Some "CodeMirror-lsp-diagnostic")].
Proof.
  destruct (publication_marks_every_diagnostic example_world "file:///a.ts"
              [mkDiagnostic range_0_0_7 "first";
               mkDiagnostic (mkRange (mkLspPosition 0 3) (mkLspPosition 0 3)) "empty";
               mkDiagnostic (mkRange (mkLspPosition 5 0) (mkLspPosition 5 4)) "past the end";
               mkDiagnostic (mkRange (mkLspPosition 0 6) (mkLspPosition 0 40)) "long"]
              eq_refl)
    as (w' & Hrun & Hmarked & Hmarks & _).
  exists w'. split; [exact Hrun|]. split; [exact Hmarked | exact Hmarks].
Defined.

Lemma diagnostics_fold_gutter ds w l :
  gutter (editor (fold_left diagnostic_step ds w)) !! l
  = if truthy (enableGutterMarks (options (this w)))
    then match last (messages_on_line (doc_lines (editor w)) l ds) with
         | Some m => Some m
         | None => gutter (editor w) !! l
         end
    else gutter (editor w) !! l.
Proof.
  revert w. induction ds as [|d ds IH]; intros w; cbn [fold_left].
  - cbn. now destruct (truthy _).
  - rewrite IH, diagnostic_step_options, diagnostic_step_gutter,
            diagnostic_step_doc_lines.
    destruct (truthy (enableGutterMarks (options (this w)))); [|reflexivity].
    unfold messages_on_line. cbn [List.filter].
    destruct (Z.eqb_spec (clipLine (doc_lines (editor w))
                                   (lsp_line (range_start (diag_range d)))) l)
      as [->|Hne].
    + cbn [map]. rewrite lookup_insert_eq.
      destruct (map message _) as [|m ms] eqn:Hms; [reflexivity|].
      change (last (message d :: m :: ms)) with (last (m :: ms)).
      destruct (last (m :: ms)) eqn:Hl; [reflexivity|].
      apply last_None in Hl. discriminate.
    + now rewrite lookup_insert_ne.
Qed.

(** X9: with gutter marks enabled, after a publication a line has a gutter
    marker exactly when the start line of some diagnostic of the
    publication, clipped to the document, is that line, and the marker is
    titled with the message of the last such diagnostic: a diagnostic that
    starts past the last line has its marker on the last line.  With gutter
    marks disabled the gutter is empty. *)
Theorem gutter_shows_last_message_of_line :
  forall w u ds l,
    truthy (enableDiagnostics (options (this w))) = true ->
    exists w',
      handleDiagnostic (mkPublish u (Some ds)) w = Done w'
      /\ gutter (editor w') !! l
         = if truthy (enableGutterMarks (options (this w)))
           then last (messages_on_line (doc_lines (editor w)) l ds)
           else None.
Proof.
  intros w u ds l Hen. unfold handleDiagnostic. rewrite Hen. cbn [negb diagnostics].
  change (on_editor _ (_clearDiagnostics w))
    with (before_diagnostics (mkPublish u (Some ds)) w).
  eexists. split; [reflexivity|]. rewrite diagnostics_fold_gutter.
  destruct (before_diagnostics_fields (mkPublish u (Some ds)) w)
    as (-> & _ & _ & _ & _ & -> & ->).
  rewrite lookup_empty. now destruct (truthy _), (last _).
Qed.

Lemma gutter_shows_last_message_of_line_witness :
  exists w',
    handleDiagnostic
      (mkPublish "file:///a.ts"
         (Some [mkDiagnostic range_0_0_7 "first";
                mkDiagnostic (mkRange (mkLspPosition 5 0) (mkLspPosition 5 4))
                             "past the end"]))
      example_world = Done w'
    /\ gutter (editor w') !! 0 = Some "past the end"
    /\ gutter (editor w') !! 5 = None.
Proof.
  destruct (gutter_shows_last_message_of_line example_world "file:///a.ts"
              [mkDiagnostic range_0_0_7 "first";
               mkDiagnostic (mkRange (mkLspPosition 5 0) (mkLspPosition 5 4))
                            "past the end"]
              0 eq_refl) as (w' & Hrun & Hline).
  destruct (gutter_shows_last_message_of_line example_world "file:///a.ts"
              [mkDiagnostic range_0_0_7 "first";
               mkDiagnostic (mkRange (mkLspPosition 5 0) (mkLspPosition 5 4))
                            "past the end"]
              5 eq_refl) as (w'' & Hrun' & Hpast).
  rewrite Hrun in Hrun'. injection Hrun' as <-.
  exists w'. split; [exact Hrun|]. split; [exact Hline | exact Hpast].
Defined.

(** ** Hover responses *)

Lemma hover_fold_last w0 position l init :
  fold_left (hover_diagnostic w0 position) l init
  = match last (List.filter (hover_on_diagnostic position) l) with
    | Some d =>
        {| hasData := true;
           data_x := fst (charCoords (view (editor w0)) (ti_start d))
                     - fst (getScrollInfo (view (editor w0)));
           data_y := snd (charCoords (view (editor w0)) (ti_start d))
                     - snd (getScrollInfo (view (editor w0)));
           htmlElement := Some (diagnostic_list d) |}
    | None => init
    end.
Proof.
  revert init. induction l as [|d l IH]; intros init; [reflexivity|].
  cbn [fold_left List.filter]. rewrite IH. unfold hover_diagnostic.
  destruct (hover_on_diagnostic position d); [|reflexivity].
  destruct (List.filter _ l) as [|d' l'] eqn:Hl; [reflexivity|].
  change (last (d :: d' :: l')) with (last (d' :: l')).
  destruct (last (d' :: l')) eqn:Hlast; [reflexivity|].
  apply last_None in Hlast. discriminate.
Qed.


Lemma _removeHover_keeps w :
  options (this (_removeHover w)) = options (this w)
  /\ diagnosticResults (this (_removeHover w)) = diagnosticResults (this w)
  /\ hoverCharacter (this (_removeHover w)) = hoverCharacter (this w)
  /\ highlightMarkers (this (_removeHover w)) = highlightMarkers (this w)
  /\ markedDiagnostics (this (_removeHover w)) = markedDiagnostics (this w)
  /\ tooltip (this (_removeHover w)) = tooltip (this w)
  /\ isShowingContextMenu (this (_removeHover w)) = isShowingContextMenu (this w)
  /\ next_marker (editor (_removeHover w)) = next_marker (editor w)
  /\ view (editor (_removeHover w)) = view (editor w)
  /\ dom (_removeHover w) = dom w.
Proof.
  unfold _removeHover. destruct (hoverMarker (this w)); [|easy].
  now destruct_world w.
Qed.

Lemma _removeTooltip_keeps w :
  hoverMarker (this (_removeTooltip w)) = hoverMarker (this w)
  /\ diagnosticResults (this (_removeTooltip w)) = diagnosticResults (this w)
  /\ hoverCharacter (this (_removeTooltip w)) = hoverCharacter (this w)
  /\ markedDiagnostics (this (_removeTooltip w)) = markedDiagnostics (this w)
  /\ tooltip (this (_removeTooltip w)) = tooltip (this w)
  /\ timers (_removeTooltip w) = timers w.
Proof.
  unfold _removeTooltip. destruct (tooltip (this w)) eqn:Ht; [|easy].
  destruct_world w. cbn in *. now subst.
Qed.



Lemma hover_data_shown_later w0 w1 position :
  view (editor w1) = view (editor w0) ->
  diagnosticResults (this w1) = diagnosticResults (this w0) ->
  _showTooltipWithData
    (fold_left (hover_diagnostic w0 position) (diagnosticResults (this w0))
       {| hasData := false; data_x := 0; data_y := 0; htmlElement := None |}) w1
  = show_diagnostics_under position w1.
Proof.
  intros Hv Hd. rewrite hover_fold_last.
  unfold show_diagnostics_under, diagnostics_under, show_diagnostic.
  rewrite Hd, Hv. now destruct (last _).
Qed.

Lemma _showTooltip_keeps el x y w :
  editor (_showTooltip el x y w) = editor w
  /\ hoverMarker (this (_showTooltip el x y w)) = hoverMarker (this w)
  /\ connection (_showTooltip el x y w) = connection w
  /\ timers (_showTooltip el x y w) = timers w.
Proof.
  unfold _showTooltip.
  assert (editor (if isShowingContextMenu (this w) then _removeTooltip w else w)
          = editor w
          /\ hoverMarker (this (if isShowingContextMenu (this w)
                                then _removeTooltip w else w))
             = hoverMarker (this w)
          /\ connection (if isShowingContextMenu (this w) then _removeTooltip w else w)
             = connection w
          /\ timers (if isShowingContextMenu (this w) then _removeTooltip w else w)
             = timers w) as H.
  { destruct (isShowingContextMenu (this w)); [|easy].
    destruct (_removeTooltip_frame w) as (_ & _ & _ & -> & ->).
    now destruct (_removeTooltip_keeps w) as (-> & _ & _ & _ & _ & ->). }
  revert H. generalize (if isShowingContextMenu (this w) then _removeTooltip w else w).
  intros w1 (<- & <- & <- & <-). now destruct_world w1.
Qed.

Lemma show_diagnostics_under_keeps position w :
  editor (show_diagnostics_under position w) = editor w
  /\ hoverMarker (this (show_diagnostics_under position w)) = hoverMarker (this w).
Proof.
  unfold show_diagnostics_under, show_diagnostic. destruct (last _); [|easy].
  now destruct (_showTooltip_keeps (diagnostic_list i)
                  (fst (charCoords (view (editor w)) (ti_start i))
                   - fst (getScrollInfo (view (editor w))))
                  (snd (charCoords (view (editor w)) (ti_start i))
                   - snd (getScrollInfo (view (editor w)))) w) as (-> & -> & _).
Qed.

Lemma mark_hover_fields r w :
  hoverMarker (this (mark_hover r w)) = Some (next_marker (editor w))
  /\ marks (editor (mark_hover r w))
     = marks (editor w)
       ++ text_mark (doc_lines (editor w)) (next_marker (editor w))
            (position_of (range_start r)) (position_of (range_end r))
            (Some "CodeMirror-lsp-hover")
  /\ view (editor (mark_hover r w)) = view (editor w)
  /\ diagnosticResults (this (mark_hover r w)) = diagnosticResults (this w).
Proof. now destruct_world w. Qed.

Lemma handleHover_with_range marked_parse c r position w :
  truthy (enableHoverInfo (options (this w))) = true ->
  no_contents (Some c) = false ->
  let w0 := _removeTooltip (_removeHover w) in
  let w1 := mark_hover r w0 in
  (handleHover marked_parse (Some (mkHover (Some c) (Some r))) position w
   = Done (show_diagnostics_under position w1))
  \/ ((ch position <? character (range_start r)) = false
      /\ (character (range_end r) <? ch position) = false
      /\ line position = lsp_line (range_start r)
      /\ line position = lsp_line (range_end r)
      /\ exists el x y,
           handleHover marked_parse (Some (mkHover (Some c) (Some r))) position w
           = Done (_showTooltip el x y w1)).
Proof.
  intros Hen Hc w0 w1. unfold handleHover. fold w0.
  destruct (_removeHover_keeps w) as (Ho & _).
  destruct (_removeTooltip_frame (_removeHover w)) as (Ho' & _).
  fold w0 in Ho'. rewrite Ho', Ho, Hen. cbn [negb orb contents hover_range].
  rewrite Hc.
  change (let (m, w2) := markText (position_of (range_start r))
                                  (position_of (range_end r))
                                  (Some "CodeMirror-lsp-hover") w0 in
          (Some (position_of (range_start r)), Some (position_of (range_end r)),
           on_this (set_hoverMarker (Some m)) w2))
    with (Some (position_of (range_start r)), Some (position_of (range_end r)), w1).
  cbn [position_of line ch].
  change (default (ContentsArray []) (Some c)) with c.
  destruct (mark_hover_fields r w0) as (_ & _ & Hv & Hd). fold w1 in Hv, Hd.
  pose proof (hover_data_shown_later w0 w1 position Hv Hd) as Hshown.
  destruct (ch position <? character (range_start r)) eqn:H1;
    [left; cbn [orb]; now rewrite Hshown|].
  destruct (character (range_end r) <? ch position) eqn:H2;
    [left; cbn [orb]; now rewrite Hshown|].
  destruct (Z.eqb_spec (line position) (lsp_line (range_start r))) as [H3|H3];
    [|left; cbn [orb negb]; now rewrite Hshown].
  destruct (Z.eqb_spec (line position) (lsp_line (range_end r))) as [H4|H4];
    [|left; cbn [orb negb]; now rewrite Hshown].
  cbn [negb orb].
  destruct (hover_text c) as [[tooltipText isMarkdown]|];
    [|left; now rewrite Hshown].
  right. repeat split; try assumption. eauto.
Qed.

Lemma _removeHover_marks w :
  marks (editor (_removeHover w))
  = match hoverMarker (this w) with
    | Some m => List.filter (fun k => negb (Nat.eqb (marker_id k) m)) (marks (editor w))
    | None => marks (editor w)
    end
  /\ doc_lines (editor (_removeHover w)) = doc_lines (editor w).
Proof.
  unfold _removeHover. destruct (hoverMarker (this w)); [|easy].
  now destruct_world w.
Qed.

(** X11: when hover info is enabled and the response has contents and a
    range, the call returns and the range gets the hover marker wherever
    the position is: the mark of the hover marker before is cleared, the
    new marker is the adapter's hover marker, and it is attached over the
    range clipped to the document, unless the clipped range is empty. *)
Theorem hover_range_is_always_marked :
  forall marked_parse c r position w,
    truthy (enableHoverInfo (options (this w))) = true ->
    no_contents (Some c) = false ->
    let ls := doc_lines (editor w) in
    let n := next_marker (editor w) in
    let from := clipPos ls (position_of (range_start r)) in
    let to := clipPos ls (position_of (range_end r)) in
    exists w',
      handleHover marked_parse (Some (mkHover (Some c) (Some r))) position w = Done w'
      /\ hoverMarker (this w') = Some n
      /\ marks (editor w')
         = match hoverMarker (this w) with
           | Some m =>
               List.filter (fun k => negb (Nat.eqb (marker_id k) m)) (marks (editor w))
           | None => marks (editor w)
           end
           ++ (if pos_ltb from to
               then [mkTextMarker n from to (Some "CodeMirror-lsp-hover")]
               else []).
Proof.
  intros marked_parse c r position w Hen Hc ls n from to. subst ls n from to.
  destruct (_removeHover_keeps w) as (_ & _ & _ & _ & _ & _ & _ & Hn & _).
  destruct (_removeHover_marks w) as (Hkept & Hdl).
  destruct (_removeTooltip_frame (_removeHover w)) as (_ & _ & _ & He & _).
  destruct (mark_hover_fields r (_removeTooltip (_removeHover w))) as (Hm & Hmarks & _).
  rewrite He in Hm, Hmarks. rewrite Hn in Hm. rewrite Hn, Hdl, Hkept in Hmarks.
  unfold text_mark in Hmarks.
  destruct (handleHover_with_range marked_parse c r position w Hen Hc)
    as [->|(_ & _ & _ & _ & el & x & y & ->)]; eexists; (split; [reflexivity|]).
  - destruct (show_diagnostics_under_keeps position
                (mark_hover r (_removeTooltip (_removeHover w)))) as (-> & ->).
    split; [exact Hm | exact Hmarks].
  - destruct (_showTooltip_keeps el x y
                (mark_hover r (_removeTooltip (_removeHover w)))) as (-> & -> & _).
    split; [exact Hm | exact Hmarks].
Qed.

Lemma hover_range_is_always_marked_witness :
  (exists w',
      handleHover (fun s => s)
        (Some (mkHover (Some (ContentsMarkup "plaintext" "const x"))
                       (Some (mkRange (mkLspPosition 0 6) (mkLspPosition 0 40)))))
        (mkPosition 3 0) hovering_world = Done w'
      /\ hoverMarker (this w') = Some 1%nat
      /\ marks (editor w')
         = [mkTextMarker 1 (mkPosition 0 6) (mkPosition 0 11)
                         (Some "CodeMirror-lsp-hover")])
  /\ (exists w',
        handleHover (fun s => s)
          (Some (mkHover (Some (ContentsMarkup "plaintext" "const x"))
                         (Some (mkRange (mkLspPosition 0 3) (mkLspPosition 0 3)))))
          (mkPosition 0 3) hovering_world = Done w'
        /\ hoverMarker (this w') = Some 1%nat
        /\ marks (editor w') = []).
Proof.
  split.
  - exact (hover_range_is_always_marked (fun s => s)
             (ContentsMarkup "plaintext" "const x")
             (mkRange (mkLspPosition 0 6) (mkLspPosition 0 40))
             (mkPosition 3 0) hovering_world eq_refl eq_refl).
  - exact (hover_range_is_always_marked (fun s => s)
             (ContentsMarkup "plaintext" "const x")
             (mkRange (mkLspPosition 0 3) (mkLspPosition 0 3))
             (mkPosition 0 3) hovering_world eq_refl eq_refl).
Defined.

(** X12: the hover text is shown only for a position on the single line of
    the response's range: for a range that ends on another line than it
    starts on, the response only marks the range and shows what a response
    without contents would show, the diagnostics under the position. *)
Theorem hover_text_needs_single_line_range :
  forall marked_parse c r position w,
    truthy (enableHoverInfo (options (this w))) = true ->
    no_contents (Some c) = false ->
    lsp_line (range_start r) <> lsp_line (range_end r) ->
    handleHover marked_parse (Some (mkHover (Some c) (Some r))) position w
    = Done (show_diagnostics_under position
              (mark_hover r (_removeTooltip (_removeHover w)))).
Proof.
  intros marked_parse c r position w Hen Hc Hlines.
  destruct (handleHover_with_range marked_parse c r position w Hen Hc)
    as [->|(_ & _ & H3 & H4 & _)]; [reflexivity | congruence].
Qed.

Lemma hover_text_needs_single_line_range_witness :
  handleHover (fun s => s)
    (Some (mkHover (Some (ContentsMarkup "markdown" "text"))
                   (Some (mkRange (mkLspPosition 0 0) (mkLspPosition 1 4)))))
    (mkPosition 0 2) example_world
  = Done (show_diagnostics_under (mkPosition 0 2)
            (mark_hover (mkRange (mkLspPosition 0 0) (mkLspPosition 1 4))
               (_removeTooltip (_removeHover example_world)))).
Proof.
  apply hover_text_needs_single_line_range; [reflexivity | reflexivity | discriminate].
Defined.



(** ** The context menu *)

(** X14: a right click inside the editor on a token offers exactly the
    features the server supports, in the order definition, type definition,
    references, each for the position under the pointer.  With no
    supported feature nothing happens and the event keeps its default;
    otherwise the default is prevented, and the entries go to the provider
    of the options when there is one, else into a tooltip at the pointer. *)
Theorem context_menu_offers_supported_features :
  forall ev w,
    _isEventInsideVisible ev = inr true ->
    _isEventOnCharacter ev w = true ->
    let p := coordsChar (view (editor w)) (clientX ev) (clientY ev) in
    let fs := menu_features (connection w) p in
    let rc := _handleRightClick ev w in
    fs = (if definitionSupported (connection w)
          then [("Go to Definition", getDefinition p)] else [])
         ++ (if typeDefinitionSupported (connection w)
             then [("Go to Type Definition", getTypeDefinition p)] else [])
         ++ (if referencesSupported (connection w)
             then [("Find all References", getReferences p)] else [])
    /\ (fs = [] -> rc = click_ignored (Done w))
    /\ (fs <> [] ->
        defaultPrevented rc = true
        /\ (contextMenuProvider (options (this w)) = true ->
            provided rc = Some fs /\ after_click rc = Done w)
        /\ (contextMenuProvider (options (this w)) = false ->
            provided rc = None
            /\ menu_actions rc = map snd fs
            /\ after_click rc
               = Done (_showTooltip (menu_element fs)
                                    (clientX ev - 4) (clientY ev + 8) w))).
Proof.
  intros ev w Hin Hchar p fs rc. subst rc. unfold _handleRightClick.
  rewrite Hin, Hchar. cbn [negb]. fold p. fold fs. split; [reflexivity|].
  subst fs. unfold menu_features.
  destruct (definitionSupported (connection w)),
           (typeDefinitionSupported (connection w)),
           (referencesSupported (connection w)); cbn [negb andb app];
    (split; [try discriminate; reflexivity|]); intros Hfs; try easy;
    (split; [now destruct (contextMenuProvider _)|]);
    split; intros ->; repeat split.
Qed.

Lemma context_menu_offers_supported_features_witness :
  let ev := mkMouseEvent 8 0 [mkDomElement ["CodeMirror-line"] "PRE" false;
                              mkDomElement ["CodeMirror"] "DIV" false;
                              mkDomElement [] "BODY" true] in
  menu_actions (_handleRightClick ev example_world)
  = [getDefinition (mkPosition 0 1); getReferences (mkPosition 0 1)].
Proof.
  intros ev.
  destruct (context_menu_offers_supported_features ev example_world eq_refl eq_refl)
    as (_ & _ & Hmenu).
  destruct (Hmenu ltac:(discriminate)) as (_ & _ & Hbuiltin).
  destruct (Hbuiltin eq_refl) as (_ & -> & _). reflexivity.
Defined.

(** ** Applying a hint *)

Lemma remove_placeholders_lacks s :
  lacks "$" s = true -> JSText.remove_placeholders s = s.
Proof.
  induction s as [|a s IH]; intros Hs; [reflexivity|].
  cbn in Hs. apply andb_true_iff in Hs. destruct Hs as [Ha Hs].
  cbn [JSText.remove_placeholders]. destruct s as [|b s]; [reflexivity|].
  apply negb_true_iff in Ha. rewrite Ha. cbn [andb]. now rewrite IH.
Qed.

Lemma prefix_placeholder_lacks a s :
  Ascii.eqb a "$" = false -> String.prefix "$0" (String a s) = false.
Proof.
  intros Ha.
  change (String.prefix "$0" (String a s))
    with (if Ascii.ascii_dec "$" a then String.prefix "0" s else false).
  destruct (Ascii.ascii_dec "$" a) as [<-|_]; [discriminate | reflexivity].
Qed.

Lemma prefix_placeholder_here post :
  String.prefix "$0" (String "$" (String "0" post)) = true.
Proof. now destruct post. Qed.

Lemma includes_lacks s : lacks "$" s = true -> JSText.includes s "$0" = false.
Proof.
  induction s as [|a s IH]; intros Hs; [reflexivity|].
  cbn in Hs. apply andb_true_iff in Hs. destruct Hs as [Ha Hs].
  apply negb_true_iff in Ha. cbn [JSText.includes].
  now rewrite prefix_placeholder_lacks, IH.
Qed.

Lemma remove_placeholders_one pre post :
  lacks "$" pre = true ->
  lacks "$" post = true ->
  JSText.remove_placeholders (pre +:+ "$0" +:+ post) = pre +:+ post.
Proof.
  intros Hpre Hpost.
  change ("$0" +:+ post) with (String "$" (String "0" post)).
  induction pre as [|a pre IH].
  - change ("" +:+ String "$" (String "0" post)) with (String "$" (String "0" post)).
    change ("" +:+ post) with post.
    cbn. now apply remove_placeholders_lacks.
  - cbn in Hpre. apply andb_true_iff in Hpre. destruct Hpre as [Ha Hpre].
    apply negb_true_iff in Ha.
    unfold String.append; fold String.append.
    cbn [JSText.remove_placeholders].
    rewrite IH by exact Hpre. rewrite Ha. cbn [andb].
    destruct (pre +:+ String "$" (String "0" post)) eqn:Hrest; [|reflexivity].
    destruct pre; discriminate.
Qed.

Lemma includes_one pre post : JSText.includes (pre +:+ "$0" +:+ post) "$0" = true.
Proof.
  change ("$0" +:+ post) with (String "$" (String "0" post)).
  induction pre as [|a pre IH].
  - change ("" +:+ String "$" (String "0" post)) with (String "$" (String "0" post)).
    cbn [JSText.includes]. now rewrite prefix_placeholder_here.
  - unfold String.append; fold String.append. cbn [JSText.includes].
    rewrite IH. apply orb_true_r.
Qed.

Lemma lastIndexOf_from_lacks s i found :
  lacks "$" s = true -> JSText.lastIndexOf_from s "$0" i found = found.
Proof.
  revert i found. induction s as [|a s IH]; intros i found Hs; [reflexivity|].
  cbn in Hs. apply andb_true_iff in Hs. destruct Hs as [Ha Hs].
  apply negb_true_iff in Ha. cbn [JSText.lastIndexOf_from].
  rewrite prefix_placeholder_lacks by exact Ha. now apply IH.
Qed.

Lemma lastIndexOf_from_one pre post i found :
  lacks "$" pre = true ->
  lacks "$" post = true ->
  JSText.lastIndexOf_from (pre +:+ "$0" +:+ post) "$0" i found
  = i + JS.strlen pre.
Proof.
  intros Hpre Hpost. revert i found.
  change ("$0" +:+ post) with (String "$" (String "0" post)).
  induction pre as [|a pre IH]; intros i found.
  - change ("" +:+ String "$" (String "0" post)) with (String "$" (String "0" post)).
    cbn [JSText.lastIndexOf_from].
    rewrite prefix_placeholder_here.
    replace (String.prefix "$0" (String "0" post)) with false by reflexivity.
    rewrite lastIndexOf_from_lacks by exact Hpost. unfold JS.strlen. cbn. lia.
  - cbn in Hpre. apply andb_true_iff in Hpre. destruct Hpre as [Ha Hpre].
    apply negb_true_iff in Ha.
    unfold String.append; fold String.append. cbn [JSText.lastIndexOf_from].
    rewrite prefix_placeholder_lacks by exact Ha.
    rewrite IH by exact Hpre. unfold JS.strlen. cbn [String.length]. lia.
Qed.

Lemma split_lines_from_lacks cur s :
  lacks JS.newline s = true -> JS.split_lines_from cur s = [cur +:+ s].
Proof.
  revert cur. induction s as [|a s IH]; intros cur Hs.
  - cbn. now rewrite append_empty_r.
  - cbn in Hs. apply andb_true_iff in Hs. destruct Hs as [Ha Hs].
    apply negb_true_iff in Ha. cbn [JS.split_lines_from]. rewrite Ha.
    rewrite IH by exact Hs. now rewrite append_snoc.
Qed.

Lemma lacks_app c s t :
  lacks c (s +:+ t) = lacks c s && lacks c t.
Proof.
  induction s as [|a s IH]; unfold String.append; fold String.append; cbn;
    [reflexivity | now rewrite IH, andb_assoc].
Qed.

(** X15: a hint whose text has no dollar sign is inserted as it is, from
    the range of the completion when it has one, else from the range of the
    hint data, and the cursor is not moved. *)
Theorem hint_without_placeholder_is_inserted_unchanged :
  forall data_from data_to completion,
    lacks "$" (_getText completion) = true ->
    apply_hint data_from data_to completion
    = [replaceRange (_getText completion)
         (default data_from (completion_from completion))
         (default data_to (completion_to completion)) "complete"].
Proof.
  intros data_from data_to completion Hs. unfold apply_hint.
  now rewrite remove_placeholders_lacks, includes_lacks.
Qed.

Lemma hint_without_placeholder_is_inserted_unchanged_witness :
  apply_hint (mkPosition 2 4) (mkPosition 2 6) (CompletionString "length")
  = [replaceRange "length" (mkPosition 2 4) (mkPosition 2 6) "complete"].
Proof. apply hint_without_placeholder_is_inserted_unchanged. reflexivity. Defined.

(** X16: a one-line snippet with one placeholder is inserted without the
    placeholder, and the cursor is set on the line of the insertion at the
    column the placeholder has inside the snippet: the column where the
    insertion starts is not added. *)
Theorem hint_placeholder_column_is_relative_to_snippet :
  forall data_from data_to completion pre post,
    _getText completion = pre +:+ "$0" +:+ post ->
    lacks "$" pre = true -> lacks "$" post = true ->
    lacks JS.newline pre = true -> lacks JS.newline post = true ->
    let from := default data_from (completion_from completion) in
    apply_hint data_from data_to completion
    = [replaceRange (pre +:+ post) from
         (default data_to (completion_to completion)) "complete";
       setCursor (line from) (JS.strlen pre)].
Proof.
  intros data_from data_to completion pre post Htext Hpre Hpost Hnl Hnl' from.
  unfold apply_hint. fold from. rewrite Htext.
  rewrite remove_placeholders_one, includes_one by assumption.
  unfold JS.split_lines. rewrite split_lines_from_lacks.
  - change ("" +:+ pre +:+ "$0" +:+ post) with (pre +:+ "$0" +:+ post).
    cbn [placeholder_loop]. unfold placeholder_step, JSText.lastIndexOf. rewrite lastIndexOf_from_one by assumption.
    replace (-1 <? 0 + JS.strlen pre) with true
      by (symmetry; apply Z.ltb_lt; unfold JS.strlen; lia).
    cbn [fst snd]. do 2 f_equal. f_equal; lia.
  - rewrite !lacks_app, Hnl, Hnl'. reflexivity.
Qed.

Lemma hint_placeholder_column_is_relative_to_snippet_witness :
  apply_hint (mkPosition 2 10) (mkPosition 2 12) (CompletionString "log($0)")
  = [replaceRange "log()" (mkPosition 2 10) (mkPosition 2 12) "complete";
     setCursor 2 4].
Proof.
  apply (hint_placeholder_column_is_relative_to_snippet
           (mkPosition 2 10) (mkPosition 2 12) (CompletionString "log($0)") "log(" ")");
    reflexivity.
Defined.

(** ** One tooltip at a time *)

Lemma overlay_ok_same w w' :
  overlay_of w' = overlay_of w -> overlay_ok w -> overlay_ok w'.
Proof.
  unfold overlay_of, overlay_ok, tooltip_nodes. intros [= -> -> ->]. easy.
Qed.

Lemma tooltip_nodes_without t nodes :
  (forall n, In n nodes ->
             has_class "CodeMirror-lsp-tooltip" (node_classes n) = true ->
             node_id n = t) ->
  List.filter (fun n => has_class "CodeMirror-lsp-tooltip" (node_classes n))
              (List.filter (fun n => negb (Nat.eqb (node_id n) t)) nodes) = [].
Proof.
  intros Hids. rewrite filter_filter. apply filter_none. intros n Hn.
  destruct (has_class _ (node_classes n)) eqn:Hc; [|apply andb_false_r].
  rewrite (Hids n Hn Hc), Nat.eqb_refl. reflexivity.
Qed.

Lemma _removeTooltip_overlay w :
  overlay_ok w ->
  overlay_ok (_removeTooltip w)
  /\ isShowingContextMenu (this (_removeTooltip w)) = false.
Proof.
  intros Hok. unfold _removeTooltip.
  destruct (tooltip (this w)) as [t|] eqn:Ht.
  - assert (forall n, In n (wrapper_nodes (dom w)) ->
                      has_class "CodeMirror-lsp-tooltip" (node_classes n) = true ->
                      node_id n = t) as Hids.
    { intros n Hn Hc. unfold overlay_ok, tooltip_nodes in Hok.
      assert (In n (List.filter
                      (fun n => has_class "CodeMirror-lsp-tooltip" (node_classes n))
                      (wrapper_nodes (dom w)))) as Hin
          by (apply List.filter_In; now split).
      destruct (isShowingContextMenu (this w)).
      - destruct Hok as (t' & Ht' & Hone). rewrite Ht in Ht'. injection Ht' as <-.
        apply (List.in_map node_id) in Hin. rewrite Hone in Hin.
        now destruct Hin as [<-|[]].
      - now rewrite Hok in Hin. }
    apply tooltip_nodes_without in Hids. clear Hok Ht.
    destruct_world w. unfold overlay_ok, tooltip_nodes. cbn in *. now split.
  - split; [exact Hok|]. unfold overlay_ok in Hok.
    destruct (isShowingContextMenu (this w)); [|reflexivity].
    destruct Hok as (t & Hsome & _). congruence.
Qed.

Lemma _showTooltip_overlay el x y w :
  overlay_ok w -> overlay_ok (_showTooltip el x y w).
Proof.
  intros Hok. unfold _showTooltip.
  assert (overlay_ok (if isShowingContextMenu (this w) then _removeTooltip w else w)
          /\ tooltip_nodes (if isShowingContextMenu (this w)
                            then _removeTooltip w else w) = []) as [_ Hnone].
  { destruct (isShowingContextMenu (this w)) eqn:Hs.
    - destruct (_removeTooltip_overlay w Hok) as [Hok' Hs'].
      split; [exact Hok'|]. unfold overlay_ok in Hok'. now rewrite Hs' in Hok'.
    - split; [exact Hok|]. unfold overlay_ok in Hok. now rewrite Hs in Hok. }
  revert Hnone. generalize (if isShowingContextMenu (this w) then _removeTooltip w else w).
  intros w1 Hnone. destruct_world w1. unfold overlay_ok, tooltip_nodes in *. cbn in *.
  eexists. split; [reflexivity|].
  now rewrite List.filter_app, Hnone.
Qed.

Lemma overlay_of_clear_markers ids w :
  overlay_of (clear_markers ids w) = overlay_of w.
Proof. rewrite clear_markers_eq. now destruct_world w. Qed.

Lemma overlay_of__removeHover w : overlay_of (_removeHover w) = overlay_of w.
Proof.
  unfold _removeHover. destruct (hoverMarker (this w)); [|reflexivity].
  now destruct_world w.
Qed.

Lemma overlay_of__clearDiagnostics w :
  overlay_of (_clearDiagnostics w) = overlay_of w.
Proof. rewrite _clearDiagnostics_eq. now destruct_world w. Qed.

Lemma overlay_of__unhighlightRanges w :
  overlay_of (_unhighlightRanges w) = overlay_of w.
Proof. rewrite _unhighlightRanges_eq. now destruct_world w. Qed.

Lemma overlay_of_highlight_fold items w :
  overlay_of (fold_left highlight_one items w) = overlay_of w.
Proof.
  revert w. induction items as [|item items IH]; intros w; [reflexivity|].
  cbn [fold_left]. rewrite IH. now destruct_world w.
Qed.

Lemma overlay_of__highlightRanges items w :
  overlay_of (_highlightRanges items w) = overlay_of w.
Proof.
  unfold _highlightRanges. destruct items.
  - apply overlay_of__unhighlightRanges.
  - rewrite overlay_of_highlight_fold. apply overlay_of__unhighlightRanges.
Qed.

Lemma overlay_of_diagnostics_fold ds w :
  overlay_of (fold_left diagnostic_step ds w) = overlay_of w.
Proof.
  revert w. induction ds as [|d ds IH]; intros w; [reflexivity|].
  cbn [fold_left]. rewrite IH. unfold overlay_of.
  now destruct (diagnostic_step_untouched w d) as (_ & _ & -> & -> & -> & _).
Qed.

Lemma handleDiagnostic_overlay response w :
  overlay_of (world_of (handleDiagnostic response w)) = overlay_of w.
Proof.
  unfold handleDiagnostic. destruct (negb _); [reflexivity|].
  assert (overlay_of
            (on_editor (fun e => set_signalled (signalled e ++ [diagnostics response]) e)
                       (_clearDiagnostics w)) = overlay_of w) as H.
  { rewrite <- (overlay_of__clearDiagnostics w).
    now destruct_world (_clearDiagnostics w). }
  destruct (diagnostics response); cbn [world_of]; [|exact H].
  now rewrite overlay_of_diagnostics_fold.
Qed.

Lemma _removeSignatureWidget_overlay w :
  overlay_ok w -> overlay_ok (_removeSignatureWidget w).
Proof.
  intros Hok. unfold _removeSignatureWidget.
  assert (overlay_ok (match signatureWidget (this w) with
                      | Some _ => on_this (set_signatureWidget None) w
                      | None => w
                      end)) as Hok'.
  { destruct (signatureWidget (this w)); [|exact Hok].
    apply (overlay_ok_same w); [now destruct_world w | exact Hok]. }
  revert Hok'. generalize (match signatureWidget (this w) with
                           | Some _ => on_this (set_signatureWidget None) w
                           | None => w
                           end).
  intros w1 Hok1. destruct (tooltip (this w1)); [|exact Hok1].
  now apply _removeTooltip_overlay.
Qed.

Lemma handleSignature_overlay result w :
  overlay_ok w -> overlay_ok (world_of (handleSignature result w)).
Proof.
  intros Hok. unfold handleSignature.
  pose proof (proj1 (_removeTooltip_overlay _ (_removeSignatureWidget_overlay w Hok)))
    as Hok1.
  revert Hok1. generalize (_removeTooltip (_removeSignatureWidget w)). intros w1 Hok1.
  destruct (negb _); [exact Hok1|].
  destruct result as [r|]; [|exact Hok1].
  destruct (signatures r) as [sigs|]; [|exact Hok1].
  destruct sigs, (token (this w1)); cbn [world_of]; try exact Hok1.
  now apply _showTooltip_overlay.
Qed.

Lemma handleGoTo_overlay location w :
  overlay_ok w -> overlay_ok (world_of (handleGoTo location w)).
Proof.
  intros Hok. unfold handleGoTo.
  pose proof (proj1 (_removeTooltip_overlay w Hok)) as Hok1.
  revert Hok1. generalize (_removeTooltip w). intros w1 Hok1.
  assert (forall items p,
             overlay_ok (scrollIntoView p (_highlightRanges items w1))) as Hscroll.
  { intros items p. apply (overlay_ok_same w1); [|exact Hok1].
    rewrite <- (overlay_of__highlightRanges items w1).
    now destruct_world (_highlightRanges items w1). }
  assert (forall items, overlay_ok (_highlightRanges items w1)) as Hhigh.
  { intros items. apply (overlay_ok_same w1); [|exact Hok1].
    apply overlay_of__highlightRanges. }
  destruct location as [|l|items]; [exact Hok1| |].
  - destruct (negb _); [exact Hok1 | apply Hscroll].
  - destruct (forallb is_Location items).
    + destruct (_ !! 0%nat); cbn [world_of]; [apply Hscroll | apply Hhigh].
    + destruct (forallb is_LocationLink items).
      * destruct (_ !! 0%nat); cbn [world_of]; [apply Hscroll | apply Hhigh].
      * cbn [world_of]. apply (overlay_ok_same w1); [|exact Hok1].
        now destruct_world w1.
Qed.

Lemma show_diagnostics_under_overlay position w :
  overlay_ok w -> overlay_ok (show_diagnostics_under position w).
Proof.
  intros Hok. unfold show_diagnostics_under, show_diagnostic.
  destruct (last _); [now apply _showTooltip_overlay | exact Hok].
Qed.

Lemma handleHover_overlay marked_parse response position w :
  overlay_ok w -> overlay_ok (world_of (handleHover marked_parse response position w)).
Proof.
  intros Hok. unfold handleHover.
  assert (overlay_ok (_removeTooltip (_removeHover w))) as Hok0.
  { apply _removeTooltip_overlay.
    apply (overlay_ok_same w); [apply overlay_of__removeHover | exact Hok]. }
  revert Hok0. generalize (_removeTooltip (_removeHover w)). intros w0 Hok0.
  set (data := fold_left _ _ _).
  assert (forall w1, overlay_ok w1 -> overlay_ok (_showTooltipWithData data w1)) as Hdata.
  { intros w1 Hok1. unfold _showTooltipWithData.
    destruct (hasData data), (htmlElement data); try exact Hok1.
    now apply _showTooltip_overlay. }
  destruct response as [r|]; cbn [world_of]; [|now apply Hdata].
  destruct (negb _ || _); cbn [world_of]; [now apply Hdata|].
  assert (forall rg, overlay_ok (mark_hover rg w0)) as Hmark.
  { intros rg. apply (overlay_ok_same w0); [now destruct_world w0 | exact Hok0]. }
  destruct (hover_range r) as [rg|].
  - change (let (m, w2) := markText (position_of (range_start rg))
                                    (position_of (range_end rg))
                                    (Some "CodeMirror-lsp-hover") w0 in
            (Some (position_of (range_start rg)), Some (position_of (range_end rg)),
             on_this (set_hoverMarker (Some m)) w2))
      with (Some (position_of (range_start rg)), Some (position_of (range_end rg)),
            mark_hover rg w0).
    cbv iota beta.
    destruct (_ || _); cbn [world_of]; [now apply Hdata|].
    destruct (hover_text _) as [[tooltipText isMarkdown]|]; cbn [world_of];
      [now apply _showTooltip_overlay | now apply Hdata].
  - cbv iota beta. destruct (hoverCharacter (this w0)); cbn [world_of]; [|exact Hok0].
    destruct (_ || _); cbn [world_of]; [now apply Hdata|].
    destruct (hover_text _) as [[tooltipText isMarkdown]|]; cbn [world_of];
      [now apply _showTooltip_overlay | now apply Hdata].
Qed.

Lemma handleChange_overlay w :
  overlay_ok w -> overlay_ok (world_of (handleChange w)).
Proof.
  intros Hok. unfold handleChange.
  assert (overlay_ok (call sendChange w)) as Hok1
    by (apply (overlay_ok_same w); [now destruct_world w | exact Hok]).
  revert Hok1. generalize (call sendChange w). intros w1 Hok1.
  assert (forall r, overlay_ok (world_of (set_token_result r w1))) as Htok.
  { intros [e|t]; cbn; [exact Hok1|].
    apply (overlay_ok_same w1); [now destruct_world w1 | exact Hok1]. }
  destruct (JS.nth_value _ _) as [ln|]; cbn [world_of]; [|exact Hok1].
  destruct (JS.char_at ln _) as [typedCharacter|]; cbn [world_of];
    [|now apply _removeSignatureWidget_overlay].
  destruct (-1 <? _).
  { destruct (_getTokenEndingAtPosition _ _ _) as [e|t]; cbn; [exact Hok1|].
    apply (overlay_ok_same w1); [now destruct_world w1 | exact Hok1]. }
  destruct (-1 <? _).
  { destruct (_getTokenEndingAtPosition _ _ _) as [e|t]; cbn; [exact Hok1|].
    apply (overlay_ok_same w1); [now destruct_world w1 | exact Hok1]. }
  destruct (negb _); [|now apply _removeSignatureWidget_overlay].
  destruct (_getTokenEndingAtPosition _ _ _) as [e|t]; cbn;
    (apply (overlay_ok_same w1); [now destruct_world w1 | exact Hok1]).
Qed.

Lemma handleMouseOver_overlay ev w :
  overlay_ok w -> overlay_ok (world_of (handleMouseOver ev w)).
Proof.
  intros Hok. unfold handleMouseOver.
  destruct (negb _); [exact Hok|].
  destruct (_isEventOnTooltip ev w) as [e|[|]]; cbn [world_of]; try exact Hok.
  destruct (_isEventInsideVisible ev) as [e|[|]]; cbn [world_of]; try exact Hok.
  - assert (forall p, overlay_ok (call_debouncedGetHover p
                                    (on_this (set_hoverCharacter (Some p)) w))) as Hp.
    { intros p. apply (overlay_ok_same w); [now destruct_world w | exact Hok]. }
    destruct (hoverCharacter (this w)); [destruct (position_eqb _ _)|];
      cbn [world_of]; first [exact Hok | apply Hp].
  - apply _removeTooltip_overlay.
    apply (overlay_ok_same w); [apply overlay_of__removeHover | exact Hok].
Qed.

Lemma handleRefresh_overlay w : overlay_ok w -> overlay_ok (handleRefresh w).
Proof.
  intros Hok. apply _removeTooltip_overlay.
  apply (overlay_ok_same w); [apply overlay_of__removeHover | exact Hok].
Qed.

Lemma _handleRightClick_overlay ev w :
  overlay_ok w -> overlay_ok (world_of (after_click (_handleRightClick ev w))).
Proof.
  intros Hok. unfold _handleRightClick.
  destruct (_isEventInsideVisible ev) as [e|[|]]; cbn; try exact Hok.
  destruct (negb _); cbn; [exact Hok|].
  destruct (_ && _); cbn; [exact Hok|].
  destruct (contextMenuProvider _); cbn; [exact Hok|].
  now apply _showTooltip_overlay.
Qed.

Lemma handlers_off_overlay (off : string -> option Listener -> World -> World)
    (get : World -> string -> option Listener) keys w :
  (forall k f w, overlay_of (off k f w) = overlay_of w) ->
  overlay_of (fold_left (fun w key => off key (get w key) w) keys w) = overlay_of w.
Proof.
  intros Hoff. revert w. induction keys as [|k keys IH]; intros w; [reflexivity|].
  cbn [fold_left]. now rewrite IH, Hoff.
Qed.

Lemma remove_overlay w : overlay_ok w -> overlay_ok (remove w).
Proof.
  intros Hok. unfold remove.
  assert (overlay_ok (_removeTooltip (_removeHover (_removeSignatureWidget w)))
          /\ isShowingContextMenu
               (this (_removeTooltip (_removeHover (_removeSignatureWidget w))))
             = false) as [Hok1 Hs1].
  { apply _removeTooltip_overlay.
    apply (overlay_ok_same (_removeSignatureWidget w));
      [apply overlay_of__removeHover | now apply _removeSignatureWidget_overlay]. }
  revert Hok1 Hs1.
  generalize (_removeTooltip (_removeHover (_removeSignatureWidget w))).
  intros w1 Hok1 Hs1.
  assert (overlay_ok (_clearDiagnostics w1)
          /\ isShowingContextMenu (this (_clearDiagnostics w1)) = false) as [Hok2 Hs2].
  { pose proof (overlay_of__clearDiagnostics w1) as H. split.
    - now apply (overlay_ok_same w1).
    - unfold overlay_of in H. injection H as _ -> _. exact Hs1. }
  revert Hok2 Hs2. generalize (_clearDiagnostics w1). intros w2 Hok2 Hs2.
  set (w3 := on_dom _ w2).
  assert (overlay_ok w3) as Hok3.
  { subst w3. unfold overlay_ok, tooltip_nodes in *. destruct_world w2. cbn in *.
    subst. rewrite filter_filter.
    rewrite (List.filter_ext _ (fun n => has_class "CodeMirror-lsp-tooltip" (node_classes n)
                                         && negb (has_class "CodeMirror-hints" (node_classes n))))
      by (intros n; apply andb_comm).
    now rewrite <- filter_filter, Hok2. }
  clearbody w3. apply (overlay_ok_same w3); [|exact Hok3].
  rewrite (handlers_off_overlay document_removeEventListener
             (fun w key => obj_get key (documentListeners (this w))))
    by (intros k f w0; now destruct_world w0).
  rewrite (handlers_off_overlay connection_off
             (fun w key => obj_get key (connectionListeners (this w))))
    by (intros k f w0; now destruct_world w0).
  assert (forall k f w0, overlay_of (editor_off k f w0) = overlay_of w0) as Hed
    by (intros k f w0; now destruct_world w0).
  assert (forall k f w0, overlay_of (wrapper_removeEventListener k f w0) = overlay_of w0)
    as Hwr by (intros k f w0; now destruct_world w0).
  destruct (truthy _); now rewrite ?Hwr, !Hed.
Qed.

Lemma updateOptions_overlay getFilledDefaults opts w :
  overlay_of (updateOptions getFilledDefaults opts w) = overlay_of w.
Proof.
  unfold updateOptions. destruct (negb _).
  - rewrite overlay_of__clearDiagnostics. now destruct_world w.
  - now destruct_world w.
Qed.

Lemma run_op_overlay getFilledDefaults marked_parse w op :
  overlay_ok w -> overlay_ok (run_op getFilledDefaults marked_parse w op).
Proof.
  intros Hok. destruct op; cbn [run_op].
  - apply (overlay_ok_same w); [apply handleDiagnostic_overlay | exact Hok].
  - now apply handleSignature_overlay.
  - now apply handleGoTo_overlay.
  - now apply handleHover_overlay.
  - apply (overlay_ok_same w); [apply overlay_of__highlightRanges | exact Hok].
  - apply (overlay_ok_same w); [|exact Hok]. unfold handleCompletion.
    destruct (token (this w)); [|reflexivity].
    destruct (negb _); [reflexivity|]. now destruct_world w.
  - now apply handleChange_overlay.
  - now apply handleMouseOver_overlay.
  - exact Hok.
  - now apply handleRefresh_overlay.
  - now apply handleRefresh_overlay.
  - apply (overlay_ok_same w); [apply overlay_of__unhighlightRanges | exact Hok].
  - unfold _handleClickOutside. destruct (isShowingContextMenu (this w)); [|exact Hok].
    destruct (inside_tooltip _); [exact Hok | now apply _removeTooltip_overlay].
  - now apply _handleRightClick_overlay.
  - apply (overlay_ok_same w); [apply updateOptions_overlay | exact Hok].
  - apply (overlay_ok_same w); [now destruct_world w | exact Hok].
  - apply (overlay_ok_same w); [|exact Hok]. unfold hover_timer_expires.
    destruct (pending_hover (timers w)); [|reflexivity]. unfold getHover_body.
    destruct (_ && _); now destruct_world w.
  - unfold change_timer_expires. destruct (pending_change (timers w)); [|exact Hok].
    apply handleChange_overlay.
    apply (overlay_ok_same w); [now destruct_world w | exact Hok].
  - now apply remove_overlay.
Qed.

(** X17: at most one tooltip is mounted at any time.  On a page without
    tooltip nodes, after the constructor and any sequence of calls of the
    public methods, listeners and timers, whether they return or throw,
    the wrapper element has at most one tooltip node; it has one exactly
    when the adapter takes a tooltip to be showing, and that node is the
    adapter's tooltip element. *)
Theorem at_most_one_tooltip :
  forall getFilledDefaults marked_parse conn opts ed snips d ops,
    List.filter (fun n => has_class "CodeMirror-lsp-tooltip" (node_classes n))
                (wrapper_nodes d) = [] ->
    let w := run getFilledDefaults marked_parse
                 (constructor getFilledDefaults conn opts ed snips d) ops in
    overlay_ok w /\ (length (tooltip_nodes w) <= 1)%nat.
Proof.
  intros gfd mp conn opts ed snips d ops Hnone w.
  assert (overlay_ok w) as Hok.
  { subst w. unfold run.
    assert (overlay_ok (constructor gfd conn opts ed snips d)) as H0.
    { destruct d, ed, conn. unfold constructor, _addListeners, overlay_ok, tooltip_nodes.
      cbn in *. destruct (truthy (enableContextMenu (gfd opts))); cbn; exact Hnone. }
    revert H0. generalize (constructor gfd conn opts ed snips d).
    induction ops as [|op ops IH]; intros w0 H0; [exact H0|].
    cbn [fold_left]. apply IH. now apply run_op_overlay. }
  split; [exact Hok|]. unfold overlay_ok in Hok.
  destruct (isShowingContextMenu (this w)).
  - destruct Hok as (t & _ & Hone). apply (f_equal (@length nat)) in Hone.
    rewrite length_map in Hone. cbn in Hone. lia.
  - rewrite Hok. cbn. lia.
Qed.

Lemma at_most_one_tooltip_witness :
  let w := run (fill_defaults example_defaults) (fun s => s)
               (constructor (fill_defaults example_defaults) example_connection
                            no_options example_editor None example_dom)
               [call_handleChange;
                call_handleSignature
                  (Some (mkSignatureHelp (Some [mkSignature "log(message: any)"])));
                call_handleRightClick move_outside_on_token] in
  overlay_ok w /\ (length (tooltip_nodes w) <= 1)%nat.
Proof. apply at_most_one_tooltip. reflexivity. Defined.

(** ** Pointer moves, again *)

Lemma filter_idem {A} (p : A -> bool) (l : list A) :
  List.filter p (List.filter p l) = List.filter p l.
Proof.
  rewrite filter_filter. apply List.filter_ext. intros x. now destruct (p x).
Qed.

Lemma _removeTooltip_idem w : _removeTooltip (_removeTooltip w) = _removeTooltip w.
Proof.
  unfold _removeTooltip at 2 3. destruct (tooltip (this w)) as [t|] eqn:Ht.
  - unfold _removeTooltip. destruct_world w. cbn in *. subst. cbn.
    now rewrite filter_idem.
  - unfold _removeTooltip. now rewrite Ht.
Qed.

Lemma _removeTooltip_overlay_flag w :
  isShowingContextMenu (this (_removeTooltip w)) = false
  \/ isShowingContextMenu (this (_removeTooltip w)) = isShowingContextMenu (this w).
Proof.
  unfold _removeTooltip. destruct (tooltip (this w)); [left | now right].
  now destruct_world w.
Qed.

Lemma _removeHover_idem w : _removeHover (_removeHover w) = _removeHover w.
Proof.
  unfold _removeHover at 1.
  now destruct (_removeHover_fields w) as (-> & _).
Qed.

(** X18: a pointer move that repeats the one just handled changes
    nothing: when [handleMouseOver] has returned for an event, handling the
    same event again returns the same stores, so a pointer resting on a
    character schedules its hover request once. *)
Theorem repeated_pointer_move_changes_nothing :
  forall ev w w',
    handleMouseOver ev w = Done w' -> handleMouseOver ev w' = Done w'.
Proof.
  intros ev w w'. unfold handleMouseOver at 1.
  destruct (_isEventOnCharacter ev w) eqn:Hchar; cbn [negb].
  2: { intros [= <-]. unfold handleMouseOver. now rewrite Hchar. }
  destruct (_isEventOnTooltip ev w) as [e|[|]] eqn:Htip; [discriminate| |].
  { intros [= <-]. unfold handleMouseOver. now rewrite Hchar, Htip. }
  destruct (_isEventInsideVisible ev) as [e|[|]] eqn:Hin; [discriminate| |].
  - set (p := coordsChar (view (editor w)) (clientX ev) (clientY ev)).
    assert (forall w1,
               view (editor w1) = view (editor w) ->
               isShowingContextMenu (this w1) = isShowingContextMenu (this w) ->
               hoverCharacter (this w1) = Some p ->
               handleMouseOver ev w1 = Done w1) as Hagain.
    { intros w1 Hv Hs Hh. unfold handleMouseOver, _isEventOnCharacter, _isEventOnTooltip.
      unfold _isEventOnCharacter in Hchar. unfold _isEventOnTooltip in Htip.
      rewrite Hv, Hs, Hchar, Htip, Hin, Hh. cbn [negb]. fold p.
      now rewrite position_eqb_refl. }
    destruct (hoverCharacter (this w)) as [h|] eqn:Hh.
    + destruct (position_eqb p h) eqn:Hp; intros [= <-].
      * apply Hagain; try reflexivity. apply position_eqb_eq in Hp. congruence.
      * apply Hagain; now destruct_world w.
    + intros [= <-]. apply Hagain; now destruct_world w.
  - intros [= <-].
    destruct (_removeHover_keeps w) as (_ & _ & _ & _ & _ & _ & Hs & _ & Hv & _).
    destruct (_removeTooltip_frame (_removeHover w)) as (_ & _ & _ & He & _).
    pose proof (_removeTooltip_overlay_flag (_removeHover w)) as Hflag.
    unfold handleMouseOver, _isEventOnCharacter, _isEventOnTooltip.
    unfold _isEventOnCharacter in Hchar. unfold _isEventOnTooltip in Htip.
    rewrite He, Hv, Hchar. cbn [negb].
    assert ((if negb (isShowingContextMenu (this (_removeTooltip (_removeHover w))))
             then inr false
             else match target_path ev with
                  | [] => inl null_target
                  | target :: _ =>
                      inr (has_class "CodeMirror-lsp-tooltip" (classList target)
                           || String.eqb (tagName target) "A")
                  end) = (inr false : Exn + bool)) as ->.
    { destruct Hflag as [-> | ->]; [reflexivity|]. rewrite Hs. exact Htip. }
    rewrite Hin. f_equal.
    destruct (_removeTooltip_keeps (_removeHover w)) as (Hh & _).
    destruct (_removeHover_fields w) as (Hnone & _).
    unfold _removeHover at 1. rewrite Hh, Hnone. apply _removeTooltip_idem.
Qed.

Lemma repeated_pointer_move_changes_nothing_witness :
  let w' := world_of (handleMouseOver move_inside_on_token example_world) in
  handleMouseOver move_inside_on_token w' = Done w'
  /\ pending_hover (timers w') = Some (mkPosition 0 1).
Proof.
  intros w'. split; [|reflexivity].
  apply (repeated_pointer_move_changes_nothing move_inside_on_token example_world).
  reflexivity.
Defined.

(** ** Buffer changes *)

Lemma split_lines_from_newline a x cur :
  lacks JS.newline x = true ->
  JS.split_lines_from cur (a +:+ String JS.newline x)
  = JS.split_lines_from cur a ++ [x].
Proof.
  intros Hx. revert cur. induction a as [|c a IH]; intros cur.
  - change ("" +:+ String JS.newline x) with (String JS.newline x).
    cbn [JS.split_lines_from]. rewrite Ascii.eqb_refl.
    now rewrite split_lines_from_lacks.
  - unfold String.append; fold String.append. cbn [JS.split_lines_from].
    destruct (Ascii.eqb c JS.newline); now rewrite IH.
Qed.

Lemma split_join_fold ls acc :
  Forall (fun l => lacks JS.newline l = true) ls ->
  JS.split_lines
    (fold_left (fun acc x => acc +:+ String JS.newline EmptyString +:+ x) ls acc)
  = JS.split_lines acc ++ ls.
Proof.
  intros Hls. revert acc. induction Hls as [|x ls Hx Hls IH]; intros acc.
  - cbn. now rewrite List.app_nil_r.
  - cbn [fold_left]. rewrite IH.
    change (String JS.newline "" +:+ x) with (String JS.newline x).
    unfold JS.split_lines. rewrite split_lines_from_newline by exact Hx.
    now rewrite <- List.app_assoc.
Qed.

(** The text of the editor splits back into the editor's lines. *)
Lemma split_lines_getValue w :
  doc_lines (editor w) <> [] ->
  Forall (fun l => lacks JS.newline l = true) (doc_lines (editor w)) ->
  JS.split_lines (getValue w) = doc_lines (editor w).
Proof.
  unfold getValue, join_lines. destruct (doc_lines (editor w)) as [|l ls]; [easy|].
  intros _ Hls. inversion Hls as [|? ? Hl Hls']; subst.
  rewrite split_join_fold by exact Hls'.
  unfold JS.split_lines. now rewrite split_lines_from_lacks.
Qed.

Lemma call_fields c w :
  calls (connection (call c w)) = calls (connection w) ++ [c]
  /\ this (call c w) = this w
  /\ editor (call c w) = editor w
  /\ completionCharacters (connection (call c w)) = completionCharacters (connection w)
  /\ signatureCharacters (connection (call c w)) = signatureCharacters (connection w).
Proof. now destruct_world w. Qed.

Lemma set_token_calls r w :
  calls (connection (world_of (set_token_result r w))) = calls (connection w).
Proof. destruct r; [reflexivity|]. now destruct_world w. Qed.

Lemma call_calls c w :
  calls (connection (call c w)) = calls (connection w) ++ [c].
Proof. now destruct_world w. Qed.

Lemma set_token_keeps_calls t w :
  calls (connection (on_this (set_token (Some t)) w)) = calls (connection w).
Proof. now destruct_world w. Qed.

Lemma handleChange_calls w :
  exists rest,
    calls (connection (world_of (handleChange w)))
    = calls (connection w) ++ sendChange :: rest
    /\ (length rest <= 1)%nat.
Proof.
  unfold handleChange.
  pose proof (call_calls sendChange w) as Hcalls.
  revert Hcalls. generalize (call sendChange w). intros w1 Hcalls.
  assert (calls (connection (_removeSignatureWidget w1)) = calls (connection w1)) as Hsig
    by (now destruct (_removeSignatureWidget_frame w1) as (_ & _ & _ & ->)).
  destruct (JS.nth_value _ _) as [ln|]; cbn [world_of].
  2: { exists []. split; [now rewrite Hcalls | cbn; lia]. }
  destruct (JS.char_at ln _) as [typedCharacter|]; cbn [world_of].
  2: { exists []. split; [now rewrite Hsig, Hcalls | cbn; lia]. }
  destruct (-1 <? _).
  { destruct (_getTokenEndingAtPosition _ _ _) as [e|t]; cbn.
    - exists []. split; [now rewrite Hcalls | cbn; lia].
    - eexists [_]. split; [|cbn; lia].
      rewrite call_calls, set_token_keeps_calls, Hcalls, <- List.app_assoc.
      reflexivity. }
  destruct (-1 <? _).
  { destruct (_getTokenEndingAtPosition _ _ _) as [e|t]; cbn.
    - exists []. split; [now rewrite Hcalls | cbn; lia].
    - eexists [_]. split; [|cbn; lia].
      rewrite call_calls, set_token_keeps_calls, Hcalls, <- List.app_assoc.
      reflexivity. }
  destruct (negb _).
  - eexists [_]. split; [|cbn; lia].
    rewrite set_token_calls, call_calls, Hcalls, <- List.app_assoc. reflexivity.
  - exists []. cbn [world_of]. split; [now rewrite Hsig, Hcalls | cbn; lia].
Qed.


Lemma token_extractor_returns code location splitCharacters ln :
  JS.nth_value (JS.split_lines code) (line location) = Some ln ->
  exists t,
    _getTokenEndingAtPosition code location splitCharacters = inr t
    /\ tok_end t = location
    /\ line (tok_start t) = line location.
Proof.
  intros Hln. unfold _getTokenEndingAtPosition. rewrite Hln.
  destruct (if _ : bool then _ else _); eexists; repeat split.
Qed.

Lemma find_eqb c l :
  In c l -> List.find (String.eqb c) l = Some c.
Proof.
  induction l as [|x l IH]; intros Hin; [easy|]. cbn.
  destruct (String.eqb_spec c x) as [->|Hne]; [reflexivity|].
  destruct Hin as [->|Hin]; [easy | now apply IH].
Qed.

Lemma handleChange_reads w :
  editor (call sendChange w) = editor w
  /\ this (call sendChange w) = this w
  /\ completionCharacters (connection (call sendChange w))
     = completionCharacters (connection w)
  /\ signatureCharacters (connection (call sendChange w))
     = signatureCharacters (connection w)
  /\ getValue (call sendChange w) = getValue w.
Proof. now destruct_world w. Qed.

(** X20: typing a word character that is no trigger character asks for
    completion with trigger kind "invoked"; the request carries the token
    the adapter held before this change, and the token for the new cursor
    position is stored only after the request is sent. *)
Theorem typed_word_character_sends_previous_token :
  forall w ln c,
    Forall (fun l => lacks JS.newline l = true) (doc_lines (editor w)) ->
    JS.nth_value (doc_lines (editor w)) (line (cursor_end (editor w))) = Some ln ->
    JS.char_at ln (ch (cursor_end (editor w)) - 1) = Some c ->
    ~ In c (completionCharacters (connection w)) ->
    ~ In c (signatureCharacters (connection w)) ->
    JS.test_nonword c = false ->
    exists w' t,
      handleChange w = Done w'
      /\ calls (connection w')
         = calls (connection w)
           ++ [sendChange;
               getCompletion (cursor_end (editor w)) (token (this w)) (Some "") 1]
      /\ token (this w') = Some t
      /\ tok_end t = cursor_end (editor w)
      /\ line (tok_start t) = line (cursor_end (editor w)).
Proof.
  intros w ln c Hlines Hln Hc Hcc Hsc Hword. unfold handleChange.
  destruct (handleChange_reads w) as (He & Ht & Hccs & Hscs & Hv).
  rewrite He, Ht, Hccs, Hscs, Hv, Hln, Hc. cbn [JS.indexOf].
  rewrite !indexOf_from_missing by assumption.
  change (-1 <? -1) with false. cbv iota. rewrite Hword. cbn [negb].
  assert (doc_lines (editor w) <> []) as Hne.
  { intros Hnil. rewrite Hnil in Hln. unfold JS.nth_value in Hln.
    now destruct (_ <? 0). }
  destruct (token_extractor_returns (getValue w) (cursor_end (editor w))
              (completionCharacters (connection w) ++ signatureCharacters (connection w))
              ln) as (t & -> & Hend & Hstart).
  { now rewrite split_lines_getValue. }
  cbn [set_token_result]. eexists _, t. split; [reflexivity|].
  split; [|split; [|split; assumption]].
  - rewrite set_token_keeps_calls, call_calls, call_calls, <- List.app_assoc.
    reflexivity.
  - set (w1 := call _ _). now destruct_world w1.
Qed.

Lemma typed_word_character_sends_previous_token_witness :
  exists w' t,
    handleChange (session_typing "ab cd ef" 5) = Done w'
    /\ calls (connection w')
       = calls (connection (session_typing "ab cd ef" 5))
         ++ [sendChange;
             getCompletion (cursor_end (editor (session_typing "ab cd ef" 5)))
                           (token (this (session_typing "ab cd ef" 5))) (Some "") 1]
    /\ token (this w') = Some t
    /\ tok_end t = cursor_end (editor (session_typing "ab cd ef" 5))
    /\ line (tok_start t) = line (cursor_end (editor (session_typing "ab cd ef" 5))).
Proof.
  apply (typed_word_character_sends_previous_token
           (session_typing "ab cd ef" 5) "ab cd ef" "d");
    try reflexivity.
  - repeat constructor.
  - cbn. intros [H|[]]. discriminate H.
  - cbn. intros [H|[]]. discriminate H.
Defined.

Lemma handleChange_on_trigger w ln c :
  Forall (fun l => lacks JS.newline l = true) (doc_lines (editor w)) ->
  JS.nth_value (doc_lines (editor w)) (line (cursor_end (editor w))) = Some ln ->
  JS.char_at ln (ch (cursor_end (editor w)) - 1) = Some c ->
  In c (completionCharacters (connection w)) ->
  let cursor := cursor_end (editor w) in
  let tok := mkToken c (mkPosition (line cursor) (ch cursor - 1)) cursor in
  handleChange w
  = Done (call (getCompletion cursor (Some tok) (Some c) 2)
               (on_this (set_token (Some tok)) (call sendChange w))).
Proof.
  intros Hlines Hln Hc Hcc cursor tok. unfold handleChange.
  destruct (handleChange_reads w) as (He & Ht & Hccs & Hscs & Hv).
  rewrite He, Hccs, Hscs, Hv, Hln, Hc. cbn [JS.indexOf].
  rewrite indexOf_from_found by (assumption || lia).
  assert (doc_lines (editor w) <> []) as Hne.
  { intros Hnil. rewrite Hnil in Hln. unfold JS.nth_value in Hln.
    now destruct (_ <? 0). }
  rewrite (token_split_character _ _ _ ln c); try assumption.
  2: { now rewrite split_lines_getValue. }
  cbn [set_token_result and_then].
  rewrite find_eqb by exact Hcc. fold cursor. fold tok.
  set (w1 := call sendChange w).
  replace (token (this (on_this (set_token (Some tok)) w1)))
    with (Some tok) by now destruct_world w1.
  reflexivity.
Qed.

(** X21: typing a completion trigger character asks for completion with
    trigger kind "trigger character" and that character, and the token
    sent and stored is the character itself, from the column before the
    cursor to the cursor; this also holds when the character is a
    signature trigger character as well. *)
Theorem typed_trigger_character_requests_completion :
  forall w ln c,
    Forall (fun l => lacks JS.newline l = true) (doc_lines (editor w)) ->
    JS.nth_value (doc_lines (editor w)) (line (cursor_end (editor w))) = Some ln ->
    JS.char_at ln (ch (cursor_end (editor w)) - 1) = Some c ->
    In c (completionCharacters (connection w)) ->
    let cursor := cursor_end (editor w) in
    let tok := mkToken c (mkPosition (line cursor) (ch cursor - 1)) cursor in
    exists w',
      handleChange w = Done w'
      /\ calls (connection w')
         = calls (connection w) ++ [sendChange; getCompletion cursor (Some tok) (Some c) 2]
      /\ token (this w') = Some tok.
Proof.
  intros w ln c Hlines Hln Hc Hcc cursor tok.
  eexists. split; [exact (handleChange_on_trigger w ln c Hlines Hln Hc Hcc)|].
  fold cursor. fold tok. split.
  - rewrite call_calls, set_token_keeps_calls, call_calls, <- List.app_assoc.
    reflexivity.
  - now destruct_world w.
Qed.

Lemma typed_trigger_character_requests_completion_witness :
  exists w',
    handleChange (session_typing "a." 2) = Done w'
    /\ calls (connection w')
       = calls (connection (session_typing "a." 2))
         ++ [sendChange;
             getCompletion (mkPosition 0 2)
               (Some (mkToken "." (mkPosition 0 1) (mkPosition 0 2))) (Some ".") 2]
    /\ token (this w') = Some (mkToken "." (mkPosition 0 1) (mkPosition 0 2)).
Proof.
  apply (typed_trigger_character_requests_completion (session_typing "a." 2) "a." ".");
    try reflexivity.
  - repeat constructor.
  - cbn. now left.
Defined.

(** X22: the hints for a completion trigger character are inserted at
    the cursor and keep the character, when it is a single non-word
    character; a trigger character that is a word character is replaced
    by the chosen hint.  The snippets that match come before the
    completions of the response. *)
Theorem trigger_completion_keeps_trigger_character :
  forall w ln c completions,
    Forall (fun l => lacks JS.newline l = true) (doc_lines (editor w)) ->
    JS.nth_value (doc_lines (editor w)) (line (cursor_end (editor w))) = Some ln ->
    JS.char_at ln (ch (cursor_end (editor w)) - 1) = Some c ->
    In c (completionCharacters (connection w)) ->
    truthy (suggest (options (this w))) = true ->
    let cursor := cursor_end (editor w) in
    exists w',
      handleChange w = Done w'
      /\ hint (editor (handleCompletion completions w'))
         = Some {| hint_from := if JS.test_single_nonword c then cursor
                                else mkPosition (line cursor) (ch cursor - 1);
                   hint_to := cursor;
                   hint_list :=
                     _getHintList (_getFilteredCompletions c (snippets (this w)) true)
                     ++ _getHintList (_getFilteredCompletions c completions false) |}.
Proof.
  intros w ln c completions Hlines Hln Hc Hcc Hsuggest cursor.
  eexists. split; [exact (handleChange_on_trigger w ln c Hlines Hln Hc Hcc)|].
  fold cursor. set (tok := mkToken c _ cursor). set (k := getCompletion _ _ _ _).
  unfold handleCompletion.
  replace (token (this (call k (on_this (set_token (Some tok)) (call sendChange w)))))
    with (Some tok) by now destruct_world w.
  replace (options (this (call k (on_this (set_token (Some tok)) (call sendChange w)))))
    with (options (this w)) by now destruct_world w.
  replace (snippets (this (call k (on_this (set_token (Some tok)) (call sendChange w)))))
    with (snippets (this w)) by now destruct_world w.
  rewrite Hsuggest. cbn [negb tok_text tok_end tok_start tok].
  generalize (call k (on_this (set_token (Some tok)) (call sendChange w))).
  intros w1. subst tok. cbn [tok_text tok_end tok_start].
  destruct (JS.test_single_nonword c); now destruct_world w1.
Qed.

Lemma trigger_completion_keeps_trigger_character_witness :
  exists w',
    handleChange (session_typing "a." 2) = Done w'
    /\ hint (editor (handleCompletion
                       (Some [item_of_label "length"; item_of_label "map"]) w'))
       = Some {| hint_from := mkPosition 0 2;
                 hint_to := mkPosition 0 2;
                 hint_list := [mkHint "length" "length"; mkHint "map" "map"] |}.
Proof.
  apply (trigger_completion_keeps_trigger_character
           (session_typing "a." 2) "a." "."
           (Some [item_of_label "length"; item_of_label "map"]));
    try reflexivity.
  - repeat constructor.
  - cbn. now left.
Defined.

(** ** Signature help *)

Lemma _removeTooltip_next_node w :
  next_node (dom (_removeTooltip w)) = next_node (dom w).
Proof.
  unfold _removeTooltip. destruct (tooltip (this w)); [|reflexivity].
  now destruct_world w.
Qed.

Lemma _removeSignatureWidget_next_node w :
  next_node (dom (_removeSignatureWidget w)) = next_node (dom w).
Proof.
  unfold _removeSignatureWidget.
  destruct (signatureWidget (this w)).
  - destruct (tooltip (this (on_this _ w))).
    + rewrite _removeTooltip_next_node. now destruct_world w.
    + now destruct_world w.
  - destruct (tooltip (this w)); [apply _removeTooltip_next_node | reflexivity].
Qed.

(** X23: a signature response with a signature list replaces whatever
    tooltip was showing.  When signatures are enabled, the list is not
    empty and a token is stored, the one tooltip afterwards holds one
    line per signature and sits at the start of the stored token, one
    text line higher; otherwise no tooltip is left. *)
Theorem signature_help_replaces_tooltip :
  forall w r sigs,
    overlay_ok w ->
    signatures r = Some sigs ->
    exists w',
      handleSignature (Some r) w = Done w'
      /\ tooltip_nodes w'
         = match sigs, token (this w) with
           | _ :: _, Some tok =>
               if truthy (enableSignatures (options (this w))) then
                 let v := view (editor w) in
                 [{| node_id := next_node (dom w);
                     node_classes := ["CodeMirror-lsp-tooltip"];
                     node_left := fst (charCoords v (tok_start tok))
                                  - fst (getScrollInfo v);
                     node_top := snd (charCoords v (tok_start tok))
                                 - snd (getScrollInfo v) - defaultTextHeight v;
                     node_children :=
                       [mkElement "div" ["lsp-inner"] ""
                          (map (fun s => mkElement "div" [] (sig_label s) []) sigs)] |}]
               else []
           | _, _ => []
           end.
Proof.
  intros w r sigs Hok Hsigs. unfold handleSignature.
  destruct (_removeTooltip_overlay _ (_removeSignatureWidget_overlay w Hok))
    as [Hok1 Hflag].
  destruct (_removeTooltip_frame (_removeSignatureWidget w)) as (Ho & Ht & _ & He & _).
  destruct (_removeSignatureWidget_frame w) as (Ho' & Ht' & He' & _).
  pose proof (_removeTooltip_next_node (_removeSignatureWidget w)) as Hn.
  rewrite _removeSignatureWidget_next_node in Hn.
  rewrite Ho' in Ho. rewrite Ht' in Ht. rewrite He' in He. clear Ho' Ht' He'.
  revert Hok1 Hflag Ho Ht He Hn.
  generalize (_removeTooltip (_removeSignatureWidget w)).
  intros w1 Hok1 Hflag Ho Ht He Hn.
  assert (tooltip_nodes w1 = []) as Hnone
    by (unfold overlay_ok in Hok1; now rewrite Hflag in Hok1).
  rewrite Ho, Ht, Hsigs.
  destruct (truthy (enableSignatures (options (this w)))); cbn [negb].
  2: { eexists. split; [reflexivity|]. now destruct sigs, (token (this w)). }
  destruct sigs as [|s sigs]; [now eexists|].
  destruct (token (this w)) as [tok|]; [|now eexists].
  eexists. split; [reflexivity|]. rewrite <- He, <- Hn. clear Hok1 Ho Ht He Hn Hok.
  unfold _showTooltip. rewrite Hflag. unfold tooltip_nodes in *.
  destruct_world w1. cbn in *. rewrite List.filter_app, Hnone. reflexivity.
Qed.

Lemma signature_help_replaces_tooltip_witness :
  let w := on_this (set_token (Some (mkToken "(" (mkPosition 0 3) (mkPosition 0 4))))
                   hovering_world in
  exists w',
    handleSignature (Some (mkSignatureHelp (Some [mkSignature "log(message: any)"]))) w
    = Done w'
    /\ tooltip_nodes w'
       = [{| node_id := 1%nat;
             node_classes := ["CodeMirror-lsp-tooltip"];
             node_left := 24;
             node_top := -16;
             node_children :=
               [mkElement "div" ["lsp-inner"] ""
                  [mkElement "div" [] "log(message: any)" []]] |}].
Proof.
  apply (signature_help_replaces_tooltip
           (on_this (set_token (Some (mkToken "(" (mkPosition 0 3) (mkPosition 0 4))))
                    hovering_world)
           (mkSignatureHelp (Some [mkSignature "log(message: any)"]))
           [mkSignature "log(message: any)"]).
  - cbn. eexists. split; reflexivity.
  - reflexivity.
Defined.

(** ** Teardown and the debounce timers *)

Lemma fold_off_keeps {A} (proj : World -> A)
    (off : string -> option Listener -> World -> World)
    (get : World -> string -> option Listener) keys w :
  (forall k f w, proj (off k f w) = proj w) ->
  proj (fold_left (fun w key => off key (get w key) w) keys w) = proj w.
Proof.
  intros Hoff. revert w. induction keys as [|k keys IH]; intros w; [reflexivity|].
  cbn [fold_left]. now rewrite IH, Hoff.
Qed.

Lemma remove_keeps_requests w : requests_of (remove w) = requests_of w.
Proof.
  assert (forall w0, requests_of (_removeTooltip w0) = requests_of w0) as Htip.
  { intros w0. unfold _removeTooltip. destruct (tooltip (this w0)); [|reflexivity].
    now destruct_world w0. }
  assert (forall w0, requests_of (_removeSignatureWidget w0) = requests_of w0) as Hsig.
  { intros w0. unfold _removeSignatureWidget.
    destruct (signatureWidget (this w0)).
    - destruct (tooltip (this (on_this _ w0)));
        [rewrite Htip|]; now destruct_world w0.
    - destruct (tooltip (this w0)); [apply Htip | reflexivity]. }
  assert (forall w0, requests_of (_removeHover w0) = requests_of w0) as Hhov.
  { intros w0. unfold _removeHover. destruct (hoverMarker (this w0)); [|reflexivity].
    now destruct_world w0. }
  assert (forall w0, requests_of (_clearDiagnostics w0) = requests_of w0) as Hdiag.
  { intros w0. rewrite _clearDiagnostics_eq. now destruct_world w0. }
  unfold remove.
  rewrite (fold_off_keeps requests_of document_removeEventListener
             (fun w key => obj_get key (documentListeners (this w))))
    by (intros k f w0; now destruct_world w0).
  rewrite (fold_off_keeps requests_of connection_off
             (fun w key => obj_get key (connectionListeners (this w))))
    by (intros k f w0; now destruct_world w0).
  assert (forall k f w0, requests_of (editor_off k f w0) = requests_of w0) as Hed
    by (intros k f w0; now destruct_world w0).
  assert (forall k f w0, requests_of (wrapper_removeEventListener k f w0)
                         = requests_of w0)
    as Hwr by (intros k f w0; now destruct_world w0).
  assert (forall f w0, requests_of (on_dom f w0) = requests_of w0) as Hdom
    by (intros f w0; now destruct_world w0).
  destruct (truthy _); now rewrite ?Hwr, !Hed, Hdom, Hdiag, Htip, Hhov, Hsig.
Qed.

(** X24: [remove] cancels neither debounce.  A buffer change and a hover
    that are pending when the adapter is removed still run when their
    timers expire afterwards: the change is sent to the server, and with
    hover info or diagnostics enabled so is the hover request. *)
Theorem remove_does_not_cancel_debounces :
  forall w p,
    pending_change (timers w) = true ->
    pending_hover (timers w) = Some p ->
    truthy (enableDiagnostics (options (this w)))
    || truthy (enableHoverInfo (options (this w))) = true ->
    (exists rest,
        calls (connection (world_of (change_timer_expires (remove w))))
        = calls (connection w) ++ sendChange :: rest)
    /\ calls (connection (hover_timer_expires (remove w)))
       = calls (connection w) ++ [getHoverTooltip p].
Proof.
  intros w p Hchange Hhover Hon.
  pose proof (remove_keeps_requests w) as Hkept.
  revert Hkept. generalize (remove w). intros w1 Hkept.
  unfold requests_of in Hkept. injection Hkept as Ht Hc Ho. split.
  - unfold change_timer_expires. rewrite Ht, Hchange.
    destruct (handleChange_calls (on_timers (set_pending_change false) w1))
      as (rest & -> & _).
    exists rest. rewrite <- Hc. now destruct_world w1.
  - unfold hover_timer_expires, getHover_body. rewrite Ht, Hhover.
    replace (options (this (on_timers (set_pending_hover None) w1)))
      with (options (this w)) by (rewrite <- Ho; now destruct_world w1).
    apply orb_true_iff in Hon.
    replace (negb _ && negb _) with false
      by (symmetry; apply andb_false_iff; rewrite !negb_false_iff; exact Hon).
    rewrite call_calls, <- Hc. now destruct_world w1.
Qed.

Lemma remove_does_not_cancel_debounces_witness :
  let w := call_debouncedGetHover (mkPosition 0 1) (call_changeListener example_world) in
  (exists rest,
      calls (connection (world_of (change_timer_expires (remove w))))
      = calls (connection w) ++ sendChange :: rest)
  /\ calls (connection (hover_timer_expires (remove w)))
     = calls (connection w) ++ [getHoverTooltip (mkPosition 0 1)].
Proof.
  apply (remove_does_not_cancel_debounces
           (call_debouncedGetHover (mkPosition 0 1) (call_changeListener example_world))
           (mkPosition 0 1)); reflexivity.
Defined.

(** ** Highlights *)

Lemma highlight_fold_next_marker items w :
  next_marker (editor (fold_left highlight_one items w))
  = (next_marker (editor w) + length items)%nat
  /\ doc_lines (editor (fold_left highlight_one items w)) = doc_lines (editor w).
Proof.
  revert w. induction items as [|item items IH]; intros w; cbn [fold_left length].
  - split; [lia | reflexivity].
  - destruct (IH (highlight_one w item)) as (-> & ->).
    destruct_world w. cbn. split; [lia | reflexivity].
Qed.

Lemma _highlightRanges_fields items w :
  let w' := _highlightRanges items w in
  highlightMarkers (this w') = seq (next_marker (editor w)) (length items)
  /\ marks (editor w')
     = List.filter (marker_kept (highlightMarkers (this w))) (marks (editor w))
       ++ highlight_marks (doc_lines (editor w)) (next_marker (editor w)) items
  /\ next_marker (editor w') = (next_marker (editor w) + length items)%nat
  /\ doc_lines (editor w') = doc_lines (editor w).
Proof.
  cbn zeta. unfold _highlightRanges. rewrite _unhighlightRanges_eq.
  set (w1 := on_this _ _).
  assert (highlightMarkers (this w1) = []
          /\ marks (editor w1)
             = List.filter (marker_kept (highlightMarkers (this w))) (marks (editor w))
          /\ next_marker (editor w1) = next_marker (editor w)
          /\ doc_lines (editor w1) = doc_lines (editor w)) as (H1 & H2 & H3 & H4)
    by (subst w1; now destruct_world w).
  assert (fold_left highlight_one items w1
          = match items with [] => w1 | _ :: _ => fold_left highlight_one items w1 end)
    as <- by now destruct items.
  destruct (highlight_fold_fields items w1) as (Ha & Hb & _). cbn zeta in Ha, Hb.
  destruct (highlight_fold_next_marker items w1) as (Hc & Hd).
  rewrite Hc, Hd, Ha, Hb, H1, H2, H3, H4. easy.
Qed.

Lemma highlight_marks_ids ls n items m :
  In m (highlight_marks ls n items) -> In (marker_id m) (seq n (length items)).
Proof.
  unfold highlight_marks. revert n.
  induction items as [|item items IH]; intros n; [easy|].
  cbn [seq length zip_with concat]. intros Hin. apply List.in_app_or in Hin.
  destruct Hin as [Hin|Hin].
  - left. symmetry. exact (text_mark_id _ _ _ _ _ _ Hin).
  - right. now apply IH.
Qed.

Lemma highlight_marks_nonempty ls n items :
  Forall (fun m => pos_ltb (marker_from m) (marker_to m) = true)
         (highlight_marks ls n items).
Proof.
  unfold highlight_marks. revert n.
  induction items as [|item items IH]; intros n; [constructor|].
  cbn [seq length zip_with concat]. apply Forall_app.
  split; [apply text_mark_nonempty | apply IH].
Qed.

Lemma marker_kept_later n k ms :
  Forall (fun m => (marker_id m < n)%nat) ms ->
  List.filter (marker_kept (seq n k)) ms = ms.
Proof.
  intros Hms. apply filter_all. intros m Hm.
  rewrite List.Forall_forall in Hms. specialize (Hms m Hm).
  unfold marker_kept. apply negb_true_iff.
  destruct (existsb _ _) eqn:Hex; [|reflexivity].
  apply List.existsb_exists in Hex. destruct Hex as (i & Hi & Heq).
  apply Nat.eqb_eq in Heq. apply List.in_seq in Hi. lia.
Qed.

Lemma marker_kept_own ls n items :
  List.filter (marker_kept (seq n (length items))) (highlight_marks ls n items) = [].
Proof.
  apply filter_none. intros m Hm. unfold marker_kept. apply negb_false_iff.
  apply List.existsb_exists. exists (marker_id m). split; [|apply Nat.eqb_refl].
  now apply (highlight_marks_ids ls).
Qed.

(** X25: highlight responses replace one another.  After two responses
    only ranges of the second are highlighted, in their order: each of its
    ranges clipped to the document, except those that are empty once
    clipped.  The marks of the first response are cleared, and the marks
    that were on the editor before and were no highlights are kept.  A
    second response that is null or empty leaves no highlight. *)
Theorem highlights_are_replaced :
  forall w items1 items2,
    marks_numbered w ->
    let w2 := handleHighlight items2 (handleHighlight items1 w) in
    let n := (next_marker (editor w) + length (default [] items1))%nat in
    let new_marks :=
      highlight_marks (doc_lines (editor w)) n (map dh_range (default [] items2)) in
    marks (editor w2)
    = List.filter (marker_kept (highlightMarkers (this w))) (marks (editor w))
      ++ new_marks
    /\ Forall (fun m => pos_ltb (marker_from m) (marker_to m) = true) new_marks
    /\ highlightMarkers (this w2) = seq n (length (default [] items2)).
Proof.
  intros w items1 items2 Hnum. cbn zeta. unfold handleHighlight.
  destruct (_highlightRanges_fields (map dh_range (default [] items1)) w)
    as (Hh1 & Hm1 & Hn1 & Hd1). cbn zeta in Hh1, Hm1, Hn1, Hd1.
  rewrite length_map in Hh1, Hn1.
  revert Hh1 Hm1 Hn1 Hd1.
  generalize (_highlightRanges (map dh_range (default [] items1)) w).
  intros w1 Hh1 Hm1 Hn1 Hd1.
  destruct (_highlightRanges_fields (map dh_range (default [] items2)) w1)
    as (Hh2 & Hm2 & _). cbn zeta in Hh2, Hm2. rewrite length_map in Hh2.
  rewrite Hh2, Hm2, Hn1, Hh1, Hm1, Hd1.
  split; [|split; [apply highlight_marks_nonempty | reflexivity]]. f_equal.
  rewrite List.filter_app.
  rewrite <- (length_map dh_range (default [] items1)), marker_kept_own, List.app_nil_r.
  apply marker_kept_later. unfold marks_numbered in Hnum.
  rewrite List.Forall_forall in *. intros m Hm. apply List.filter_In in Hm.
  now apply Hnum.
Qed.

Lemma highlights_are_replaced_witness :
  let w := world_of (handleDiagnostic two_diagnostics example_world) in
  let items1 :=
    Some [mkDocumentHighlight (mkRange (mkLspPosition 0 0) (mkLspPosition 0 5)) None;
          mkDocumentHighlight (mkRange (mkLspPosition 0 6) (mkLspPosition 0 11)) None] in
  let items2 :=
    Some [mkDocumentHighlight (mkRange (mkLspPosition 0 2) (mkLspPosition 0 2)) None;
          mkDocumentHighlight (mkRange (mkLspPosition 0 6) (mkLspPosition 0 40))
                              (Some 1)] in
  marks_numbered w
  /\ map marker_id (marks (editor (handleHighlight items2 (handleHighlight items1 w))))
     = [0; 1; 5]%nat
  /\ highlightMarkers (this (handleHighlight items2 (handleHighlight items1 w)))
     = [4; 5]%nat.
Proof.
  intros w items1 items2.
  assert (marks_numbered w) as Hnum
    by (unfold marks_numbered; vm_compute; repeat constructor).
  split; [exact Hnum|].
  destruct (highlights_are_replaced w items1 items2 Hnum) as (Hmarks & _ & Hids).
  split; [now rewrite Hmarks | exact Hids].
Defined.
